(** * Audio cache subsystem of the music API gateway

    A shallow embedding of the audio cache of the server file
    ([removeCacheEntry], [getCacheStatus], [readCacheMetadata],
    [writeCacheMetadata], [enforceCacheSizeLimit], [streamCachedAudio],
    [downloadAndCacheAudio] and the [GET /custom/audio/:id] handler).

    Modelling choices.
    - JavaScript numbers that hold sizes, times and status codes are [Z];
      the configuration values are taken to be integers.
    - The file system is a finite map from path strings to files, keyed
      by the paths as the code builds them: [path.join] is the POSIX one
      (it normalises its result), and no two strings name one file.  A
      file operation fails when the state says so (missing file, missing
      cache directory); the faults that the state does not decide
      (network, broken stream, failing mkdir / rename / writeFile /
      unlink, read error while streaming) are fields of the state that
      the environment sets.  [readdir] lists the direct entries of a
      directory: the names [n] of one component such that
      [path.join(dir, n)] is a file; the cache directory holds files
      only, the code creates no directory in it.
    - The response object records the status, the headers that the code
      sets, and the body.  [res.status(code).send] with a status taken
      from data throws outside 100..999 and sends no body with 1xx, 204,
      205 and 304; [res.setHeader] is modelled for the values that Node
      takes.
    - Asynchronous code runs in a state-and-exception monad over [world].
      A promise is a slot of the [promises] table.  The body of the async
      closure of [downloadAndCacheAudio] runs when the slot is settled
      ([settle]); what happens between the call and the settlement is up
      to the caller of these two functions.
    - [JSON.parse] / [JSON.stringify] and the resolver module
      ([./module/song_url]) are parameters.

    The development also embeds, each in a module of its own, the client
    address ([resolveClientIp] and the address code of the module routes),
    [getModulesDefinitions], [checkVersion], the WBI signature, the key
    cache and [biliRequest] of [util/biliRequest.js], and the route
    handler of [util/biliApiHandler.js].  There
    - a string is the sequence of the bytes of its UTF-8 form, so
      [encodeURIComponent] and the reading of a query string work byte by
      byte; white space and letter case are the ASCII ones, and strings
      are ordered byte by byte;
    - the digest [md5] is a parameter;
    - the answers of the network are fields of the state, and the requests
      sent are logged in it;
    - the hooks of a route are functions of the parameters and of the
      result. *)

From Stdlib Require Import ZArith String Ascii.
From Stdlib.Strings Require Import Byte.
From stdpp Require Import base gmap strings list sorting pretty.

Local Open Scope Z_scope.

(** ** Strings as JavaScript uses them *)

Module Str.

(** [s.endsWith(suffix)] *)
Definition endsWith (s suffix : string) : bool :=
  let n := String.length s in
  let k := String.length suffix in
  if (k <=? n)%nat then String.eqb (substring (n - k) k s) suffix else false.

(** [s.slice(0, -k)] *)
Definition slice_end (s : string) (k : nat) : string :=
  substring 0 (String.length s - k) s.

(** [s] without its prefix [p], when it starts with [p]. *)
Fixpoint strip_prefix (p s : string) : option string :=
  match p, s with
  | EmptyString, _ => Some s
  | String a p', String b s' =>
      if Ascii.eqb a b then strip_prefix p' s' else None
  | String _ _, EmptyString => None
  end.

(** [s.includes(c)] for a one-character needle. *)
Fixpoint includes_char (c : ascii) (s : string) : bool :=
  match s with
  | EmptyString => false
  | String a s' => Ascii.eqb a c || includes_char c s'
  end.

(** ASCII part of [s.toLowerCase()]. *)
Definition lower_ascii (c : ascii) : ascii :=
  let n := nat_of_ascii c in
  if ((65 <=? n) && (n <=? 90))%nat then ascii_of_nat (n + 32) else c.

Fixpoint toLowerCase (s : string) : string :=
  match s with
  | EmptyString => EmptyString
  | String a s' => String (lower_ascii a) (toLowerCase s')
  end.

End Str.

(** ** Paths as Node's [path] module joins them (POSIX) *)

Module Path.

(** [path.split('/')] *)
Fixpoint split (path : string) : list string :=
  match path with
  | EmptyString => [EmptyString]
  | String c rest =>
      if Ascii.eqb c "/" then EmptyString :: split rest
      else match split rest with
           | seg :: segs => String c seg :: segs
           | [] => [String c EmptyString]
           end
  end.

(** [segments.join('/')] *)
Fixpoint unsplit (segments : list string) : string :=
  match segments with
  | [] => EmptyString
  | [seg] => seg
  | seg :: rest => seg +:+ "/" +:+ unsplit rest
  end.

(** One segment of [normalizeString]: [kept] holds the segments kept so
    far, the last one first.  An empty segment and [.] are dropped; [..]
    removes the segment before it, and is kept only where nothing is left
    to remove and the path is relative. *)
Definition step (allowAboveRoot : bool) (kept : list string) (seg : string)
  : list string :=
  if String.eqb seg "" || String.eqb seg "." then kept
  else if String.eqb seg ".." then
    match kept with
    | top :: below =>
        if String.eqb top ".."
        then (if allowAboveRoot then ".." :: kept else kept)
        else below
    | [] => if allowAboveRoot then [".."] else []
    end
  else seg :: kept.

Definition isAbsolute (path : string) : bool :=
  match path with
  | String c _ => Ascii.eqb c "/"
  | EmptyString => false
  end.

Fixpoint trailingSeparator (path : string) : bool :=
  match path with
  | EmptyString => false
  | String c EmptyString => Ascii.eqb c "/"
  | String _ rest => trailingSeparator rest
  end.

(** The segments [normalizeString] keeps, in the order of the path. *)
Definition normalizeString (path : string) (allowAboveRoot : bool)
  : list string :=
  reverse (foldl (step allowAboveRoot) [] (split path)).

(** [path.normalize(path)] *)
Definition normalize (path : string) : string :=
  if String.eqb path "" then "."
  else
    match normalizeString path (negb (isAbsolute path)) with
    | [] =>
        if isAbsolute path then "/"
        else if trailingSeparator path then "./" else "."
    | segments =>
        (if isAbsolute path then "/" else "")
        +:+ unsplit segments
        +:+ (if trailingSeparator path then "/" else "")
    end.

(** [path.join(a, b)]: the arguments that are not empty, joined by [/],
    then normalised. *)
Definition join (a b : string) : string :=
  normalize (if String.eqb a "" then b
             else if String.eqb b "" then a
             else a +:+ "/" +:+ b).

(** The last component of a path that does not end in [/]. *)
Definition basename (path : string) : string :=
  default EmptyString (last (split path)).

(** A name of one component, as a directory lists them. *)
Definition entry_name (n : string) : bool :=
  negb (String.eqb n "") && negb (Str.includes_char "/" n)
  && negb (String.eqb n ".") && negb (String.eqb n "..").

(** What [join dir n] puts before a name [n] of one component (lemma
    [join_entry_name]). *)
Definition dir_prefix (dir : string) : string :=
  (if isAbsolute dir then "/" else "")
  +:+ match normalizeString dir (negb (isAbsolute dir)) with
      | [] => EmptyString
      | segments => unsplit segments +:+ "/"
      end.

End Path.

(** [path.join(dir, name)] *)
Definition path_join (dir name : string) : string := Path.join dir name.

(** ** Data model *)

(** A file: its bytes and its last-modified time in milliseconds. *)
Record file := File { content : list byte; mtime : Z }.

(** What [fs.promises.stat] reports and the code reads. *)
Record Stats := MkStats { size : Z; mtimeMs : Z }.

Definition stats_of (f : file) : Stats :=
  {| size := Z.of_nat (length (content f)); mtimeMs := mtime f |}.

(** Values of the fields of a metadata object. *)
Inductive jsval := JStr (s : string) | JNum (n : Z).

Inductive exn :=
  | FsError (syscall path : string)
  | NetworkError (url : string)
  | PipelineError (path : string)
  | SyntaxError
  | ResolverError (status : Z)
  | InvalidStatusCode (code : Z)
  | NoSuchPromise (h : nat).

(** How the [pipeline] of the response stream into the write stream ends:
    all bytes written, or a failure (source error, timeout, disk write
    error) once [written] bytes have reached the file. *)
Inductive stream_outcome := StreamDone | StreamBroken (written : nat).

(** The part of an axios response the code reads. *)
Record upstream_response := {
  resp_headers : gmap string string;
  resp_data : list byte;
  resp_stream : stream_outcome }.

Inductive upstream_result :=
  | NetFail
  | NetResponse (r : upstream_response).

(** Observable operations, in the order they happen. *)
Inductive event :=
  | EvMkdir (path : string)
  | EvHttpGet (url : string) (headers : gmap string string)
  | EvWrite (path : string) (chunk : list byte)
  | EvRename (src dst : string)
  | EvWriteFile (path : string) (data : list byte)
  | EvUnlink (path : string)
  | EvResolve (id : string) (br level : option string).

(** The arguments of one call of [downloadAndCacheAudio] that started a
    fetch: what the async closure captured. *)
Record job := {
  job_base : string;
  job_url : string;
  job_headers : gmap string string;
  job_metadata : gmap string jsval }.

Inductive promise_state :=
  | Pending (j : job)
  | Fulfilled (path : string)
  | Rejected (e : exn).

Record world := World {
  files : gmap string file;
  dirs : gset string;
  clock : Z;
  inflightDownloads : gmap string nat;
  promises : list promise_state;
  trace : list event;
  (* the environment *)
  network : string -> upstream_result;
  mkdir_fails : bool;
  rename_fails : bool;
  writeFile_fails : bool;
  unlink_fails : bool;
  read_fault : option nat }.

Definition set_files (f : gmap string file -> gmap string file) (w : world) : world :=
  World (f (files w)) (dirs w) (clock w) (inflightDownloads w) (promises w)
    (trace w) (network w) (mkdir_fails w) (rename_fails w) (writeFile_fails w)
    (unlink_fails w) (read_fault w).

Definition set_dirs (f : gset string -> gset string) (w : world) : world :=
  World (files w) (f (dirs w)) (clock w) (inflightDownloads w) (promises w)
    (trace w) (network w) (mkdir_fails w) (rename_fails w) (writeFile_fails w)
    (unlink_fails w) (read_fault w).

Definition set_inflight (f : gmap string nat -> gmap string nat) (w : world) : world :=
  World (files w) (dirs w) (clock w) (f (inflightDownloads w)) (promises w)
    (trace w) (network w) (mkdir_fails w) (rename_fails w) (writeFile_fails w)
    (unlink_fails w) (read_fault w).

Definition set_promises (f : list promise_state -> list promise_state) (w : world) : world :=
  World (files w) (dirs w) (clock w) (inflightDownloads w) (f (promises w))
    (trace w) (network w) (mkdir_fails w) (rename_fails w) (writeFile_fails w)
    (unlink_fails w) (read_fault w).

Definition log (e : event) (w : world) : world :=
  World (files w) (dirs w) (clock w) (inflightDownloads w) (promises w)
    (trace w ++ [e]) (network w) (mkdir_fails w) (rename_fails w)
    (writeFile_fails w) (unlink_fails w) (read_fault w).

(** ** The monad of asynchronous code: state and exceptions *)

Inductive result (A : Type) :=
  | Ok (a : A)
  | Throw (e : exn).
Arguments Ok {A} a.
Arguments Throw {A} e.

Definition M (A : Type) : Type := world -> result A * world.

Definition ret {A} (a : A) : M A := fun w => (Ok a, w).

Definition throw {A} (e : exn) : M A := fun w => (Throw e, w).

Definition bind {A B} (c : M A) (k : A -> M B) : M B :=
  fun w => match c w with
           | (Ok a, w') => k a w'
           | (Throw e, w') => (Throw e, w')
           end.

(** [try { c } catch (e) { h e }] *)
Definition try_catch {A} (c : M A) (h : exn -> M A) : M A :=
  fun w => match c w with
           | (Ok a, w') => (Ok a, w')
           | (Throw e, w') => h e w'
           end.

Notation "'let*' x := c 'in' k" := (bind c (fun x => k))
  (at level 10, x name, c at level 100, k at level 200).
Notation "c >> k" := (bind c (fun _ => k))
  (at level 100, k at level 200, right associativity).

(** [Date.now()] *)
Definition Date_now : M Z := fun w => (Ok (clock w), w).

(** ** File system and network primitives *)

Module fs.

Definition mkdir (dir : string) : M unit := fun w =>
  if mkdir_fails w then (Throw (FsError "mkdir" dir), w)
  else (Ok tt, log (EvMkdir dir) (set_dirs (fun d => {[dir]} ∪ d) w)).

(** [fs.promises.unlink(p)]: it fails on a missing file, and on a file
    that is there when the environment refuses the removal. *)
Definition unlink (p : string) : M unit := fun w =>
  match files w !! p with
  | Some _ =>
      if unlink_fails w then (Throw (FsError "unlink" p), w)
      else (Ok tt, log (EvUnlink p) (set_files (delete p) w))
  | None => (Throw (FsError "unlink" p), w)
  end.

Definition stat (p : string) : M Stats := fun w =>
  match files w !! p with
  | Some f => (Ok (stats_of f), w)
  | None => (Throw (FsError "stat" p), w)
  end.

Definition readFile (p : string) : M (list byte) := fun w =>
  match files w !! p with
  | Some f => (Ok (content f), w)
  | None => (Throw (FsError "open" p), w)
  end.

Definition writeFile (p : string) (data : list byte) : M unit := fun w =>
  if writeFile_fails w then (Throw (FsError "write" p), w)
  else (Ok tt, log (EvWriteFile p data)
                 (set_files (insert p (File data (clock w))) w)).

Definition rename (src dst : string) : M unit := fun w =>
  if rename_fails w then (Throw (FsError "rename" src), w)
  else match files w !! src with
       | Some f => (Ok tt, log (EvRename src dst)
                             (set_files (fun m => <[dst := f]> (delete src m)) w))
       | None => (Throw (FsError "rename" src), w)
       end.

(** The name under which [dir] lists the file [path]: its last component
    [n], when [n] is a name of one component and [path.join(dir, n)] is
    [path]. *)
Definition entry_of (dir path : string) : option string :=
  let n := Path.basename path in
  if Path.entry_name n && String.eqb (path_join dir n) path then Some n
  else None.

(** The names listed for [dir]: its direct entries. *)
Definition children (dir : string) (m : gmap string file) : list string :=
  omap (fun kf : string * file => entry_of dir kf.1) (map_to_list m).

Definition readdir (dir : string) : M (list string) := fun w =>
  if decide (dir ∈ dirs w) then (Ok (children dir (files w)), w)
  else (Throw (FsError "scandir" dir), w).

End fs.

(** [axios.get(url, { responseType: 'stream', headers, timeout })]: a
    network error, a timeout or a non-2xx status is [NetFail]. *)
Definition axios_get (url : string) (headers : gmap string string)
  : M upstream_response := fun w =>
  let w' := log (EvHttpGet url headers) w in
  match network w url with
  | NetFail => (Throw (NetworkError url), w')
  | NetResponse r => (Ok r, w')
  end.

(** [pipeline(response.data, fs.createWriteStream(path))] *)
Definition pipeline_to_file (r : upstream_response) (p : string) : M unit := fun w =>
  match resp_stream r with
  | StreamDone =>
      (Ok tt, log (EvWrite p (resp_data r))
                (set_files (insert p (File (resp_data r) (clock w))) w))
  | StreamBroken k =>
      let chunk := take k (resp_data r) in
      (Throw (PipelineError p),
       log (EvWrite p chunk) (set_files (insert p (File chunk (clock w))) w))
  end.

(** [try { x = await c } catch { x = undefined }] *)
Definition attempt {A} (c : M A) : M (option A) :=
  try_catch (let* a := c in ret (Some a)) (fun _ => ret None).

(** [await Promise.allSettled([a, b])]: never rejects. *)
Definition allSettled2 {A B} (a : M A) (b : M B) : M unit := fun w =>
  let '(_, w1) := a w in
  let '(_, w2) := b w1 in
  (Ok tt, w2).

(** ** JavaScript values the handler inspects *)

(** The double-quote character, as a string. *)
Definition dquote : string := String (ascii_of_nat 34) EmptyString.

(** Truthiness of an optional string: [undefined] and the empty string
    are falsy. *)
Definition truthy (o : option string) : bool :=
  match o with
  | Some s => negb (String.eqb s EmptyString)
  | None => false
  end.

(** [a || b] on optional strings. *)
Definition js_or (a b : option string) : option string :=
  if truthy a then a else b.

Definition jsval_truthy (o : option jsval) : bool :=
  match o with
  | Some (JStr s) => negb (String.eqb s EmptyString)
  | Some (JNum n) => negb (n =? 0)
  | None => false
  end.

(** The integers that a JavaScript number holds exactly. *)
Definition safe_integer (n : Z) : bool :=
  (-9007199254740991 <=? n) && (n <=? 9007199254740991).

Definition jsval_safe (v : jsval) : bool :=
  match v with
  | JStr _ => true
  | JNum n => safe_integer n
  end.

(** [String(v)]; a number is written in decimal digits, as JavaScript
    writes the safe integers (from 1e21 on it writes an exponent). *)
Definition jsval_to_string (v : jsval) : string :=
  match v with
  | JStr s => s
  | JNum n => pretty n
  end.

(** [metadata?.key] *)
Definition meta_get (metadata : option (gmap string jsval)) (key : string)
  : option jsval :=
  match metadata with
  | Some m => m !! key
  | None => None
  end.

(** An element of the resolver's [data] array: [String(item.id)], [url],
    [type]. *)
Record song_item := {
  item_id : string;
  item_url : option string;
  item_type : option string }.

(** [body.data]: [None] when it is not an array. *)
Record resolver_body := { data : option (list song_item) }.

(** [moduleResponse]: [body] is [None] when it is falsy. *)
Record module_response := {
  status : Z;
  body : option resolver_body }.

Inductive resolver_outcome :=
  | ResolverRejects (e : exn)
  | ResolverReturns (r : module_response).

Record resolver_query := {
  q_id : string;
  q_br : option string;
  q_level : option string;
  q_cookie : gmap string string }.

Record request := {
  params_id : string;
  query_br : option string;
  query_level : option string;
  cookies : gmap string string }.

(** ** The HTTP response object *)

Inductive json_body :=
  | CodeMsg (code : Z) (msg : string)
  | CodeOnly (code : Z)
  | ResolverBody (b : resolver_body).

Inductive res_body :=
  | NoBody
  | JsonBody (j : json_body)
  | BytesBody (b : list byte).

Record response := Response {
  statusCode : Z;
  headers : list (string * string);
  headersSent : bool;
  res_payload : res_body;
  finished : bool;
  destroyed : bool }.

Module res.

Definition fresh : response := Response 200 [] false NoBody false false.


(** [res.setHeader(name, value)] for a value that Node takes. *)
Definition setHeader (name value : string) (r : response) : response :=
  Response (statusCode r)
    (filter (fun h : string * string => h.1 ≠ name) (headers r) ++ [(name, value)])
    (headersSent r) (res_payload r) (finished r) (destroyed r).

(** [res.status(code).json(j)] for one of the status codes the code
    writes out: 400, 403, 404 and 500. *)
Definition status_json (code : Z) (j : json_body) (r : response) : response :=
  Response code (headers r) true (JsonBody j) true (destroyed r).

(** The status codes Node's [writeHead] accepts. *)
Definition valid_status (code : Z) : bool :=
  (100 <=? code) && (code <=? 999).

(** The status codes whose answer goes out without a body: [1xx], [204]
    and [304] in Node, [205] in Express from 4.18 on. *)
Definition bodiless (code : Z) : bool :=
  (code <? 200) || (code =? 204) || (code =? 205) || (code =? 304).

(** [res.status(code).send(j)] for an object [j] and a status taken from
    data: a status outside 100..999 makes [send] throw before anything is
    sent; a bodiless status drops [j]. *)
Definition status_send (code : Z) (j : json_body) (r : response)
  : result response :=
  if valid_status code then
    Ok (if bodiless code
        then Response code (headers r) true NoBody true (destroyed r)
        else status_json code j r)
  else Throw (InvalidStatusCode code).

(** [res.destroy(err)] *)
Definition destroy (r : response) : response :=
  Response (statusCode r) (headers r) (headersSent r) (res_payload r)
    (finished r) true.

(** A chunk piped into the response: the first one sends the headers. *)
Definition write (chunk : list byte) (r : response) : response :=
  match chunk with
  | [] => r
  | _ =>
      Response (statusCode r) (headers r) true
        (match res_payload r with
         | BytesBody b => BytesBody (b ++ chunk)
         | _ => BytesBody chunk
         end)
        (finished r) (destroyed r)
  end.

(** End of the piped stream. *)
Definition end_ (r : response) : response :=
  Response (statusCode r) (headers r) true
    (match res_payload r with NoBody => BytesBody [] | p => p end)
    true (destroyed r).

End res.

(** ** More of JavaScript's strings *)

Module JsString.

(** The ASCII part of JavaScript's white space and line terminators. *)
Definition is_ws (c : ascii) : bool :=
  let n := nat_of_ascii c in
  ((9 <=? n) && (n <=? 13))%nat || (n =? 32)%nat.

Fixpoint trimStart (s : string) : string :=
  match s with
  | EmptyString => EmptyString
  | String c s' => if is_ws c then trimStart s' else s
  end.

Fixpoint trimEnd (s : string) : string :=
  match s with
  | EmptyString => EmptyString
  | String c s' =>
      match trimEnd s' with
      | EmptyString => if is_ws c then EmptyString else String c EmptyString
      | t => String c t
      end
  end.

(** [s.trim()] *)
Definition trim (s : string) : string := trimEnd (trimStart s).

(** [s.split(sep)[0]] for a one-character separator. *)
Fixpoint before_char (sep : ascii) (s : string) : string :=
  match s with
  | EmptyString => EmptyString
  | String c s' => if Ascii.eqb c sep then EmptyString
                   else String c (before_char sep s')
  end.

(** [s.indexOf(c)], [None] for -1. *)
Fixpoint indexOf (c : ascii) (s : string) : option nat :=
  match s with
  | EmptyString => None
  | String a s' => if Ascii.eqb a c then Some 0%nat else S <$> indexOf c s'
  end.

(** [s.lastIndexOf(c)], [None] for -1. *)
Fixpoint lastIndexOf (c : ascii) (s : string) : option nat :=
  match s with
  | EmptyString => None
  | String a s' =>
      match lastIndexOf c s' with
      | Some i => Some (S i)
      | None => if Ascii.eqb a c then Some 0%nat else None
      end
  end.

(** [s.slice(start, end)] for integers of either sign. *)
Definition slice (s : string) (start stop : Z) : string :=
  let len := Z.of_nat (String.length s) in
  let from := if start <? 0 then Z.max (len + start) 0 else Z.min start len in
  let to := if stop <? 0 then Z.max (len + stop) 0 else Z.min stop len in
  substring (Z.to_nat from) (Z.to_nat (to - from)) s.

(** [s.replace(/c/g, d)] for characters [c], [d]. *)
Fixpoint replace_char (c d : ascii) (s : string) : string :=
  match s with
  | EmptyString => EmptyString
  | String a s' =>
      String (if Ascii.eqb a c then d else a) (replace_char c d s')
  end.

(** [parts.join(sep)] *)
Fixpoint join (sep : string) (parts : list string) : string :=
  match parts with
  | [] => EmptyString
  | [p] => p
  | p :: rest => p +:+ sep +:+ join sep rest
  end.

End JsString.

(** ** The client address passed upstream *)

Module ClientIp.

(** A request header as Node gives it: a string, or an array of strings. *)
Inductive header_value :=
  | HStr (s : string)
  | HArr (l : list string).

(** The parts of [req] that the address is taken from. *)
Record ip_request := {
  x_forwarded_for : option header_value;
  x_real_ip : option header_value;
  ip : option string }.

(** Truthiness: [undefined] and the empty string are falsy, every array is
    truthy. *)
Definition header_truthy (o : option header_value) : bool :=
  match o with
  | Some (HStr s) => negb (String.eqb s EmptyString)
  | Some (HArr _) => true
  | None => false
  end.

(** [req.headers['x-forwarded-for'] || req.headers['x-real-ip'] || req.ip
    || ''] *)
Definition forwarded (req : ip_request) : header_value :=
  if header_truthy (x_forwarded_for req) then
    default (HStr EmptyString) (x_forwarded_for req)
  else if header_truthy (x_real_ip req) then
    default (HStr EmptyString) (x_real_ip req)
  else if truthy (ip req) then HStr (default EmptyString (ip req))
  else HStr EmptyString.

(** [resolveClientIp(req)]; [cnIp] is [global.cnIp].  The result is [None]
    when the code returns [undefined]. *)
Definition resolveClientIp (cnIp : option string) (req : ip_request)
  : option string :=
  let first :=
    match forwarded req with
    | HArr l => head l
    | HStr s => Some s
    end in
  if negb (truthy first) then ip req
  else
    let ip0 := default EmptyString first in
    let ip1 :=
      if Str.includes_char "," ip0
      then JsString.trim (JsString.before_char "," ip0)
      else ip0 in
    match Str.strip_prefix "::ffff:" ip1 with
    | Some rest => Some rest
    | None => if String.eqb ip1 "::1" then cnIp else Some ip1
    end.

(** The address the module routes pass upstream, from [req.ip] alone. *)
Definition module_route_ip (cnIp : option string) (req_ip : string)
  : option string :=
  let ip1 :=
    if String.eqb (substring 0 7 req_ip) "::ffff:"
    then substring 7 (String.length req_ip - 7) req_ip
    else req_ip in
  if String.eqb ip1 "::1" then cnIp else Some ip1.

End ClientIp.

(** ** The module table *)

Module ModuleDefs.

(** [fileName.replace(/\.js$/i, '')] *)
Definition strip_js (fileName : string) : string :=
  let n := String.length fileName in
  if (3 <=? n)%nat
     && String.eqb (Str.toLowerCase (substring (n - 3) 3 fileName)) ".js"
  then substring 0 (n - 3) fileName
  else fileName.

(** [parseRoute(fileName)] *)
Definition parseRoute (specificRoute : option (gmap string string))
    (fileName : string) : string :=
  match specificRoute ≫= (fun routes => routes !! fileName) with
  | Some route => route
  | None => "/" +:+ JsString.replace_char "_" "/" (strip_js fileName)
  end.

(** What [module] holds: the required module, or its path. *)
Inductive loaded (Mod : Type) :=
  | Required (m : Mod)
  | PathOnly (modulePath : string).
Arguments Required {Mod} m.
Arguments PathOnly {Mod} modulePath.

Record module_definition (Mod : Type) := {
  identifier : string;
  route : string;
  module : loaded Mod }.
Arguments identifier {Mod} _.
Arguments route {Mod} _.
Arguments module {Mod} _.

(** [getModulesDefinitions(modulesPath, specificRoute, doRequire)] on the
    listing [files] of [modulesPath]; [pathJoin] is Node's [path.join] and
    [require] its module loader. *)
Definition getModulesDefinitions {Mod : Type} (require : string -> Mod)
    (pathJoin : string -> string -> string)
    (files : list string) (modulesPath : string)
    (specificRoute : option (gmap string string)) (doRequire : bool)
  : list (module_definition Mod) :=
  (fun file =>
     let modulePath := pathJoin modulesPath file in
     {| identifier := JsString.before_char "." file;
        route := parseRoute specificRoute file;
        module := if doRequire then Required (require modulePath)
                  else PathOnly modulePath |})
  <$> filter (fun file => Str.endsWith file ".js" = true) (reverse files).

(** The [special] routes of [consturctServer]. *)
Definition special : gmap string string :=
  {[ "daily_signin.js" := "/daily_signin";
     "fm_trash.js" := "/fm_trash";
     "personal_fm.js" := "/personal_fm" ]}.

End ModuleDefs.

(** ** The version check *)

Module Version.

Inductive VERSION_CHECK_RESULT := FAILED | NOT_LATEST | LATEST.

Record VersionCheckResult := {
  status : VERSION_CHECK_RESULT;
  ourVersion : option string;
  npmVersion : option string }.

(** [checkVersion()], given [packageJSON.version] and what [exec] hands to
    its callback: an error or not, and the standard output. *)
Definition checkVersion (packageVersion : string) (err : bool)
    (stdout : string) : VersionCheckResult :=
  if negb err then
    let version := JsString.trim stdout in
    {| status := if String.ltb packageVersion version
                 then NOT_LATEST else LATEST;
       ourVersion := Some packageVersion;
       npmVersion := Some version |}
  else {| status := FAILED; ourVersion := None; npmVersion := None |}.

End Version.


(** ** Requests to the Bilibili API *)

Module Bili.

(** *** The WBI signature *)

Definition mixinKeyEncTab : list nat :=
  [46; 47; 18; 2; 53; 8; 23; 32; 15; 50; 10; 31; 58; 3; 45; 35; 27; 43; 5; 49;
   33; 9; 42; 19; 29; 28; 14; 39; 12; 38; 41; 13; 37; 48; 7; 16; 24; 55; 40; 61;
   26; 17; 0; 1; 60; 51; 30; 4; 22; 25; 54; 21; 56; 59; 6; 63; 57; 62; 11; 36;
   20; 34; 44; 52]%nat.

(** [orig[n]] as [join] sees it: the character, or nothing past the end. *)
Definition char_at (orig : string) (n : nat) : string :=
  match String.get n orig with
  | Some c => String c EmptyString
  | None => EmptyString
  end.

Definition getMixinKey (orig : string) : string :=
  JsString.slice
    (JsString.join EmptyString (char_at orig <$> mixinKeyEncTab)) 0 32.

(** The characters [encodeURIComponent] leaves as they are. *)
Definition unreserved (c : ascii) : bool :=
  let n := nat_of_ascii c in
  ((65 <=? n) && (n <=? 90))%nat || ((97 <=? n) && (n <=? 122))%nat
  || ((48 <=? n) && (n <=? 57))%nat || Str.includes_char c "-_.!~*'()".

Definition hex_digit (n : nat) : ascii :=
  ascii_of_nat (if (n <? 10)%nat then 48 + n else 55 + n).

(** [encodeURIComponent(s)] on the UTF-8 bytes of [s]. *)
Fixpoint encodeURIComponent (s : string) : string :=
  match s with
  | EmptyString => EmptyString
  | String c s' =>
      if unreserved c then String c (encodeURIComponent s')
      else
        let n := nat_of_ascii c in
        String "%" (String (hex_digit (n / 16)) (String (hex_digit (n mod 16))
          (encodeURIComponent s')))
  end.

(** [s.replace(/[!'()*]/g, '')] *)
Fixpoint chr_filter (s : string) : string :=
  match s with
  | EmptyString => EmptyString
  | String c s' =>
      if Str.includes_char c "!'()*" then chr_filter s'
      else String c (chr_filter s')
  end.

(** [keys.sort()]: ascending in the order of [<] on strings. *)
Fixpoint insert_sorted (k : string) (l : list string) : list string :=
  match l with
  | [] => [k]
  | x :: l' => if String.leb k x then k :: l else x :: insert_sorted k l'
  end.

Definition sort_strings (l : list string) : list string :=
  foldr insert_sorted [] l.

(** [Math.round(Date.now() / 1000)] *)
Definition curr_time (now : Z) : Z := (now + 500) / 1000.

(** The [query] of [encWbi], from the parameters with [wts] assigned. *)
Definition wbi_query (params : gmap string jsval) : string :=
  JsString.join "&"
    ((fun key =>
        let value :=
          chr_filter
            (default EmptyString (jsval_to_string <$> params !! key)) in
        encodeURIComponent key +:+ "=" +:+ encodeURIComponent value)
     <$> sort_strings (map_to_list params).*1).

(** [encWbi(params, img_key, sub_key)] at time [now]; the [params] object of
    the caller receives [wts] as well. *)
Definition encWbi (md5 : string -> string) (params : gmap string jsval)
    (img_key sub_key : string) (now : Z) : string :=
  let mixin_key := getMixinKey (img_key +:+ sub_key) in
  let params := <["wts" := JNum (curr_time now)]> params in
  let query := wbi_query params in
  let wbi_sign := md5 (query +:+ mixin_key) in
  query +:+ "&w_rid=" +:+ wbi_sign.

(** *** Reading a query string back: [new URLSearchParams(s)] *)

Definition hex_val (c : ascii) : option nat :=
  let n := nat_of_ascii c in
  if ((48 <=? n) && (n <=? 57))%nat then Some (n - 48)%nat
  else if ((65 <=? n) && (n <=? 70))%nat then Some (n - 55)%nat
  else if ((97 <=? n) && (n <=? 102))%nat then Some (n - 87)%nat
  else None.

Fixpoint percent_decode (s : string) : string :=
  match s with
  | EmptyString => EmptyString
  | String c s1 =>
      let plain := String c (percent_decode s1) in
      if Ascii.eqb c "%" then
        match s1 with
        | String h (String l rest) =>
            match hex_val h, hex_val l with
            | Some a, Some b =>
                String (ascii_of_nat (16 * a + b)) (percent_decode rest)
            | _, _ => plain
            end
        | _ => plain
        end
      else plain
  end.

(** [s.split(sep)] for a one-character separator. *)
Fixpoint split_char (sep : ascii) (s : string) : list string :=
  match s with
  | EmptyString => [EmptyString]
  | String c s' =>
      if Ascii.eqb c sep then EmptyString :: split_char sep s'
      else
        match split_char sep s' with
        | h :: t => String c h :: t
        | [] => [String c EmptyString]
        end
  end.

(** What follows the first [sep], if there is one. *)
Fixpoint after_char (sep : ascii) (s : string) : option string :=
  match s with
  | EmptyString => None
  | String c s' => if Ascii.eqb c sep then Some s' else after_char sep s'
  end.

Definition form_decode (s : string) : string :=
  percent_decode (JsString.replace_char "+" " " s).

(** The entries of [new URLSearchParams(init)]. *)
Definition URLSearchParams (init : string) : list (string * string) :=
  let init := default init (Str.strip_prefix "?" init) in
  (fun pair =>
     (form_decode (JsString.before_char "=" pair),
      form_decode (default EmptyString (after_char "=" pair))))
  <$> filter (fun pair => pair <> EmptyString) (split_char "&" init).

(** [for (const [key, value] of entries) queryParams[key] = value] on
    the object literal [{}]: the assignment to the key [__proto__] reaches
    the setter of [Object.prototype], which ignores a string, and adds no
    property. *)
Definition assign_entries (entries : list (string * string))
  : gmap string jsval :=
  foldl (fun queryParams '(key, value) =>
           if String.eqb key "__proto__" then queryParams
           else <[key := JStr value]> queryParams)
    ∅ entries.

(** *** The key cache *)

Record wbi_keys := WbiKeys { img_key : string; sub_key : string }.

Record cache_state := Cache {
  buvid : option string;
  wbiKeys : option wbi_keys;
  lastWbiKeysFetchTime : Z }.

(** The module's [cache] when it is loaded. *)
Definition initial_cache : cache_state :=
  Cache (Some EmptyString) None 0.

(** How the request to [/x/web-interface/nav] ends: it fails (or the
    answer lacks [data.wbi_img]), or it carries the two URLs. *)
Inductive nav_outcome :=
  | NavFails
  | NavUrls (img_url sub_url : string).

(** How the request to [/x/web-frontend/getbuvid] ends; [BuvidIs None] is
    an answer whose [data.buvid] is undefined. *)
Inductive buvid_outcome :=
  | BuvidFails
  | BuvidIs (v : option string).

Inductive api_error :=
  | ErrResponse (status : Z) (statusText data : string)
  | ErrMessage (message : string).

(** How the request to the API ends; the body is kept as text. *)
Inductive api_outcome :=
  | ApiData (data : string)
  | ApiFails (e : api_error).

Record api_request := ApiRequest {
  req_method : string;
  req_url : string;
  req_params : gmap string jsval;
  req_headers : gmap string string }.

Inductive sent :=
  | SentNav
  | SentBuvid
  | SentApi (r : api_request).

(** The cache, the clock, what the network would answer, and the requests
    sent so far, oldest first. *)
Record state := State {
  cache : cache_state;
  now : Z;
  nav : nav_outcome;
  getbuvid : buvid_outcome;
  api : api_request -> api_outcome;
  requests : list sent }.

Definition send (r : sent) (s : state) : state :=
  State (cache s) (now s) (nav s) (getbuvid s) (api s) (requests s ++ [r]).

Definition set_cache (c : cache_state) (s : state) : state :=
  State c (now s) (nav s) (getbuvid s) (api s) (requests s).

(** [s.lastIndexOf(c)] as a number. *)
Definition lastIndexOf (c : ascii) (s : string) : Z :=
  match JsString.lastIndexOf c s with
  | Some i => Z.of_nat i
  | None => -1
  end.

(** [url.slice(url.lastIndexOf('/') + 1, url.lastIndexOf('.'))] *)
Definition key_of_url (url : string) : string :=
  JsString.slice url (lastIndexOf "/" url + 1) (lastIndexOf "." url).

(** [getWbiKeys()]: [None] when it throws. *)
Definition getWbiKeys (s : state) : option wbi_keys * state :=
  let fetch :=
    let s1 := send SentNav s in
    match nav s with
    | NavUrls img_url sub_url =>
        let keys := WbiKeys (key_of_url img_url) (key_of_url sub_url) in
        (Some keys, set_cache (Cache (buvid (cache s)) (Some keys) (now s)) s1)
    | NavFails => (None, s1)
    end in
  match wbiKeys (cache s) with
  | Some keys =>
      if now s - lastWbiKeysFetchTime (cache s) <? 30 * 60 * 1000
      then (Some keys, s)
      else fetch
  | None => fetch
  end.

(** *** [biliRequest] *)

Record options := Options {
  url : string;
  params : gmap string jsval;
  useWbi : bool;
  method : string;
  headers : gmap string string;
  cookie : string;
  needBuvid : bool;
  useCachedBuvid : bool }.

(** The options that only name a URL, with every default. *)
Definition default_options (url : string) : options :=
  Options url ∅ false "GET" ∅ EmptyString true true.

Definition defaultHeaders : gmap string string :=
  {[ "User-Agent" :=
       "Mozilla/5.0 (Windows NT 10.0; Win64; x64) AppleWebKit/537.36 (KHTML, like Gecko) Chrome/58.0.3029.110 Safari/537.3";
     "Referer" := "https://www.bilibili.com/" ]}.

Inductive failure :=
  | WbiError
  | RequestError (e : api_error).

(** What [biliRequest] resolves to: the body of the answer, or
    [{ code, message, error }]. *)
Inductive bili_result :=
  | Data (data : string)
  | Failed (code : Z) (message : string) (error : failure).

Definition nonempty (s : string) : bool := negb (String.eqb s EmptyString).

(** The [if (needBuvid) ... else if (cookie) ...] statement: the headers to
    send and the state afterwards. *)
Definition buvid_step (o : options) (requestHeaders : gmap string string)
    (s : state) : gmap string string * state :=
  let with_cookie :=
    if nonempty (cookie o) then <["Cookie" := cookie o]> requestHeaders
    else requestHeaders in
  if needBuvid o then
    let '(got, s) :=
      if useCachedBuvid o && truthy (buvid (cache s))
      then (Some (buvid (cache s)), s)
      else
        let s1 := send SentBuvid s in
        match getbuvid s with
        | BuvidIs v =>
            (Some v,
             set_cache (Cache v (wbiKeys (cache s))
                          (lastWbiKeysFetchTime (cache s))) s1)
        | BuvidFails => (None, s1)
        end in
    match got with
    | Some v =>
        if truthy v then
          let b := default EmptyString v in
          let cookieValue :=
            if nonempty (cookie o) then cookie o +:+ "; buvid3=" +:+ b
            else "buvid3=" +:+ b in
          (<["Cookie" := cookieValue]> requestHeaders, s)
        else (with_cookie, s)
    | None => (with_cookie, s)
    end
  else (with_cookie, s).

Definition biliRequest (md5 : string -> string) (o : options) (s : state)
  : bili_result * state :=
  let requestHeaders := headers o ∪ defaultHeaders in
  let '(requestHeaders, s) := buvid_step o requestHeaders s in
  let signed :=
    if useWbi o then
      match getWbiKeys s with
      | (Some wbiKeys, s) =>
          let wbiQueryString :=
            encWbi md5 (params o) (img_key wbiKeys) (sub_key wbiKeys) (now s) in
          (Some (assign_entries (URLSearchParams wbiQueryString)), s)
      | (None, s) => (None, s)
      end
    else (Some (params o), s) in
  match signed with
  | (None, s) => (Failed (-1) "WBI签名失败" WbiError, s)
  | (Some queryParams, s) =>
      let r := ApiRequest (method o) (url o) queryParams requestHeaders in
      let s1 := send (SentApi r) s in
      match api s r with
      | ApiData data => (Data data, s1)
      | ApiFails e => (Failed (-1) "请求失败" (RequestError e), s1)
      end
  end.

(** *** Definitions used to state the properties *)

(** The requests sent from state [s] to state [s']. *)
Definition sent_between (s s' : state) : list sent :=
  drop (length (requests s)) (requests s').

(** The characters that structure a query string: none of them comes out
    of [encodeURIComponent]. *)
Definition structural (d : ascii) : Prop :=
  unreserved d = false /\ hex_val d = None /\ d <> "%"%char.

(** One [key=value] component of a query. *)
Definition component (kv : string * string) : string :=
  encodeURIComponent kv.1 +:+ "=" +:+ encodeURIComponent kv.2.

End Bili.

(** ** The routes of the Bilibili API *)

Module BiliApi.







Inductive payload :=
  | CodeMessage (code : Z) (message : string)
  | Result (result : Bili.bili_result)
  | Processed (processedResult : string).






End BiliApi.

(** The payload that would forward a resolver body as it is. *)
Definition forwarded_payload (b : option resolver_body) : res_body :=
  match b with
  | Some b => JsonBody (ResolverBody b)
  | None => NoBody
  end.

(** ** Sample inputs *)

Module Sample.

Definition no_network : string -> upstream_result := fun _ => NetFail.

Definition parse_fails : list byte -> option (option (gmap string jsval)) :=
  fun _ => None.

Definition stringify : gmap string jsval -> list byte := fun _ => [].

Definition resolver_rejects : resolver_query -> resolver_outcome :=
  fun _ => ResolverRejects (ResolverError 502).

Definition audio : list byte := [x01; x02; x03]%byte.

Definition req7 : request :=
  {| params_id := "7"; query_br := None; query_level := None; cookies := ∅ |}.

(** Nothing on disk, nothing in flight, no fault. *)
Definition empty_world : world :=
  World ∅ ∅ 1000 ∅ [] [] no_network false false false false None.

(** One blob of three bytes for key [7_default], written at time 0, and no
    metadata file. *)
Definition blob_world : world :=
  World {[ "cache/7_default.bin" := File audio 0 ]} {[ "cache" ]} 1000 ∅ [] []
    no_network false false false false None.


Definition job7 : job :=
  {| job_base := "cache/7_default"; job_url := "http://cdn/7.mp3";
     job_headers := ∅; job_metadata := ∅ |}.

(** One fetch for key [7_default] in flight. *)
Definition pending_world : world :=
  World ∅ ∅ 1000 {[ "cache/7_default" := 0%nat ]} [Pending job7] []
    no_network false false false false None.

(** The blob of [blob_world], seen 5000 seconds after it was written. *)
Definition old_blob_world : world :=
  World {[ "cache/7_default.bin" := File audio 0 ]} {[ "cache" ]} 5000000 ∅ []
    [] no_network false false false false None.

Definition resolver_500_no_body : resolver_query -> resolver_outcome :=
  fun _ => ResolverReturns {| status := 500; body := None |}.

Definition item99 : song_item :=
  {| item_id := "99"; item_url := Some "http://cdn/99.mp3";
     item_type := Some "MP3" |}.

(** A resolver that answers every query with the one item [99]. *)
Definition resolver_item99 : resolver_query -> resolver_outcome :=
  fun _ => ResolverReturns
             {| status := 200; body := Some {| data := Some [item99] |} |}.

Definition audio_response : upstream_response :=
  {| resp_headers := ∅; resp_data := audio; resp_stream := StreamDone |}.

Definition net_world : world :=
  World ∅ ∅ 1000 ∅ [] [] (fun _ => NetResponse audio_response)
    false false false false None.

(** One byte more than a mebibyte. *)
Definition big_audio : list byte := replicate (Z.to_nat 1048577) x00.

Definition big_response : upstream_response :=
  {| resp_headers := ∅; resp_data := big_audio; resp_stream := StreamDone |}.

Definition big_net_world : world :=
  World ∅ ∅ 1000 ∅ [] [] (fun _ => NetResponse big_response)
    false false false false None.

(** One blob of a byte more than a mebibyte. *)
Definition big_blob_world : world :=
  World {[ "cache/7_default.bin" := File big_audio 0 ]} {[ "cache" ]} 1000 ∅ []
    [] no_network false false false false None.



Definition locked_big_net_world : world :=
  World ∅ ∅ 1000 ∅ [] [] (fun _ => NetResponse big_response)
    false false false true None.

(** A request whose id leads out of the cache directory. *)
Definition req_up : request :=
  {| params_id := "../7"; query_br := None; query_level := None;
     cookies := ∅ |}.




Definition resolver_1000 : resolver_query -> resolver_outcome :=
  fun _ => ResolverReturns {| status := 1000; body := None |}.

Definition resolver_204 : resolver_query -> resolver_outcome :=
  fun _ => ResolverReturns
             {| status := 204; body := Some {| data := Some [item99] |} |}.

(** A blob of a byte more than a mebibyte next to a temporary file, a
    metadata file without blob, a blob in a directory below the cache
    directory and a blob elsewhere. *)
Definition mixed_world : world :=
  World (<[ "cache/7_default.bin" := File big_audio 0 ]>
         (<[ "cache/8_default.tmp" := File audio 0 ]>
         (<[ "cache/9_default.json" := File [] 0 ]>
         (<[ "cache/sub/5_default.bin" := File big_audio 0 ]>
         {[ "elsewhere/6_default.bin" := File big_audio 0 ]}))))
    {[ "cache" ]} 1000 ∅ [] [] no_network false false false false None.

(** An upstream body that breaks off after two bytes. *)
Definition broken_response : upstream_response :=
  {| resp_headers := ∅; resp_data := audio; resp_stream := StreamBroken 2 |}.

Definition broken_net_world : world :=
  World ∅ ∅ 1000 ∅ [] [] (fun _ => NetResponse broken_response)
    false false false false None.


(** A serialisation of metadata objects that can be read back: the object
    is numbered, and the binary digits of the number are written one per
    byte. *)
#[global] Instance jsval_eq_dec : EqDecision jsval.
Proof. solve_decision. Defined.

#[global] Instance jsval_countable : Countable jsval.
Proof.
  refine (inj_countable'
            (fun v => match v with JStr s => inl s | JNum n => inr n end)
            (fun x => match x with inl s => JStr s | inr n => JNum n end) _).
  by intros [].
Defined.





(** A digest that ignores its input. *)
Definition md5 : string -> string :=
  fun _ => "d41d8cd98f00b204e9800998ecf8427e".

Definition long_key : string :=
  "7cd084941338484aae1ad9425b84077c4932caff0ff746eab6f01bf08b70ac45".

(** A freshly loaded module with the network answering. *)
Definition bili_state : Bili.state :=
  Bili.State Bili.initial_cache 1000
    (Bili.NavUrls
       "https://i0.hdslb.com/bfs/wbi/7cd084941338484aae1ad9425b84077c.png"
       "https://i0.hdslb.com/bfs/wbi/4932caff0ff746eab6f01bf08b70ac45.png")
    (Bili.BuvidIs (Some "B1")) (fun _ => Bili.ApiData "{}") [].

(** A freshly loaded module with every request failing. *)
Definition bili_state_offline : Bili.state :=
  Bili.State Bili.initial_cache 1000 Bili.NavFails Bili.BuvidFails
    (fun _ => Bili.ApiFails (Bili.ErrMessage "timeout")) [].

Definition cookie_options : Bili.options :=
  Bili.Options "https://api.bilibili.com/x/web-interface/popular" ∅ false
    "GET" ∅ "SESSDATA=abc" true true.

Definition signed_options : Bili.options :=
  Bili.Options "https://api.bilibili.com/x/web-interface/wbi/view"
    {[ "bvid" := JStr "BV1xx411c7mD" ]} true "GET" ∅ EmptyString true true.


End Sample.

(** ** The cache *)

(** An element of [audioEntries] in [enforceCacheSizeLimit]. *)
Record audio_entry := {
  base : string;
  entry_size : Z;
  entry_mtimeMs : Z }.

(** [audioEntries.sort((a, b) => a.mtimeMs - b.mtimeMs)]: ascending and
    stable. *)
Fixpoint insert_by_mtime (e : audio_entry) (l : list audio_entry)
  : list audio_entry :=
  match l with
  | [] => [e]
  | x :: l' =>
      if entry_mtimeMs e <=? entry_mtimeMs x then e :: l
      else x :: insert_by_mtime e l'
  end.

Definition sort_by_mtime (l : list audio_entry) : list audio_entry :=
  foldr insert_by_mtime [] l.

(** [audioEntries.reduce((acc, item) => acc + item.size, 0)] *)
Definition total_size (l : list audio_entry) : Z :=
  foldl (fun acc item => acc + entry_size item) 0 l.

Section AudioCache.

(** Configuration read from the environment when the module loads. *)
Variable AUDIO_CACHE_DIR : string.
Variable AUDIO_CACHE_TTL_SECONDS : Z.
Variable AUDIO_CACHE_MAX_SIZE_MB : Z.

(** [JSON.parse]: [None] when it throws, [Some None] for [null]. *)
Variable JSON_parse : list byte -> option (option (gmap string jsval)).
Variable JSON_stringify : gmap string jsval -> list byte.

(** The resolver, [require('./module/song_url')]. *)
Variable songUrlModule : resolver_query -> resolver_outcome.

Definition AUDIO_CACHE_TTL_MS : Z :=
  if 0 <? AUDIO_CACHE_TTL_SECONDS then AUDIO_CACHE_TTL_SECONDS * 1000 else 0.

Definition AUDIO_CACHE_MAX_BYTES : Z :=
  if 0 <? AUDIO_CACHE_MAX_SIZE_MB then AUDIO_CACHE_MAX_SIZE_MB * 1024 * 1024
  else 0.

Definition ensureCacheDir : M unit := fs.mkdir AUDIO_CACHE_DIR.

Definition removeCacheEntry (basePath : string) : M unit :=
  let audioPath := basePath +:+ ".bin" in
  let metaPath := basePath +:+ ".json" in
  allSettled2 (fs.unlink audioPath) (fs.unlink metaPath).

Record cache_status := { valid : bool; reason : option string }.

Definition getCacheStatus (audioPath : string) : M cache_status :=
  try_catch
    (let* stat := fs.stat audioPath in
     let* now := Date_now in
     if (0 <? AUDIO_CACHE_TTL_MS) && (AUDIO_CACHE_TTL_MS <? now - mtimeMs stat)
     then ret {| valid := false; reason := Some "expired" |}
     else ret {| valid := true; reason := None |})
    (fun _ => ret {| valid := false; reason := Some "missing" |}).

Definition readCacheMetadata (metaPath : string)
  : M (option (gmap string jsval)) :=
  try_catch
    (let* raw := fs.readFile metaPath in
     match JSON_parse raw with
     | Some v => ret v
     | None => throw SyntaxError
     end)
    (fun _ => ret None).

Definition writeCacheMetadata (metaPath : string) (metadata : gmap string jsval)
  : M unit :=
  fs.writeFile metaPath (JSON_stringify metadata).

(** The [for (const entry of entries)] loop. *)
Fixpoint collect_audio_entries (entries : list string)
    (audioEntries : list audio_entry) : M (list audio_entry) :=
  match entries with
  | [] => ret audioEntries
  | entry :: rest =>
      if negb (Str.endsWith entry ".bin") then
        collect_audio_entries rest audioEntries
      else
        let fullPath := path_join AUDIO_CACHE_DIR entry in
        let* stat := attempt (fs.stat fullPath) in
        match stat with
        | Some stat =>
            collect_audio_entries rest
              (audioEntries ++ [{| base := Str.slice_end fullPath 4;
                                   entry_size := size stat;
                                   entry_mtimeMs := mtimeMs stat |}])
        | None => collect_audio_entries rest audioEntries
        end
  end.

(** The [while (totalSize > AUDIO_CACHE_MAX_BYTES && audioEntries.length)]
    loop. *)
Fixpoint evict_loop (totalSize : Z) (audioEntries : list audio_entry) : M unit :=
  match audioEntries with
  | [] => ret tt
  | entry :: rest =>
      if AUDIO_CACHE_MAX_BYTES <? totalSize then
        removeCacheEntry (base entry) >>
        evict_loop (totalSize - entry_size entry) rest
      else ret tt
  end.

Definition enforceCacheSizeLimit : M unit :=
  if AUDIO_CACHE_MAX_BYTES =? 0 then ret tt
  else
    let* entries := attempt (fs.readdir AUDIO_CACHE_DIR) in
    match entries with
    | None => ret tt
    | Some entries =>
        let* audioEntries := collect_audio_entries entries [] in
        let audioEntries := sort_by_mtime audioEntries in
        let totalSize := total_size audioEntries in
        evict_loop totalSize audioEntries
    end.

(** The ['error'] listener of the read stream. *)
Definition on_read_error (r : response) : response :=
  if negb (headersSent r) then
    res.status_json 500 (CodeMsg 500 "Cache read error") r
  else res.destroy r.

Definition set_header_if (metadata : option (gmap string jsval))
    (key name : string) (fmt : string -> string) (r : response) : response :=
  if jsval_truthy (meta_get metadata key) then
    match meta_get metadata key with
    | Some v => res.setHeader name (fmt (jsval_to_string v)) r
    | None => r
    end
  else r.

(** The [setHeader] calls of [streamCachedAudio]: the three headers taken
    from the metadata when present, then the hit marker. *)
Definition stream_headers (r : response) (metadata : option (gmap string jsval))
    (cacheHit : bool) : response :=
  res.setHeader "X-Cache-Hit" (if cacheHit then "1" else "0")
    (set_header_if metadata "originalFilename" "Content-Disposition"
       (fun f => "inline; filename=" +:+ dquote +:+ f +:+ dquote)
       (set_header_if metadata "contentLength" "Content-Length" id
          (set_header_if metadata "contentType" "Content-Type" id r))).

(** [streamCachedAudio(res, cachePath, metadata, cacheHit)], with the
    response as it stands once the stream has ended or failed.  A missing
    file fails the read stream before any byte; [read_fault = Some k] fails
    it after [k] bytes. *)
Definition streamCachedAudio (r : response) (cachePath : string)
    (metadata : option (gmap string jsval)) (cacheHit : bool) : M response :=
  let r := stream_headers r metadata cacheHit in
  let* readStream := attempt (fs.readFile cachePath) in
  fun w =>
    match readStream with
    | None => (Ok (on_read_error r), w)
    | Some bytes =>
        match read_fault w with
        | None => (Ok (res.end_ (res.write bytes r)), w)
        | Some k => (Ok (on_read_error (res.write (take k bytes) r)), w)
        end
    end.

(** The metadata object written after a download. *)
Definition fetched_metadata (response : upstream_response) (now : Z)
    (url : string) (extraMetadata : gmap string jsval) : gmap string jsval :=
  extraMetadata ∪
  <["contentType" :=
      JStr (default "audio/mpeg"
              (js_or (resp_headers response !! "content-type") None))]>
  (<["fetchedAt" := JNum now]>
  (<["sourceUrl" := JStr url]>
  (match js_or (resp_headers response !! "content-length") None with
   | Some len => {["contentLength" := JStr len]}
   | None => ∅
   end))).

(** The body of the async closure in [downloadAndCacheAudio]. *)
Definition download_body (j : job) : M string :=
  let cacheBasePath := job_base j in
  let url := job_url j in
  ensureCacheDir >>
  let tempPath := cacheBasePath +:+ ".tmp" in
  let cachePath := cacheBasePath +:+ ".bin" in
  let metaPath := cacheBasePath +:+ ".json" in
  let* response := axios_get url (job_headers j) in
  pipeline_to_file response tempPath >>
  fs.rename tempPath cachePath >>
  let* now := Date_now in
  writeCacheMetadata metaPath
    (fetched_metadata response now url (job_metadata j)) >>
  enforceCacheSizeLimit >>
  ret cachePath.

(** A new promise for the closure of job [j], stored in the registry under
    the job's path: [inflightDownloads.set(cacheBasePath, promise)]. *)
Definition register (j : job) (w : world) : world :=
  set_inflight (insert (job_base j) (length (promises w)))
    (set_promises (fun ps => ps ++ [Pending j]) w).

(** [downloadAndCacheAudio(cacheBasePath, url, { headers, metadata })] up
    to its [return]: the result is the handle of the registered promise. *)
Definition downloadAndCacheAudio (cacheBasePath url : string)
    (headers : gmap string string) (extraMetadata : gmap string jsval)
  : M nat := fun w =>
  match inflightDownloads w !! cacheBasePath with
  | Some promise => (Ok promise, w)
  | None =>
      let j := {| job_base := cacheBasePath; job_url := url;
                  job_headers := headers; job_metadata := extraMetadata |} in
      (Ok (length (promises w)), register j w)
  end.

(** The closure of promise [h] runs to its end, its [finally] callback
    deletes the key, and the promise takes the outcome. *)
Definition settle (h : nat) (w : world) : world :=
  match promises w !! h with
  | Some (Pending j) =>
      let '(r, w') := download_body j w in
      let w'' := set_inflight (delete (job_base j)) w' in
      set_promises
        (fun ps => <[h := match r with
                          | Ok p => Fulfilled p
                          | Throw e => Rejected e
                          end]> ps) w''
  | _ => w
  end.

(** [await promise] *)
Definition await (h : nat) : M string := fun w =>
  let w' := settle h w in
  match promises w' !! h with
  | Some (Fulfilled p) => (Ok p, w')
  | Some (Rejected e) => (Throw e, w')
  | _ => (Throw (NoSuchPromise h), w')
  end.

(** [await songUrlModule({ id, br, level, cookie }, request)] *)
Definition call_resolver (q : resolver_query) : M module_response := fun w =>
  let w' := log (EvResolve (q_id q) (q_br q) (q_level q)) w in
  match songUrlModule q with
  | ResolverRejects e => (Throw e, w')
  | ResolverReturns r => (Ok r, w')
  end.

(** [`${id}_${bitrate || level || 'default'}`] *)
Definition cacheKey (id : string) (br level : option string) : string :=
  let bitrate := if truthy br then br else None in
  id +:+ "_" +:+ default "default" (js_or (js_or bitrate level) None).

(** [downloadHeaders] *)
Definition downloadHeaders : gmap string string :=
  {["Referer" := "https://music.163.com"]}.

(** [extraMeta]: the original file name, when the target has a type. *)
Definition extraMeta (id : string) (target : song_item) : gmap string jsval :=
  if truthy (item_type target) then
    {["originalFilename" :=
        JStr (id +:+ "." +:+
              Str.toLowerCase (default EmptyString (item_type target)))]}
  else ∅.

(** The job the handler hands to [downloadAndCacheAudio] for a target. *)
Definition fetch_job (id cacheBasePath : string) (target : song_item) : job :=
  {| job_base := cacheBasePath;
     job_url := default EmptyString (item_url target);
     job_headers := downloadHeaders;
     job_metadata := extraMeta id target |}.

(** The end of the handler: download the target, then stream the cached
    file as a miss. *)
Definition fetch_and_stream (id cacheBasePath : string) (target : song_item)
  : M response :=
  let cacheAudioPath := cacheBasePath +:+ ".bin" in
  let cacheMetaPath := cacheBasePath +:+ ".json" in
  let* promise :=
    downloadAndCacheAudio cacheBasePath
      (default EmptyString (item_url target)) downloadHeaders
      (extraMeta id target) in
  await promise >>
  let* metadata := readCacheMetadata cacheMetaPath in
  streamCachedAudio res.fresh cacheAudioPath metadata false.

(** The handler after a cache miss: resolve, fetch, stream. *)
Definition resolve_and_fetch (req : request) : M response :=
  let id := params_id req in
  let bitrate := if truthy (query_br req) then query_br req else None in
  let level := query_level req in
  let cacheBasePath :=
    path_join AUDIO_CACHE_DIR (cacheKey id (query_br req) level) in
  let* moduleResponse :=
    call_resolver {| q_id := id; q_br := bitrate; q_level := level;
                     q_cookie := cookies req |} in
  if negb (status moduleResponse =? 200) then
    fun w =>
      (res.status_send (status moduleResponse)
         (match body moduleResponse with
          | Some b => ResolverBody b
          | None => CodeOnly (status moduleResponse)
          end) res.fresh, w)
  else
    match body moduleResponse ≫= data with
    | None | Some [] =>
        ret (res.status_json 404 (CodeMsg 404 "Song url not found") res.fresh)
    | Some ((first :: _) as data) =>
        let target :=
          default first
            (List.find (fun item => String.eqb (item_id item) id) data) in
        if negb (truthy (item_url target)) then
          ret (res.status_json 403
                 (CodeMsg 403
                    "No playable URL returned (maybe VIP / region restricted)")
                 res.fresh)
        else fetch_and_stream id cacheBasePath target
    end.

(** The answer of the [catch] block of the handler. *)
Definition proxy_failed : response :=
  res.status_json 500 (CodeMsg 500 "Audio proxy failed") res.fresh.

(** [app.get('/custom/audio/:id', async (req, res) => ...)] *)
Definition audio_handler (req : request) : M response :=
  let id := params_id req in
  if String.eqb id EmptyString then
    ret (res.status_json 400 (CodeMsg 400 "Missing song id") res.fresh)
  else
    let cacheBasePath :=
      path_join AUDIO_CACHE_DIR
        (cacheKey id (query_br req) (query_level req)) in
    let cacheAudioPath := cacheBasePath +:+ ".bin" in
    let cacheMetaPath := cacheBasePath +:+ ".json" in
    try_catch
      (let* cacheStatus := getCacheStatus cacheAudioPath in
       if valid cacheStatus then
         let* metadata := readCacheMetadata cacheMetaPath in
         streamCachedAudio res.fresh cacheAudioPath metadata true
       else
         (if decide (reason cacheStatus = Some "expired")
          then removeCacheEntry cacheBasePath
          else ret tt) >>
         resolve_and_fetch req)
      (fun _ => ret proxy_failed).

(** ** Definitions used to state the properties *)

(** *** The loops of the eviction as functions of the file map *)

(** What the [for] loop pushes for the listed name [name]. *)
Definition blob_entry (m : gmap string file) (name : string)
  : option audio_entry :=
  if Str.endsWith name ".bin" then
    match m !! path_join AUDIO_CACHE_DIR name with
    | Some f =>
        Some {| base := Str.slice_end (path_join AUDIO_CACHE_DIR name) 4;
                entry_size := size (stats_of f);
                entry_mtimeMs := mtimeMs (stats_of f) |}
    | None => None
    end
  else None.

(** The entries the [while] loop shifts off and removes. *)
Fixpoint evicted (totalSize : Z) (audioEntries : list audio_entry)
  : list audio_entry :=
  match audioEntries with
  | [] => []
  | entry :: rest =>
      if AUDIO_CACHE_MAX_BYTES <? totalSize then
        entry :: evicted (totalSize - entry_size entry) rest
      else []
  end.

(** The file map once both files of an entry are unlinked. *)
Definition remove_files (m : gmap string file) (e : audio_entry)
  : gmap string file :=
  delete (base e +:+ ".json") (delete (base e +:+ ".bin") m).

(** A blob file of the cache directory: a direct entry of it whose name
    ends in [.bin]. *)
Definition is_blob (path : string) : bool :=
  match fs.entry_of AUDIO_CACHE_DIR path with
  | Some name => Str.endsWith name ".bin"
  | None => false
  end.

Definition blob_bytes (l : list (string * file)) : Z :=
  foldr (fun kf acc => if is_blob kf.1 then size (stats_of kf.2) + acc else acc)
        0 l.

(** Total size of the blob files of the cache directory. *)
Definition blob_total (m : gmap string file) : Z :=
  blob_bytes (map_to_list m).

Definition sum_sizes (l : list audio_entry) : Z :=
  foldr (fun e acc => entry_size e + acc) 0 l.

(** [w'] is [w] after the unlinks of [ps], in that order, and nothing
    else. *)
Definition unlinked (ps : list string) (w w' : world) : Prop :=
  files w' = foldl (fun m p => delete p m) (files w) ps
  /\ trace w' = trace w ++ (EvUnlink <$> ps)
  /\ dirs w' = dirs w /\ clock w' = clock w
  /\ inflightDownloads w' = inflightDownloads w
  /\ promises w' = promises w
  /\ network w' = network w /\ mkdir_fails w' = mkdir_fails w
  /\ rename_fails w' = rename_fails w
  /\ writeFile_fails w' = writeFile_fails w
  /\ unlink_fails w' = unlink_fails w
  /\ read_fault w' = read_fault w.

(** The quality selector as the interface describes it: [br] when given,
    else [level] when given, else the literal ["default"]. *)
Definition quality_token (br level : option string) : string :=
  if truthy br then default EmptyString br
  else if truthy level then default EmptyString level
  else "default".

(** *** The worlds a download goes through *)

Definition after_mkdir (w : world) : world :=
  log (EvMkdir AUDIO_CACHE_DIR)
    (set_dirs (fun d => {[AUDIO_CACHE_DIR]} ∪ d) w).

Definition after_get (j : job) (w : world) : world :=
  log (EvHttpGet (job_url j) (job_headers j)) (after_mkdir w).

Definition after_write (j : job) (chunk : list byte) (w : world) : world :=
  log (EvWrite (job_base j +:+ ".tmp") chunk)
    (set_files (insert (job_base j +:+ ".tmp") (File chunk (clock w)))
       (after_get j w)).

Definition after_rename (j : job) (bytes : list byte) (w : world) : world :=
  log (EvRename (job_base j +:+ ".tmp") (job_base j +:+ ".bin"))
    (set_files
       (fun m => <[job_base j +:+ ".bin" := File bytes (clock w)]>
                   (delete (job_base j +:+ ".tmp") m))
       (after_write j bytes w)).

Definition after_meta (j : job) (response : upstream_response) (w : world)
  : world :=
  let text :=
    JSON_stringify
      (fetched_metadata response (clock w) (job_url j) (job_metadata j)) in
  log (EvWriteFile (job_base j +:+ ".json") text)
    (set_files (insert (job_base j +:+ ".json") (File text (clock w)))
       (after_rename j (resp_data response) w)).

(** *** Callers of one key *)

(** Requests for one key that reach [downloadAndCacheAudio] one after the
    other while no fetch settles in between: the handles they get. *)
Fixpoint concurrent_calls (cacheBasePath : string)
    (calls : list (string * gmap string string * gmap string jsval))
    (w : world) : list nat * world :=
  match calls with
  | [] => ([], w)
  | (url, headers, extraMetadata) :: rest =>
      match downloadAndCacheAudio cacheBasePath url headers extraMetadata w with
      | (Ok h, w') =>
          let '(hs, w'') := concurrent_calls cacheBasePath rest w' in
          (h :: hs, w'')
      | (Throw _, w') => ([], w')
      end
  end.

(** *** Time passing *)


(** ** Facts about strings and paths *)

Lemma string_length_app (s t : string) :
  String.length (s +:+ t) = (String.length s + String.length t)%nat.
Proof. induction s as [|a s IH]; simpl; [done | by rewrite IH]. Qed.

Lemma substring_all (s : string) : substring 0 (String.length s) s = s.
Proof. induction s as [|a s IH]; simpl; [done | by rewrite IH]. Qed.

Lemma substring_app_skip (b t : string) (k m : nat) :
  substring (String.length b + k) m (b +:+ t) = substring k m t.
Proof. induction b as [|a b IH]; simpl; [done | apply IH]. Qed.

Lemma substring_app_take (b t : string) :
  substring 0 (String.length b) (b +:+ t) = b.
Proof.
  induction b as [|a b IH]; simpl.
  - by destruct t.
  - by rewrite IH.
Qed.

Lemma substring_split (s : string) (n : nat) :
  (n <= String.length s)%nat ->
  substring 0 n s +:+ substring n (String.length s - n) s = s.
Proof.
  revert n. induction s as [|a s IH]; intros [|n] Hn; simpl in *; try lia.
  - done.
  - by rewrite substring_all.
  - change (String a (substring 0 n s +:+ substring n (String.length s - n) s)
            = String a s).
    rewrite IH; [done | lia].
Qed.

Lemma endsWith_app (b suffix : string) : Str.endsWith (b +:+ suffix) suffix = true.
Proof.
  unfold Str.endsWith. rewrite string_length_app.
  destruct (Nat.leb_spec (String.length suffix) (String.length b + String.length suffix)); [|lia].
  replace (String.length b + String.length suffix - String.length suffix)%nat
    with (String.length b + 0)%nat by lia.
  rewrite substring_app_skip, substring_all. apply String.eqb_refl.
Qed.

Lemma endsWith_slice (s suffix : string) :
  Str.endsWith s suffix = true ->
  Str.slice_end s (String.length suffix) +:+ suffix = s.
Proof.
  unfold Str.endsWith, Str.slice_end.
  destruct (Nat.leb_spec (String.length suffix) (String.length s)) as [Hle|]; [|done].
  intros H%String.eqb_eq.
  pose proof (substring_split s (String.length s - String.length suffix)) as Hs.
  replace (String.length s - (String.length s - String.length suffix))%nat
    with (String.length suffix) in Hs by lia.
  rewrite H in Hs. apply Hs. lia.
Qed.

Lemma slice_end_app (b suffix : string) :
  Str.slice_end (b +:+ suffix) (String.length suffix) = b.
Proof.
  unfold Str.slice_end. rewrite string_length_app.
  replace (String.length b + String.length suffix - String.length suffix)%nat
    with (String.length b) by lia.
  apply substring_app_take.
Qed.

(** Two strings with the same suffix appended are equal only if they are. *)
Lemma append_inj_r (s1 s2 t : string) : s1 +:+ t = s2 +:+ t -> s1 = s2.
Proof.
  intros H.
  assert (Hlen : String.length s1 = String.length s2).
  { apply (f_equal String.length) in H. rewrite !string_length_app in H. lia. }
  revert s2 H Hlen. induction s1 as [|a s1 IH]; intros [|b s2] H Hlen;
    simpl in Hlen; try discriminate.
  - done.
  - change (String a (s1 +:+ t) = String b (s2 +:+ t)) in H.
    injection H as -> H. f_equal. apply IH; [done | lia].
Qed.

(** Appending suffixes of one length that differ gives different strings. *)
Lemma append_suffix_ne (s1 s2 t1 t2 : string) :
  String.length t1 = String.length t2 -> t1 <> t2 -> s1 +:+ t1 <> s2 +:+ t2.
Proof.
  intros Hlen Hne H.
  assert (Hl : String.length s1 = String.length s2).
  { apply (f_equal String.length) in H. rewrite !string_length_app in H. lia. }
  revert s2 H Hl. induction s1 as [|a s1 IH]; intros [|b s2] H Hl;
    simpl in Hl; try discriminate.
  - by apply Hne.
  - change (String a (s1 +:+ t1) = String b (s2 +:+ t2)) in H.
    injection H as _ H. apply (IH s2); [done | lia].
Qed.

Lemma strip_prefix_app (p s : string) : Str.strip_prefix p (p +:+ s) = Some s.
Proof.
  induction p as [|a p IH]; simpl.
  - by destruct s.
  - by rewrite Ascii.eqb_refl.
Qed.

Lemma strip_prefix_Some (p s r : string) :
  Str.strip_prefix p s = Some r -> s = p +:+ r.
Proof.
  revert s. induction p as [|a p IH]; intros s H; simpl in *.
  - destruct s; by inversion H.
  - destruct s as [|b s]; [done|].
    destruct (Ascii.eqb_spec a b) as [->|]; [|done].
    by rewrite (IH _ H).
Qed.

(** ** Removal, metadata and validity *)

Lemma unlink_files (p : string) (w : world) :
  unlink_fails w = false ->
  files (fs.unlink p w).2 = delete p (files w)
  /\ unlink_fails (fs.unlink p w).2 = false.
Proof.
  intros Hu. unfold fs.unlink. rewrite Hu.
  destruct (files w !! p) eqn:E; simpl; [done|].
  by rewrite delete_id.
Qed.

Lemma unlink_refused (p : string) (w : world) :
  unlink_fails w = true -> (fs.unlink p w).2 = w.
Proof.
  intros Hu. unfold fs.unlink. rewrite Hu. by destruct (files w !! p).
Qed.

Lemma removeCacheEntry_ok (basePath : string) (w : world) :
  (removeCacheEntry basePath w).1 = Ok tt.
Proof.
  unfold removeCacheEntry, allSettled2.
  by destruct (fs.unlink _ w), (fs.unlink _ _).
Qed.

Lemma removeCacheEntry_files (basePath : string) (w : world) :
  unlink_fails w = false ->
  files (removeCacheEntry basePath w).2
  = delete (basePath +:+ ".json") (delete (basePath +:+ ".bin") (files w)).
Proof.
  intros Hu. unfold removeCacheEntry, allSettled2.
  destruct (unlink_files (basePath +:+ ".bin") w Hu) as [H1 Hu1].
  destruct (fs.unlink (basePath +:+ ".bin") w) as [r1 w1]. simpl in H1, Hu1.
  destruct (unlink_files (basePath +:+ ".json") w1 Hu1) as [H2 _].
  destruct (fs.unlink (basePath +:+ ".json") w1) as [r2 w2]. simpl in *.
  by rewrite H2, H1.
Qed.

(** When the environment refuses every removal, [removeCacheEntry] still
    resolves and changes nothing. *)
Lemma removeCacheEntry_refused (basePath : string) (w : world) :
  unlink_fails w = true -> removeCacheEntry basePath w = (Ok tt, w).
Proof.
  intros Hu. unfold removeCacheEntry, allSettled2.
  pose proof (unlink_refused (basePath +:+ ".bin") w Hu) as H1.
  destruct (fs.unlink (basePath +:+ ".bin") w) as [r1 w1]. simpl in H1.
  subst w1.
  pose proof (unlink_refused (basePath +:+ ".json") w Hu) as H2.
  destruct (fs.unlink (basePath +:+ ".json") w) as [r2 w2]. simpl in H2.
  by subst w2.
Qed.

Lemma readCacheMetadata_total (metaPath : string) (w : world) :
  exists v, readCacheMetadata metaPath w = (Ok v, w).
Proof.
  unfold readCacheMetadata, try_catch, bind, fs.readFile.
  destruct (files w !! metaPath) as [f|]; [|by eexists].
  destruct (JSON_parse (content f)); by eexists.
Qed.

Lemma getCacheStatus_world (audioPath : string) (w : world) :
  exists st, getCacheStatus audioPath w = (Ok st, w).
Proof.
  unfold getCacheStatus, try_catch, bind, fs.stat, Date_now.
  destruct (files w !! audioPath) as [f|]; [|by eexists].
  destruct (_ && _); by eexists.
Qed.

Lemma streamCachedAudio_unfold r cachePath metadata cacheHit w :
  streamCachedAudio r cachePath metadata cacheHit w
  = (Ok (match files w !! cachePath with
         | None => on_read_error (stream_headers r metadata cacheHit)
         | Some f =>
             match read_fault w with
             | None =>
                 res.end_ (res.write (content f)
                             (stream_headers r metadata cacheHit))
             | Some k =>
                 on_read_error
                   (res.write (take k (content f))
                      (stream_headers r metadata cacheHit))
             end
         end), w).
Proof.
  unfold streamCachedAudio, attempt, try_catch, bind, fs.readFile, ret.
  destruct (files w !! cachePath) as [f|]; [|done].
  by destruct (read_fault w).
Qed.

Lemma set_header_if_flags metadata key name fmt r :
  headersSent (set_header_if metadata key name fmt r) = headersSent r
  /\ statusCode (set_header_if metadata key name fmt r) = statusCode r
  /\ destroyed (set_header_if metadata key name fmt r) = destroyed r
  /\ res_payload (set_header_if metadata key name fmt r) = res_payload r.
Proof.
  unfold set_header_if.
  destruct (jsval_truthy _); [|done]. by destruct (meta_get _ _).
Qed.

Lemma stream_headers_flags r metadata cacheHit :
  headersSent (stream_headers r metadata cacheHit) = headersSent r
  /\ statusCode (stream_headers r metadata cacheHit) = statusCode r
  /\ destroyed (stream_headers r metadata cacheHit) = destroyed r
  /\ res_payload (stream_headers r metadata cacheHit) = res_payload r.
Proof.
  unfold stream_headers; simpl.
  repeat match goal with
  | |- context [set_header_if ?m ?k ?n ?f ?x] =>
      let H := fresh in
      destruct (set_header_if_flags m k n f x) as (H & ? & ? & ?);
      rewrite H; clear H;
      generalize dependent (set_header_if m k n f x); intros
  end.
  repeat split; congruence.
Qed.

Lemma stream_headers_null r cacheHit :
  stream_headers r None cacheHit
  = res.setHeader "X-Cache-Hit" (if cacheHit then "1" else "0") r.
Proof. reflexivity. Qed.

(** C8: [readCacheMetadata] never throws and yields [null] when the file
    cannot be read or parsed; with [null] metadata a valid entry is still
    streamed as a hit, with no header but the hit marker; and
    [removeCacheEntry] never rejects, whatever is on disk. *)
Theorem cache_io_errors_are_swallowed :
  (forall metaPath w, exists v, readCacheMetadata metaPath w = (Ok v, w)) /\
  (forall metaPath w,
      files w !! metaPath = None ->
      readCacheMetadata metaPath w = (Ok None, w)) /\
  (forall metaPath w f,
      files w !! metaPath = Some f ->
      JSON_parse (content f) = None ->
      readCacheMetadata metaPath w = (Ok None, w)) /\
  (forall req w f,
      let cacheBasePath :=
        path_join AUDIO_CACHE_DIR
          (cacheKey (params_id req) (query_br req) (query_level req)) in
      params_id req <> EmptyString ->
      files w !! (cacheBasePath +:+ ".bin") = Some f ->
      getCacheStatus (cacheBasePath +:+ ".bin") w
        = (Ok {| valid := true; reason := None |}, w) ->
      readCacheMetadata (cacheBasePath +:+ ".json") w = (Ok None, w) ->
      read_fault w = None ->
      exists r,
        audio_handler req w = (Ok r, w)
        /\ statusCode r = 200
        /\ headers r = [("X-Cache-Hit", "1")]
        /\ res_payload r = BytesBody (content f)
        /\ finished r = true /\ destroyed r = false) /\
  (forall basePath w, exists w', removeCacheEntry basePath w = (Ok tt, w')).
Proof.
  split_and!.
  - apply readCacheMetadata_total.
  - intros p w H. unfold readCacheMetadata, try_catch, bind, fs.readFile.
    by rewrite H.
  - intros p w f H Hp. unfold readCacheMetadata, try_catch, bind, fs.readFile.
    by rewrite H, Hp.
  - intros req w f base Hid Hf Hst Hmeta Hrf.
    unfold audio_handler.
    destruct (String.eqb_spec (params_id req) EmptyString) as [|_]; [done|].
    fold base. unfold try_catch at 1. unfold bind at 1. rewrite Hst. simpl.
    unfold bind at 1. rewrite Hmeta.
    rewrite streamCachedAudio_unfold, Hf, Hrf, stream_headers_null.
    eexists; split; [reflexivity|].
    by destruct (content f).
  - intros b w. pose proof (removeCacheEntry_ok b w) as H.
    destruct (removeCacheEntry b w) as [r w']. simpl in H. subst. by eexists.
Qed.


(** ** The cache key *)

Lemma cacheKey_token (id : string) (br level : option string) :
  cacheKey id br level = id +:+ "_" +:+ quality_token br level.
Proof.
  unfold cacheKey, quality_token, js_or.
  destruct br as [b|], level as [l|]; simpl;
    try destruct (String.eqb b EmptyString) eqn:Hb;
    try destruct (String.eqb l EmptyString) eqn:Hl;
    repeat (progress (simpl; rewrite ?Hb, ?Hl)); done.
Qed.

Lemma key_split (id1 id2 q1 q2 : string) :
  Str.includes_char "_" id1 = false ->
  Str.includes_char "_" id2 = false ->
  id1 +:+ "_" +:+ q1 = id2 +:+ "_" +:+ q2 ->
  id1 = id2 /\ q1 = q2.
Proof.
  revert id2. induction id1 as [|a id1 IH]; intros [|b id2] H1 H2 H;
    simpl in H1, H2.
  - change (String "_" q1 = String "_" q2) in H. by injection H as ->.
  - change (String "_" q1 = String b (id2 +:+ "_" +:+ q2)) in H.
    injection H as <- _. by rewrite Ascii.eqb_refl in H2.
  - change (String a (id1 +:+ "_" +:+ q1) = String "_" q2) in H.
    injection H as -> _. by rewrite Ascii.eqb_refl in H1.
  - apply orb_false_iff in H1 as [_ H1]. apply orb_false_iff in H2 as [_ H2].
    change (String a (id1 +:+ "_" +:+ q1) = String b (id2 +:+ "_" +:+ q2)) in H.
    injection H as -> H. destruct (IH id2 H1 H2 H) as [-> ->]. done.
Qed.

(** C5 (amended): the key is the id, an underscore and the quality token,
    where [br] wins over [level] and ["default"] stands for neither; two
    requests whose ids hold no underscore get the same key only if they
    have the same id and the same quality token. *)
Theorem cacheKey_injective_on_ids_without_underscore :
  (forall id br level,
      cacheKey id br level = id +:+ "_" +:+ quality_token br level) /\
  (forall b level, b <> EmptyString -> quality_token (Some b) level = b) /\
  (forall br l, truthy br = false -> l <> EmptyString ->
      quality_token br (Some l) = l) /\
  (forall br level, truthy br = false -> truthy level = false ->
      quality_token br level = "default") /\
  (forall id1 br1 level1 id2 br2 level2,
      Str.includes_char "_" id1 = false ->
      Str.includes_char "_" id2 = false ->
      cacheKey id1 br1 level1 = cacheKey id2 br2 level2 ->
      id1 = id2 /\ quality_token br1 level1 = quality_token br2 level2).
Proof.
  split_and!.
  - apply cacheKey_token.
  - intros b level Hb. unfold quality_token; simpl.
    by destruct (String.eqb_spec b EmptyString).
  - intros br l Hbr Hl. unfold quality_token. rewrite Hbr; simpl.
    by destruct (String.eqb_spec l EmptyString).
  - intros br level Hbr Hl. unfold quality_token. by rewrite Hbr, Hl.
  - intros id1 br1 l1 id2 br2 l2 H1 H2. rewrite !cacheKey_token.
    by apply key_split.
Qed.

(** ** What the eviction does to the world *)

Lemma unlinked_refl (w : world) : unlinked [] w w.
Proof. unfold unlinked; simpl. by rewrite app_nil_r. Qed.

Lemma unlinked_trans (ps qs : list string) (w w1 w2 : world) :
  unlinked ps w w1 -> unlinked qs w1 w2 -> unlinked (ps ++ qs) w w2.
Proof.
  unfold unlinked. intros (Hf & Ht & H) (Hf' & Ht' & H').
  split; [by rewrite foldl_app, <- Hf|].
  split; [by rewrite fmap_app, app_assoc, <- Ht|].
  destruct_and!. split_and!; congruence.
Qed.

Lemma unlink_unlinked (p : string) (w : world) :
  exists ps, unlinked ps w (fs.unlink p w).2
             /\ (forall q, q ∈ ps -> q = p).
Proof.
  unfold fs.unlink. destruct (files w !! p) eqn:E; simpl.
  - destruct (unlink_fails w) eqn:Hu; simpl.
    + exists []. split; [apply unlinked_refl|]. by intros q ?%elem_of_nil.
    + exists [p]. split; [by unfold unlinked|].
      by intros q ->%list_elem_of_singleton.
  - exists []. split; [apply unlinked_refl|]. by intros q ?%elem_of_nil.
Qed.

Lemma removeCacheEntry_spec (basePath : string) (w : world) :
  exists w' ps,
    removeCacheEntry basePath w = (Ok tt, w')
    /\ unlinked ps w w'
    /\ (unlink_fails w = false ->
        files w'
        = delete (basePath +:+ ".json")
            (delete (basePath +:+ ".bin") (files w))).
Proof.
  pose proof (removeCacheEntry_files basePath w) as Hf.
  unfold removeCacheEntry, allSettled2 in *.
  destruct (unlink_unlinked (basePath +:+ ".bin") w) as (ps & H1 & _).
  destruct (fs.unlink (basePath +:+ ".bin") w) as [r1 w1]. simpl in *.
  destruct (unlink_unlinked (basePath +:+ ".json") w1) as (qs & H2 & _).
  destruct (fs.unlink (basePath +:+ ".json") w1) as [r2 w2]. simpl in *.
  exists w2, (ps ++ qs). split; [done|]. split; [|done].
  by eapply unlinked_trans.
Qed.

Lemma unlinked_unlink_fails (ps : list string) (w w' : world) :
  unlinked ps w w' -> unlink_fails w' = unlink_fails w.
Proof. unfold unlinked. intros H. by destruct_and!. Qed.

Lemma collect_audio_entries_spec (entries : list string)
    (audioEntries : list audio_entry) (w : world) :
  collect_audio_entries entries audioEntries w
  = (Ok (audioEntries ++ omap (blob_entry (files w)) entries), w).
Proof.
  revert audioEntries. induction entries as [|entry rest IH]; intros acc; simpl.
  - by rewrite app_nil_r.
  - unfold blob_entry at 1.
    destruct (Str.endsWith entry ".bin"); simpl; [|apply IH].
    unfold bind, attempt, try_catch, bind, fs.stat, ret.
    destruct (files w !! path_join AUDIO_CACHE_DIR entry) as [f|]; simpl.
    + rewrite IH. by rewrite <- app_assoc.
    + apply IH.
Qed.

Lemma evict_loop_spec (totalSize : Z) (audioEntries : list audio_entry)
    (w : world) :
  exists w' ps,
    evict_loop totalSize audioEntries w = (Ok tt, w')
    /\ unlinked ps w w'
    /\ (unlink_fails w = false ->
        files w'
        = foldl remove_files (files w) (evicted totalSize audioEntries)).
Proof.
  revert totalSize w. induction audioEntries as [|e rest IH]; intros total w; simpl.
  - exists w, []. split; [done|]. split; [apply unlinked_refl | done].
  - destruct (AUDIO_CACHE_MAX_BYTES <? total).
    + destruct (removeCacheEntry_spec (base e) w) as (w1 & ps & Hr & Hu & Hf).
      destruct (IH (total - entry_size e) w1) as (w2 & qs & Hr2 & Hu2 & Hf2).
      exists w2, (ps ++ qs). unfold bind. rewrite Hr, Hr2.
      split; [done|]. split; [by eapply unlinked_trans|].
      intros Hno. simpl. rewrite Hf2, Hf; [done..|].
      by rewrite (unlinked_unlink_fails _ _ _ Hu).
    + exists w, []. split; [done|]. split; [apply unlinked_refl | done].
Qed.

(** When the environment refuses every removal, the loop runs to its end
    and changes nothing. *)
Lemma evict_loop_refused (totalSize : Z) (audioEntries : list audio_entry)
    (w : world) :
  unlink_fails w = true -> evict_loop totalSize audioEntries w = (Ok tt, w).
Proof.
  intros Hu. revert totalSize.
  induction audioEntries as [|e rest IH]; intros total; simpl; [done|].
  destruct (AUDIO_CACHE_MAX_BYTES <? total); [|done].
  unfold bind. by rewrite (removeCacheEntry_refused _ _ Hu), IH.
Qed.

Lemma enforceCacheSizeLimit_spec (w : world) :
  exists w' ps,
    enforceCacheSizeLimit w = (Ok tt, w')
    /\ unlinked ps w w'
    /\ (unlink_fails w = false ->
        files w'
        = if AUDIO_CACHE_MAX_BYTES =? 0 then files w
          else if decide (AUDIO_CACHE_DIR ∈ dirs w) then
            let sorted :=
              sort_by_mtime
                (omap (blob_entry (files w))
                      (fs.children AUDIO_CACHE_DIR (files w))) in
            foldl remove_files (files w) (evicted (total_size sorted) sorted)
          else files w).
Proof.
  unfold enforceCacheSizeLimit.
  destruct (AUDIO_CACHE_MAX_BYTES =? 0).
  { exists w, []. split; [done|]. split; [apply unlinked_refl | done]. }
  unfold bind at 1. unfold attempt, try_catch, bind, fs.readdir, ret.
  destruct (decide (AUDIO_CACHE_DIR ∈ dirs w)); simpl.
  - rewrite collect_audio_entries_spec. simpl. apply evict_loop_spec.
  - exists w, []. split; [done|]. split; [apply unlinked_refl | done].
Qed.

(** When the environment refuses every removal, the enforcement returns
    normally and changes nothing. *)
Lemma enforce_refused (w : world) :
  unlink_fails w = true -> enforceCacheSizeLimit w = (Ok tt, w).
Proof.
  intros Hu. unfold enforceCacheSizeLimit.
  destruct (AUDIO_CACHE_MAX_BYTES =? 0); [done|].
  unfold bind at 1. unfold attempt, try_catch, bind, fs.readdir, ret.
  destruct (decide (AUDIO_CACHE_DIR ∈ dirs w)); simpl; [|done].
  rewrite collect_audio_entries_spec. simpl. by apply evict_loop_refused.
Qed.

(** ** Sorting and summing the entries *)

Lemma total_size_sum (l : list audio_entry) : total_size l = sum_sizes l.
Proof.
  unfold total_size.
  assert (H : forall a, foldl (fun acc item => acc + entry_size item) a l
                        = a + sum_sizes l).
  { induction l as [|e l IH]; intros a; simpl; [lia|]. rewrite IH. lia. }
  rewrite H. lia.
Qed.

Lemma sum_sizes_perm (l k : list audio_entry) :
  l ≡ₚ k -> sum_sizes l = sum_sizes k.
Proof. induction 1; simpl; lia. Qed.

Lemma sum_sizes_elem (l : list audio_entry) (e : audio_entry) :
  (forall x, x ∈ l -> 0 <= entry_size x) -> e ∈ l -> entry_size e <= sum_sizes l.
Proof.
  induction l as [|x l IH]; intros Hpos He; [by apply elem_of_nil in He|].
  simpl. apply elem_of_cons in He as [->|He].
  - assert (0 <= sum_sizes l); [|lia].
    clear IH. induction l as [|y l IH]; simpl; [lia|].
    assert (0 <= entry_size y) by (apply Hpos; set_solver).
    assert (0 <= sum_sizes l); [|lia].
    apply IH. intros z Hz. apply Hpos.
    apply elem_of_cons in Hz as [->|Hz]; set_solver.
  - assert (0 <= entry_size x) by (apply Hpos; set_solver).
    assert (entry_size e <= sum_sizes l); [|lia].
    apply IH; [|done]. intros z Hz. apply Hpos, elem_of_cons. by right.
Qed.

Lemma insert_by_mtime_perm (e : audio_entry) (l : list audio_entry) :
  insert_by_mtime e l ≡ₚ e :: l.
Proof.
  induction l as [|x l IH]; simpl; [done|].
  destruct (entry_mtimeMs e <=? entry_mtimeMs x); [done|].
  rewrite IH. apply Permutation_swap.
Qed.

Lemma sort_by_mtime_perm (l : list audio_entry) : sort_by_mtime l ≡ₚ l.
Proof.
  induction l as [|x l IH]; simpl; [done|].
  unfold sort_by_mtime in *. simpl. by rewrite insert_by_mtime_perm, IH.
Qed.

Lemma insert_by_mtime_sorted (e : audio_entry) (l : list audio_entry) :
  StronglySorted (fun a b => entry_mtimeMs a <= entry_mtimeMs b) l ->
  StronglySorted (fun a b => entry_mtimeMs a <= entry_mtimeMs b)
    (insert_by_mtime e l).
Proof.
  induction 1 as [|x l Hs IH Hx]; simpl.
  - repeat constructor.
  - destruct (Z.leb_spec (entry_mtimeMs e) (entry_mtimeMs x)) as [Hle|Hgt].
    + constructor; [by constructor|].
      constructor; [done|].
      eapply Forall_impl; [exact Hx|]. simpl. intros; lia.
    + constructor; [done|].
      rewrite insert_by_mtime_perm. constructor; [lia | done].
Qed.

Lemma sort_by_mtime_sorted (l : list audio_entry) :
  StronglySorted (fun a b => entry_mtimeMs a <= entry_mtimeMs b)
    (sort_by_mtime l).
Proof.
  induction l as [|x l IH]; [constructor|].
  by apply insert_by_mtime_sorted.
Qed.

Lemma evicted_prefix (totalSize : Z) (l : list audio_entry) :
  exists kept,
    l = evicted totalSize l ++ kept
    /\ (kept = [] \/
        totalSize - sum_sizes (evicted totalSize l) <= AUDIO_CACHE_MAX_BYTES).
Proof.
  revert totalSize. induction l as [|e l IH]; intros total; simpl.
  - exists []. by split; [|left].
  - destruct (Z.ltb_spec AUDIO_CACHE_MAX_BYTES total).
    + destruct (IH (total - entry_size e)) as (kept & Hl & Hk).
      exists kept. split; [simpl; by rewrite <- Hl|].
      destruct Hk as [->|Hk]; [by left|]. right. simpl. lia.
    + exists (e :: l). split; [done|]. right. simpl. lia.
Qed.

(** ** Accounting of the blob files *)

Lemma blob_bytes_cons (x : string * file) (l : list (string * file)) :
  blob_bytes (x :: l)
  = (if is_blob x.1 then size (stats_of x.2) else 0) + blob_bytes l.
Proof. unfold blob_bytes; simpl. destruct (is_blob x.1); lia. Qed.

Lemma blob_bytes_perm (l k : list (string * file)) :
  l ≡ₚ k -> blob_bytes l = blob_bytes k.
Proof.
  induction 1 as [|x l k _ IH|x y l|l k m _ IH1 _ IH2];
    rewrite ?blob_bytes_cons; [done | lia | lia | congruence].
Qed.

Lemma blob_total_delete (m : gmap string file) (k : string) (f : file) :
  m !! k = Some f ->
  blob_total (delete k m)
  = blob_total m - (if is_blob k then size (stats_of f) else 0).
Proof.
  intros H. unfold blob_total.
  rewrite <- (blob_bytes_perm _ _ (map_to_list_delete m k f H)).
  rewrite blob_bytes_cons. simpl. lia.
Qed.

Lemma blob_total_delete_other (m : gmap string file) (k : string) :
  is_blob k = false -> blob_total (delete k m) = blob_total m.
Proof.
  intros H. destruct (m !! k) as [f|] eqn:E.
  - rewrite (blob_total_delete m k f E), H. lia.
  - by rewrite delete_id.
Qed.

(** ** Paths of the cache directory *)

Lemma append_assoc (a b c : string) : (a +:+ b) +:+ c = a +:+ (b +:+ c).
Proof.
  induction a as [|x a IH]; [done|].
  change (String x ((a +:+ b) +:+ c) = String x (a +:+ (b +:+ c))).
  by rewrite IH.
Qed.

Lemma split_cons (s : string) : exists seg segs, Path.split s = seg :: segs.
Proof.
  induction s as [|c s (seg & segs & IH)]; simpl; [by eauto|].
  destruct (Ascii.eqb c "/"); [by eauto|]. rewrite IH. by eauto.
Qed.

Lemma split_app (a b : string) :
  Path.split (a +:+ String "/" b) = Path.split a ++ Path.split b.
Proof.
  induction a as [|c a IH]; [done|].
  change (String c a +:+ String "/" b) with (String c (a +:+ String "/" b)).
  simpl. rewrite IH. destruct (Ascii.eqb c "/"); [done|].
  by destruct (split_cons a) as (seg & segs & ->).
Qed.

Lemma split_one (n : string) :
  Str.includes_char "/" n = false -> Path.split n = [n].
Proof.
  induction n as [|c n IH]; [done|]. simpl.
  destruct (Ascii.eqb c "/"); [done|]. simpl. by intros ->%IH.
Qed.

Lemma unsplit_snoc (l : list string) (n : string) :
  Path.unsplit (l ++ [n])
  = match l with [] => n | _ => Path.unsplit l +:+ "/" +:+ n end.
Proof.
  induction l as [|a l IH]; [done|].
  destruct l as [|b l]; [done|].
  change (Path.unsplit ((a :: b :: l) ++ [n]))
    with (a +:+ "/" +:+ Path.unsplit ((b :: l) ++ [n])).
  rewrite IH.
  change (Path.unsplit (a :: b :: l)) with (a +:+ "/" +:+ Path.unsplit (b :: l)).
  by rewrite !append_assoc.
Qed.

Lemma append_nil_r (s : string) : s +:+ "" = s.
Proof.
  induction s as [|c s IH]; [done|].
  change (String c (s +:+ "") = String c s). by rewrite IH.
Qed.

Lemma trailingSeparator_app (a n : string) :
  n <> EmptyString ->
  Path.trailingSeparator (a +:+ n) = Path.trailingSeparator n.
Proof.
  intros Hn. induction a as [|c a IH]; [done|].
  change (String c a +:+ n) with (String c (a +:+ n)).
  cbn [Path.trailingSeparator]. rewrite IH.
  destruct (a +:+ n) eqn:E; [|done].
  destruct a; [|done]. by destruct n.
Qed.

Lemma trailingSeparator_none (n : string) :
  Str.includes_char "/" n = false -> Path.trailingSeparator n = false.
Proof.
  induction n as [|c n IH]; [done|]. simpl.
  destruct (Ascii.eqb c "/"); [done|]. simpl. intros H.
  destruct n; [done|]. by apply IH.
Qed.

Lemma entry_name_spec (n : string) :
  Path.entry_name n = true
  <-> n <> "" /\ Str.includes_char "/" n = false /\ n <> "." /\ n <> "..".
Proof.
  unfold Path.entry_name.
  rewrite !andb_true_iff, !negb_true_iff, !String.eqb_neq. tauto.
Qed.

Lemma step_entry_name (allow : bool) (kept : list string) (n : string) :
  Path.entry_name n = true -> Path.step allow kept n = n :: kept.
Proof.
  intros (H1 & _ & H2 & H3)%entry_name_spec. unfold Path.step.
  apply String.eqb_neq in H1, H2, H3. by rewrite H1, H2, H3.
Qed.

(** [path.join(dir, n)] for a name of one component: the normalised
    directory, then the name. *)
Lemma join_entry_name (dir n : string) :
  Path.entry_name n = true ->
  path_join dir n = Path.dir_prefix dir +:+ n.
Proof.
  intros Hn. pose proof Hn as (Hne & Hsl & _)%entry_name_spec.
  assert (Hts : forall a, Path.trailingSeparator (a +:+ n) = false).
  { intros a. rewrite trailingSeparator_app by done.
    by apply trailingSeparator_none. }
  unfold path_join, Path.join, Path.normalize, Path.dir_prefix,
    Path.normalizeString.
  destruct dir as [|c dir].
  - apply String.eqb_neq in Hne as Hne'. cbn [String.eqb]. rewrite Hne'.
    rewrite split_one by done. cbn [foldl]. rewrite step_entry_name by done.
    assert (Path.isAbsolute n = false) as ->.
    { destruct n as [|x n]; [done|]. simpl in Hsl |- *.
      by destruct (Ascii.eqb x "/"). }
    pose proof (Hts "") as Hts0. change ("" +:+ n) with n in Hts0.
    rewrite Hts0. cbn. change ("" +:+ n +:+ "" = n) with (n +:+ "" = n).
    change (n +:+ "" = n). apply append_nil_r.
  - apply String.eqb_neq in Hne as Hne'. cbn [String.eqb]. rewrite Hne'.
    change (String c dir +:+ "/" +:+ n)
      with (String c (dir +:+ String "/" n)).
    cbn [String.eqb Path.isAbsolute].
    change (String c (dir +:+ String "/" n))
      with (String c dir +:+ String "/" n).
    rewrite split_app, (split_one n), foldl_app by done. cbn [foldl].
    rewrite step_entry_name, reverse_cons by done.
    pose proof (Hts (String c dir +:+ "/")) as H1.
    rewrite append_assoc in H1. change ("/" +:+ n) with (String "/" n) in H1.
    rewrite H1. clear H1.
    destruct (reverse _) as [|r rs].
    + change ([] ++ [n]) with [n]. cbn [Path.unsplit].
      by rewrite !append_nil_r.
    + change ((r :: rs) ++ [n]) with (r :: (rs ++ [n])). cbv beta iota.
      change (r :: (rs ++ [n])) with ((r :: rs) ++ [n]).
      rewrite unsplit_snoc. by rewrite append_nil_r, !append_assoc.
Qed.

Lemma dir_prefix_shape (dir : string) :
  Path.dir_prefix dir = "" \/ exists a, Path.dir_prefix dir = a +:+ "/".
Proof.
  unfold Path.dir_prefix.
  destruct (Path.normalizeString _ _) as [|r rs].
  - destruct (Path.isAbsolute dir); [right; by exists "" | by left].
  - right. eexists. by rewrite <- append_assoc.
Qed.

Lemma basename_dir_prefix (dir n : string) :
  Str.includes_char "/" n = false ->
  Path.basename (Path.dir_prefix dir +:+ n) = n.
Proof.
  intros Hn. unfold Path.basename.
  destruct (dir_prefix_shape dir) as [->|[a ->]].
  - by rewrite split_one.
  - rewrite append_assoc. change ("/" +:+ n) with (String "/" n).
    rewrite split_app, (split_one n) by done. by rewrite last_snoc.
Qed.

Lemma includes_char_app (c : ascii) (a b : string) :
  Str.includes_char c (a +:+ b)
  = Str.includes_char c a || Str.includes_char c b.
Proof.
  induction a as [|x a IH]; [done|].
  change (String x a +:+ b) with (String x (a +:+ b)). simpl.
  by rewrite IH, orb_assoc.
Qed.

(** A name with a suffix of three characters or more is a name of one
    component when neither holds a [/]. *)
Lemma entry_name_suffix (k suffix : string) :
  Str.includes_char "/" k = false ->
  Str.includes_char "/" suffix = false ->
  (3 <= String.length suffix)%nat ->
  Path.entry_name (k +:+ suffix) = true.
Proof.
  intros Hk Hs Hlen. apply entry_name_spec.
  rewrite includes_char_app, Hk, Hs.
  split_and!; [|done| |];
    intros H%(f_equal String.length); rewrite string_length_app in H;
    simpl in H; lia.
Qed.

(** The cache directory lists [p] under [name] exactly when [name] is a
    name of one component and [p] is [path.join] of the two. *)
Lemma entry_of_Some (p name : string) :
  fs.entry_of AUDIO_CACHE_DIR p = Some name
  <-> Path.entry_name name = true /\ p = path_join AUDIO_CACHE_DIR name.
Proof.
  unfold fs.entry_of. split.
  - destruct (Path.entry_name (Path.basename p)) eqn:E; [|done].
    destruct (String.eqb_spec (path_join AUDIO_CACHE_DIR (Path.basename p)) p)
      as [Hp|]; [|done].
    simpl. by intros [= <-].
  - intros [Hn ->]. pose proof Hn as (_ & Hsl & _)%entry_name_spec.
    rewrite (join_entry_name _ _ Hn), basename_dir_prefix, Hn by done.
    by rewrite <- (join_entry_name _ _ Hn), String.eqb_refl.
Qed.

Lemma path_join_strip (name : string) :
  Path.entry_name name = true ->
  fs.entry_of AUDIO_CACHE_DIR (path_join AUDIO_CACHE_DIR name) = Some name.
Proof. intros H. by apply entry_of_Some. Qed.

Lemma strip_path_join (p name : string) :
  fs.entry_of AUDIO_CACHE_DIR p = Some name ->
  p = path_join AUDIO_CACHE_DIR name.
Proof. by intros [_ H]%entry_of_Some. Qed.

Lemma path_join_inj (n1 n2 : string) :
  Path.entry_name n1 = true -> Path.entry_name n2 = true ->
  path_join AUDIO_CACHE_DIR n1 = path_join AUDIO_CACHE_DIR n2 -> n1 = n2.
Proof.
  intros Hn1 Hn2 H. pose proof (path_join_strip n1 Hn1) as H1.
  rewrite H, path_join_strip in H1 by done. congruence.
Qed.

Lemma is_blob_path_join (name : string) :
  Path.entry_name name = true ->
  is_blob (path_join AUDIO_CACHE_DIR name) = Str.endsWith name ".bin".
Proof. intros H. unfold is_blob. by rewrite path_join_strip. Qed.

(** A suffix appended to the path of a name of one component is the path
    of the longer name. *)
Lemma path_join_base (key suffix : string) :
  Path.entry_name key = true ->
  Path.entry_name (key +:+ suffix) = true ->
  path_join AUDIO_CACHE_DIR key +:+ suffix
  = path_join AUDIO_CACHE_DIR (key +:+ suffix).
Proof.
  intros H1 H2. rewrite !join_entry_name by done. apply append_assoc.
Qed.

Lemma is_blob_ends (p : string) :
  is_blob p = true -> exists b, p = b +:+ ".bin".
Proof.
  unfold is_blob.
  destruct (fs.entry_of _ p) as [name|] eqn:E; [|done].
  intros H. apply entry_of_Some in E as [Hn ->].
  apply (endsWith_slice name ".bin") in H.
  rewrite join_entry_name, <- H, <- append_assoc by done. by eexists.
Qed.

Lemma not_blob_json (b : string) : is_blob (b +:+ ".json") = false.
Proof.
  destruct (is_blob (b +:+ ".json")) eqn:E; [|done].
  apply is_blob_ends in E as [x E].
  change ".json" with ("." +:+ "json") in E. rewrite <- append_assoc in E.
  by apply append_suffix_ne in E.
Qed.

Lemma not_blob_tmp (b : string) : is_blob (b +:+ ".tmp") = false.
Proof.
  destruct (is_blob (b +:+ ".tmp")) eqn:E; [|done].
  apply is_blob_ends in E as [x E]. by apply append_suffix_ne in E.
Qed.

Lemma blob_entry_Some (m : gmap string file) (name : string) (e : audio_entry) :
  Path.entry_name name = true ->
  blob_entry m name = Some e ->
  base e +:+ ".bin" = path_join AUDIO_CACHE_DIR name
  /\ Str.endsWith name ".bin" = true
  /\ exists f, m !! path_join AUDIO_CACHE_DIR name = Some f
               /\ entry_size e = size (stats_of f)
               /\ entry_mtimeMs e = mtime f.
Proof.
  intros Hn. unfold blob_entry.
  destruct (Str.endsWith name ".bin") eqn:E; [|done].
  destruct (m !! path_join AUDIO_CACHE_DIR name) as [f|] eqn:Hf; [|done].
  intros [= <-]. simpl. split; [|by eauto].
  apply (endsWith_slice _ ".bin").
  apply (endsWith_slice name ".bin") in E.
  rewrite join_entry_name, <- E, <- append_assoc by done.
  apply endsWith_app.
Qed.

Lemma elem_of_children (m : gmap string file) (name : string) :
  name ∈ fs.children AUDIO_CACHE_DIR m
  <-> Path.entry_name name = true
      /\ is_Some (m !! path_join AUDIO_CACHE_DIR name).
Proof.
  unfold fs.children. rewrite list_elem_of_omap. split.
  - intros ([k f] & Hin & Hs). simpl in Hs.
    apply entry_of_Some in Hs as [Hn ->]. split; [done|].
    apply elem_of_map_to_list in Hin. by eexists.
  - intros [Hn [f Hf]]. exists (path_join AUDIO_CACHE_DIR name, f). split.
    + by apply elem_of_map_to_list.
    + by apply path_join_strip.
Qed.

Lemma omap_cons_match {A B} (f : A -> option B) (x : A) (l : list A) :
  omap f (x :: l)
  = match f x with Some y => y :: omap f l | None => omap f l end.
Proof. reflexivity. Qed.

Lemma NoDup_omap_inj {A B} (f : A -> option B) (l : list A) :
  NoDup l ->
  (forall x y z, x ∈ l -> y ∈ l -> f x = Some z -> f y = Some z -> x = y) ->
  NoDup (omap f l).
Proof.
  induction 1 as [|x l Hx Hl IH]; intros Hinj; simpl; [constructor|].
  assert (NoDup (omap f l)) as Hnd.
  { apply IH. intros a b z Ha Hb. apply Hinj; by apply elem_of_cons; right. }
  destruct (f x) as [z|] eqn:Hfx; [|done].
  constructor; [|done].
  intros (y & Hy & Hfy)%list_elem_of_omap.
  assert (x = y) as ->; [|done].
  apply (Hinj x y z); [by left | by apply elem_of_cons; right | done | done].
Qed.

Lemma NoDup_children (m : gmap string file) :
  NoDup (fs.children AUDIO_CACHE_DIR m).
Proof.
  apply NoDup_omap_inj; [apply NoDup_map_to_list|].
  intros [k1 f1] [k2 f2] n H1 H2 Hs1 Hs2. simpl in *.
  apply strip_path_join in Hs1 as ->. apply strip_path_join in Hs2 as ->.
  apply elem_of_map_to_list in H1, H2. congruence.
Qed.

Lemma NoDup_blob_bases (m : gmap string file) :
  NoDup (base <$> omap (blob_entry m) (fs.children AUDIO_CACHE_DIR m)).
Proof.
  rewrite list_fmap_omap.
  apply NoDup_omap_inj; [apply NoDup_children|].
  intros n1 n2 b [Hn1 _]%elem_of_children [Hn2 _]%elem_of_children H1 H2.
  destruct (blob_entry m n1) as [e1|] eqn:E1; [|done].
  destruct (blob_entry m n2) as [e2|] eqn:E2; [|done].
  simpl in *. injection H1 as H1. injection H2 as H2.
  apply blob_entry_Some in E1 as [E1 _]; [|done].
  apply blob_entry_Some in E2 as [E2 _]; [|done].
  apply path_join_inj; [done | done | congruence].
Qed.

Lemma sum_sizes_blob_entries (m : gmap string file) :
  sum_sizes (omap (blob_entry m) (fs.children AUDIO_CACHE_DIR m))
  = blob_total m.
Proof.
  unfold blob_total, fs.children.
  assert (H : forall l : list (string * file),
             (forall k f, (k, f) ∈ l -> m !! k = Some f) ->
             sum_sizes
               (omap (blob_entry m)
                  (omap (fun kf : string * file =>
                           fs.entry_of AUDIO_CACHE_DIR kf.1) l))
             = blob_bytes l).
  { induction l as [|[k f] l IH]; intros Hl; [done|].
    rewrite blob_bytes_cons, omap_cons_match. cbn [fst snd].
    assert (IH' := IH (fun k' f' Hin => Hl k' f' (list_elem_of_further _ _ _ Hin))).
    unfold is_blob.
    destruct (fs.entry_of AUDIO_CACHE_DIR k) as [n|] eqn:E; [|lia].
    apply strip_path_join in E as ->.
    rewrite omap_cons_match. unfold blob_entry at 1.
    destruct (Str.endsWith n ".bin"); [|lia].
    rewrite (Hl _ f (list_elem_of_here _ _)).
    change (sum_sizes (?e :: ?r)) with (entry_size e + sum_sizes r).
    cbn [entry_size]. lia. }
  apply H. intros k f. apply elem_of_map_to_list.
Qed.

(** ** The eviction loop on the file map *)

Lemma AUDIO_CACHE_MAX_BYTES_nonneg : 0 <= AUDIO_CACHE_MAX_BYTES.
Proof.
  unfold AUDIO_CACHE_MAX_BYTES.
  destruct (Z.ltb_spec 0 AUDIO_CACHE_MAX_SIZE_MB); lia.
Qed.

Lemma bin_ne_json (b1 b2 : string) : b1 +:+ ".bin" <> b2 +:+ ".json".
Proof.
  change ".json" with ("." +:+ "json"). rewrite <- append_assoc.
  by apply append_suffix_ne.
Qed.

Lemma remove_files_lookup_ne (m : gmap string file) (e : audio_entry) (p : string) :
  p <> base e +:+ ".bin" -> p <> base e +:+ ".json" ->
  remove_files m e !! p = m !! p.
Proof. intros H1 H2. unfold remove_files. by rewrite !lookup_delete_ne. Qed.

Lemma remove_files_None (m : gmap string file) (e : audio_entry) (p : string) :
  m !! p = None -> remove_files m e !! p = None.
Proof.
  intros H. unfold remove_files.
  rewrite !lookup_delete. repeat case_decide; done.
Qed.

Lemma foldl_remove_files_None (m : gmap string file) (l : list audio_entry)
    (p : string) :
  m !! p = None -> foldl remove_files m l !! p = None.
Proof.
  revert m. induction l as [|e l IH]; intros m H; simpl; [done|].
  by apply IH, remove_files_None.
Qed.

Lemma foldl_remove_files_other (m : gmap string file) (l : list audio_entry)
    (p : string) :
  (forall e, e ∈ l -> p <> base e +:+ ".bin" /\ p <> base e +:+ ".json") ->
  foldl remove_files m l !! p = m !! p.
Proof.
  revert m. induction l as [|e l IH]; intros m H; simpl; [done|].
  rewrite IH.
  - destruct (H e) as [H1 H2]; [by left|]. by apply remove_files_lookup_ne.
  - intros e' He'. apply H. by right.
Qed.

Lemma foldl_remove_files_gone (m : gmap string file) (l : list audio_entry)
    (e : audio_entry) :
  e ∈ l ->
  foldl remove_files m l !! (base e +:+ ".bin") = None
  /\ foldl remove_files m l !! (base e +:+ ".json") = None.
Proof.
  revert m. induction l as [|x l IH]; intros m He;
    [by apply elem_of_nil in He|].
  simpl. apply elem_of_cons in He as [->|He]; [|by apply IH].
  split; apply foldl_remove_files_None; unfold remove_files.
  - rewrite lookup_delete_ne, lookup_delete_eq; [done|].
    intros H. symmetry in H. by apply bin_ne_json in H.
  - by rewrite lookup_delete_eq.
Qed.

Lemma blob_total_remove_files (m : gmap string file) (e : audio_entry) (f : file) :
  m !! (base e +:+ ".bin") = Some f ->
  is_blob (base e +:+ ".bin") = true ->
  blob_total (remove_files m e) = blob_total m - size (stats_of f).
Proof.
  intros Hf Hb. unfold remove_files.
  rewrite blob_total_delete_other by apply not_blob_json.
  by rewrite (blob_total_delete _ _ f Hf), Hb.
Qed.

Lemma evicted_blob_total (l : list audio_entry) :
  forall (m : gmap string file) (totalSize : Z),
    NoDup (base <$> l) ->
    (forall e, e ∈ l ->
       exists f, m !! (base e +:+ ".bin") = Some f
                 /\ entry_size e = size (stats_of f)
                 /\ is_blob (base e +:+ ".bin") = true) ->
    blob_total (foldl remove_files m (evicted totalSize l))
    = blob_total m - sum_sizes (evicted totalSize l).
Proof.
  induction l as [|e l IH]; intros m total Hnd Hm; simpl; [lia|].
  destruct (AUDIO_CACHE_MAX_BYTES <? total); simpl; [|lia].
  rewrite fmap_cons in Hnd. apply NoDup_cons in Hnd as [Hne Hnd].
  destruct (Hm e) as (f & Hf & Hsz & Hb); [by left|].
  rewrite IH; [|done|].
  - rewrite (blob_total_remove_files m e f Hf Hb). lia.
  - intros e' He'. destruct (Hm e') as (f' & Hf' & Hsz' & Hb'); [by right|].
    exists f'. split; [|done].
    rewrite remove_files_lookup_ne; [done| |apply bin_ne_json].
    intros Heq%append_inj_r. apply Hne. rewrite <- Heq.
    by apply list_elem_of_fmap_2.
Qed.

Lemma evicted_was_over_budget (l : list audio_entry) :
  forall (totalSize : Z) (pre post : list audio_entry) (e : audio_entry),
    evicted totalSize l = pre ++ e :: post ->
    AUDIO_CACHE_MAX_BYTES < totalSize - sum_sizes pre.
Proof.
  induction l as [|x l IH]; intros total pre post e H; simpl in H.
  - by destruct pre.
  - destruct (Z.ltb_spec AUDIO_CACHE_MAX_BYTES total); [|by destruct pre].
    destruct pre as [|y pre]; simpl in *; [lia|].
    injection H as <- H. apply IH in H. lia.
Qed.

Lemma sum_sizes_app (l k : list audio_entry) :
  sum_sizes (l ++ k) = sum_sizes l + sum_sizes k.
Proof. induction l as [|e l IH]; simpl; lia. Qed.

(** The whole effect of [enforceCacheSizeLimit] on a world. *)
Lemma enforceCacheSizeLimit_result (w : world) :
  exists w',
    enforceCacheSizeLimit w = (Ok tt, w')
    /\ (AUDIO_CACHE_MAX_BYTES = 0 -> w' = w)
    /\ (AUDIO_CACHE_DIR ∉ dirs w -> w' = w)
    /\ (AUDIO_CACHE_MAX_BYTES <> 0 -> AUDIO_CACHE_DIR ∈ dirs w ->
        unlink_fails w = false ->
        exists removed kept,
          sort_by_mtime
            (omap (blob_entry (files w))
                  (fs.children AUDIO_CACHE_DIR (files w)))
          = removed ++ kept
          /\ files w' = foldl remove_files (files w) removed
          /\ (forall e, e ∈ removed ++ kept ->
                is_blob (base e +:+ ".bin") = true
                /\ exists f, files w !! (base e +:+ ".bin") = Some f
                             /\ entry_size e = size (stats_of f)
                             /\ entry_mtimeMs e = mtime f)
          /\ (forall r k, r ∈ removed -> k ∈ kept ->
                entry_mtimeMs r <= entry_mtimeMs k)
          /\ (forall pre e post, removed = pre ++ e :: post ->
                AUDIO_CACHE_MAX_BYTES < sum_sizes (e :: post ++ kept))
          /\ (forall e, e ∈ removed ->
                files w' !! (base e +:+ ".bin") = None
                /\ files w' !! (base e +:+ ".json") = None)
          /\ (forall p,
                (forall e, e ∈ removed ->
                   p <> base e +:+ ".bin" /\ p <> base e +:+ ".json") ->
                files w' !! p = files w !! p)
          /\ (kept = [] \/ sum_sizes kept <= AUDIO_CACHE_MAX_BYTES)
          /\ blob_total (files w') = sum_sizes kept
          /\ blob_total (files w') <= AUDIO_CACHE_MAX_BYTES).
Proof.
  unfold enforceCacheSizeLimit.
  destruct (Z.eqb_spec AUDIO_CACHE_MAX_BYTES 0) as [Hz|Hnz].
  { exists w. by split_and!. }
  unfold bind at 1. unfold attempt, try_catch, bind, fs.readdir, ret.
  destruct (decide (AUDIO_CACHE_DIR ∈ dirs w)) as [Hd|Hd]; simpl;
    [|exists w; by split_and!].
  rewrite collect_audio_entries_spec. simpl.
  set (found := omap (blob_entry (files w))
                     (fs.children AUDIO_CACHE_DIR (files w))).
  set (sorted := sort_by_mtime found).
  destruct (evict_loop_spec (total_size sorted) sorted w)
    as (w' & ps & Hrun & _ & Hfiles).
  exists w'. split; [done|]. split; [done|]. split; [done|]. intros _ _ Hul.
  specialize (Hfiles Hul).
  destruct (evicted_prefix (total_size sorted) sorted) as (kept & Hsplit & Hstop).
  set (removed := evicted (total_size sorted) sorted) in *.
  assert (Hperm : sorted ≡ₚ found) by apply sort_by_mtime_perm.
  assert (Hmatch : forall e, e ∈ sorted ->
            is_blob (base e +:+ ".bin") = true
            /\ exists f, files w !! (base e +:+ ".bin") = Some f
                         /\ entry_size e = size (stats_of f)
                         /\ entry_mtimeMs e = mtime f).
  { intros e He. rewrite Hperm in He.
    apply list_elem_of_omap in He as (name & [Hn _]%elem_of_children & He).
    apply blob_entry_Some in He as (Hp & Hends & f & Hf & Hs & Hm); [|done].
    rewrite Hp. split; [by rewrite is_blob_path_join | by exists f]. }
  assert (Hnd : NoDup (base <$> sorted)).
  { rewrite Hperm. apply NoDup_blob_bases. }
  assert (Htot : blob_total (files w') = sum_sizes kept).
  { rewrite Hfiles. unfold removed. rewrite evicted_blob_total; [|done|].
    - rewrite <- sum_sizes_blob_entries. fold found.
      rewrite <- (sum_sizes_perm _ _ Hperm). rewrite Hsplit at 1.
      rewrite sum_sizes_app. fold removed. lia.
    - intros e He. destruct (Hmatch e He) as (Hb & f & Hf & Hs & _). eauto. }
  assert (Hstop' : kept = [] \/ sum_sizes kept <= AUDIO_CACHE_MAX_BYTES).
  { destruct Hstop as [->|Hstop]; [by left|]. right.
    rewrite total_size_sum in Hstop. rewrite Hsplit in Hstop at 1.
    rewrite sum_sizes_app in Hstop. lia. }
  exists removed, kept. split_and!; try done.
  - by rewrite <- Hsplit.
  - intros r k Hr Hk.
    pose proof (sort_by_mtime_sorted found) as Hs. fold sorted in Hs.
    rewrite Hsplit in Hs.
    by apply (StronglySorted_app_1_elem_of _ _ _ _ _ Hs).
  - intros pre e post Hpre.
    pose proof (evicted_was_over_budget sorted (total_size sorted) pre post e Hpre) as H.
    rewrite total_size_sum in H. rewrite Hsplit in H at 1.
    fold removed in H. rewrite Hpre in H.
    rewrite !sum_sizes_app in H. simpl in *. rewrite sum_sizes_app. lia.
  - intros e He. rewrite Hfiles. by apply foldl_remove_files_gone.
  - intros p Hp. rewrite Hfiles. by apply foldl_remove_files_other.
  - rewrite Htot. destruct Hstop' as [->|]; [|done].
    simpl. apply AUDIO_CACHE_MAX_BYTES_nonneg.
Qed.


(** ** The download, step by step *)

Lemma download_body_unfold (j : job) (w : world) :
  download_body j w
  = if mkdir_fails w then (Throw (FsError "mkdir" AUDIO_CACHE_DIR), w)
    else
      match network w (job_url j) with
      | NetFail => (Throw (NetworkError (job_url j)), after_get j w)
      | NetResponse response =>
          match resp_stream response with
          | StreamBroken k =>
              (Throw (PipelineError (job_base j +:+ ".tmp")),
               after_write j (take k (resp_data response)) w)
          | StreamDone =>
              if rename_fails w then
                (Throw (FsError "rename" (job_base j +:+ ".tmp")),
                 after_write j (resp_data response) w)
              else if writeFile_fails w then
                (Throw (FsError "write" (job_base j +:+ ".json")),
                 after_rename j (resp_data response) w)
              else
                (Ok (job_base j +:+ ".bin"),
                 (enforceCacheSizeLimit (after_meta j response w)).2)
          end
      end.
Proof.
  unfold download_body, ensureCacheDir, bind at 1, fs.mkdir.
  destruct (mkdir_fails w) eqn:Hmk; [done|].
  fold (after_mkdir w).
  unfold bind at 1, axios_get. simpl.
  destruct (network w (job_url j)) as [|response] eqn:Hnet; [done|].
  fold (after_get j w).
  unfold bind at 1, pipeline_to_file.
  destruct (resp_stream response) as [|k] eqn:Hs; [|done].
  simpl. fold (after_write j (resp_data response) w).
  unfold bind at 1, fs.rename. simpl.
  destruct (rename_fails w) eqn:Hrn; [done|].
  rewrite lookup_insert_eq.
  fold (after_rename j (resp_data response) w).
  unfold bind at 1, Date_now. simpl.
  unfold bind at 1, writeCacheMetadata, fs.writeFile. simpl.
  destruct (writeFile_fails w) eqn:Hwf; [done|].
  fold (after_meta j response w).
  unfold bind, ret.
  destruct (enforceCacheSizeLimit_spec (after_meta j response w))
    as (w' & ps & -> & _). done.
Qed.

(** ** The in-flight registry *)

Lemma unlinked_registry (ps : list string) (w w' : world) :
  unlinked ps w w' ->
  inflightDownloads w' = inflightDownloads w /\ promises w' = promises w.
Proof. unfold unlinked. intros H. by destruct_and!. Qed.

Lemma download_body_registry (j : job) (w : world) :
  inflightDownloads (download_body j w).2 = inflightDownloads w
  /\ promises (download_body j w).2 = promises w.
Proof.
  rewrite download_body_unfold.
  destruct (mkdir_fails w); [done|].
  destruct (network w (job_url j)) as [|response]; [done|].
  destruct (resp_stream response); [|done].
  destruct (rename_fails w); [done|].
  destruct (writeFile_fails w); [done|].
  destruct (enforceCacheSizeLimit_spec (after_meta j response w))
    as (w' & ps & -> & Hu & _).
  by apply unlinked_registry in Hu.
Qed.

Lemma settle_pending (h : nat) (j : job) (w : world) :
  promises w !! h = Some (Pending j) ->
  inflightDownloads (settle h w) = delete (job_base j) (inflightDownloads w)
  /\ promises (settle h w)
     = <[h := match (download_body j w).1 with
              | Ok p => Fulfilled p
              | Throw e => Rejected e
              end]> (promises w)
  /\ files (settle h w) = files (download_body j w).2
  /\ trace (settle h w) = trace (download_body j w).2
  /\ read_fault (settle h w) = read_fault (download_body j w).2.
Proof.
  intros H. unfold settle. rewrite H.
  destruct (download_body_registry j w) as [Hi Hp].
  destruct (download_body j w) as [r w']. simpl in *.
  by rewrite Hi, Hp.
Qed.

Lemma settle_settled (h : nat) (w : world) :
  (forall j, promises w !! h <> Some (Pending j)) -> settle h w = w.
Proof.
  intros H. unfold settle.
  destruct (promises w !! h) as [[j| |]|] eqn:E; try done. by destruct (H j).
Qed.

Lemma settle_outcome (h : nat) (j : job) (w : world) :
  promises w !! h = Some (Pending j) ->
  promises (settle h w) !! h
  = Some (match (download_body j w).1 with
          | Ok p => Fulfilled p
          | Throw e => Rejected e
          end).
Proof.
  intros H. destruct (settle_pending h j w H) as (_ & -> & _).
  apply list_lookup_insert_eq. by eapply lookup_lt_Some.
Qed.

Lemma settle_idempotent (h : nat) (w : world) :
  settle h (settle h w) = settle h w.
Proof.
  destruct (promises w !! h) as [[j| |]|] eqn:E.
  - apply settle_settled. intros j'.
    rewrite (settle_outcome h j w E). by destruct (download_body j w).1.
  - assert (settle h w = w) as Hs
      by (apply settle_settled; intros j'; by rewrite E).
    by rewrite !Hs.
  - assert (settle h w = w) as Hs
      by (apply settle_settled; intros j'; by rewrite E).
    by rewrite !Hs.
  - assert (settle h w = w) as Hs
      by (apply settle_settled; intros j'; by rewrite E).
    by rewrite !Hs.
Qed.

(** C1: a call for a path that is in flight returns the registered handle
    and changes nothing; a call for a path that is not registers exactly
    one new pending fetch; requests for one key that arrive before the
    fetch settles all get that one handle; when the fetch settles, with
    either outcome, the path leaves the registry, and the next call starts
    a fresh fetch. *)
Theorem single_flight :
  (forall cacheBasePath url headers extraMetadata w h,
      inflightDownloads w !! cacheBasePath = Some h ->
      downloadAndCacheAudio cacheBasePath url headers extraMetadata w
      = (Ok h, w)) /\
  (forall cacheBasePath url headers extraMetadata w,
      inflightDownloads w !! cacheBasePath = None ->
      exists w',
        downloadAndCacheAudio cacheBasePath url headers extraMetadata w
        = (Ok (length (promises w)), w')
        /\ inflightDownloads w'
           = <[cacheBasePath := length (promises w)]> (inflightDownloads w)
        /\ promises w'
           = promises w
             ++ [Pending {| job_base := cacheBasePath; job_url := url;
                            job_headers := headers;
                            job_metadata := extraMetadata |}]
        /\ files w' = files w /\ trace w' = trace w) /\
  (forall cacheBasePath url headers extraMetadata rest w,
      inflightDownloads w !! cacheBasePath = None ->
      let first :=
        downloadAndCacheAudio cacheBasePath url headers extraMetadata w in
      concurrent_calls cacheBasePath ((url, headers, extraMetadata) :: rest) w
      = (replicate (S (length rest)) (length (promises w)), first.2)
      /\ length (promises first.2) = S (length (promises w))) /\
  (forall h j w,
      promises w !! h = Some (Pending j) ->
      inflightDownloads (settle h w)
      = delete (job_base j) (inflightDownloads w)
      /\ inflightDownloads (settle h w) !! job_base j = None
      /\ promises (settle h w) !! h
         = Some (match (download_body j w).1 with
                 | Ok p => Fulfilled p
                 | Throw e => Rejected e
                 end)) /\
  (forall h j w url headers extraMetadata,
      promises w !! h = Some (Pending j) ->
      exists w',
        downloadAndCacheAudio (job_base j) url headers extraMetadata
          (settle h w)
        = (Ok (length (promises w)), w')
        /\ length (promises w) <> h
        /\ promises w' !! length (promises w)
           = Some (Pending {| job_base := job_base j; job_url := url;
                              job_headers := headers;
                              job_metadata := extraMetadata |})).
Proof.
  split_and!.
  - intros b url hd ex w h H. unfold downloadAndCacheAudio. by rewrite H.
  - intros b url hd ex w H. unfold downloadAndCacheAudio. rewrite H.
    eexists. by split_and!.
  - intros b url hd ex rest w H first. subst first.
    unfold concurrent_calls; fold concurrent_calls.
    unfold downloadAndCacheAudio at 1 2 3. rewrite H. simpl.
    set (w1 := register _ w).
    assert (Hw1 : inflightDownloads w1 !! b = Some (length (promises w))).
    { subst w1. simpl. apply lookup_insert_eq. }
    split; [|by rewrite length_app; simpl; lia].
    clearbody w1. clear H.
    induction rest as [|[[u hd'] ex'] rest IH]; simpl; [done|].
    unfold downloadAndCacheAudio at 1. rewrite Hw1.
    destruct (concurrent_calls b rest w1) as [hs w2].
    by injection IH as -> ->.
  - intros h j w H. destruct (settle_pending h j w H) as (Hi & _).
    split; [done|]. split; [|by apply settle_outcome].
    rewrite Hi. apply lookup_delete_eq.
  - intros h j w url hd ex H.
    destruct (settle_pending h j w H) as (Hi & Hp & _).
    unfold downloadAndCacheAudio. rewrite Hi, lookup_delete_eq.
    rewrite Hp, length_insert.
    eexists. split; [done|].
    apply lookup_lt_Some in H. split; [lia|]. simpl.
    rewrite Hp. rewrite lookup_app_r; rewrite length_insert; [|lia].
    by rewrite Nat.sub_diag.
Qed.

(** ** Order and targets of the writes of a download *)

Lemma trace_after_get (j : job) (w : world) :
  trace (after_get j w)
  = trace w ++ [EvMkdir AUDIO_CACHE_DIR; EvHttpGet (job_url j) (job_headers j)].
Proof. unfold after_get, after_mkdir. simpl. by rewrite <- !app_assoc. Qed.

Lemma trace_after_write (j : job) (chunk : list byte) (w : world) :
  trace (after_write j chunk w)
  = trace w ++ [EvMkdir AUDIO_CACHE_DIR; EvHttpGet (job_url j) (job_headers j);
                EvWrite (job_base j +:+ ".tmp") chunk].
Proof.
  unfold after_write, after_get, after_mkdir. simpl. by rewrite <- !app_assoc.
Qed.

Lemma trace_after_rename (j : job) (bytes : list byte) (w : world) :
  trace (after_rename j bytes w)
  = trace w ++ [EvMkdir AUDIO_CACHE_DIR; EvHttpGet (job_url j) (job_headers j);
                EvWrite (job_base j +:+ ".tmp") bytes;
                EvRename (job_base j +:+ ".tmp") (job_base j +:+ ".bin")].
Proof.
  unfold after_rename, after_write, after_get, after_mkdir. simpl.
  by rewrite <- !app_assoc.
Qed.

Lemma trace_after_meta (j : job) (response : upstream_response) (w : world) :
  trace (after_meta j response w)
  = trace w ++ [EvMkdir AUDIO_CACHE_DIR; EvHttpGet (job_url j) (job_headers j);
                EvWrite (job_base j +:+ ".tmp") (resp_data response);
                EvRename (job_base j +:+ ".tmp") (job_base j +:+ ".bin");
                EvWriteFile (job_base j +:+ ".json")
                  (JSON_stringify
                     (fetched_metadata response (clock w) (job_url j)
                        (job_metadata j)))].
Proof.
  unfold after_meta, after_rename, after_write, after_get, after_mkdir. simpl.
  by rewrite <- !app_assoc.
Qed.

Lemma tmp_ne_bin (b1 b2 : string) : b1 +:+ ".tmp" <> b2 +:+ ".bin".
Proof. by apply append_suffix_ne. Qed.

Lemma tmp_ne_json (b1 b2 : string) : b1 +:+ ".tmp" <> b2 +:+ ".json".
Proof.
  change ".json" with ("." +:+ "json"). rewrite <- append_assoc.
  by apply append_suffix_ne.
Qed.

Lemma files_after_write (j : job) (chunk : list byte) (w : world) (p : string) :
  p <> job_base j +:+ ".tmp" ->
  files (after_write j chunk w) !! p = files w !! p.
Proof. intros H. unfold after_write; simpl. by rewrite lookup_insert_ne. Qed.

Lemma files_after_meta (j : job) (response : upstream_response) (w : world) :
  files (after_meta j response w) !! (job_base j +:+ ".bin")
  = Some (File (resp_data response) (clock w))
  /\ is_Some (files (after_meta j response w) !! (job_base j +:+ ".json")).
Proof.
  unfold after_meta, after_rename; simpl. split.
  - rewrite lookup_insert_ne by (symmetry; apply bin_ne_json).
    by rewrite lookup_insert_eq.
  - rewrite lookup_insert_eq. by eexists.
Qed.

Ltac in_events H :=
  repeat (apply elem_of_cons in H as [H|H]; [try discriminate H|]);
  try (apply elem_of_nil in H; contradiction).

Ltac ev_auto :=
  try done;
  try (let H := fresh in
       intros ? ? H; in_events H; try (injection H as -> _); done);
  try (let H := fresh in let i := fresh in
       intros i ? ? H;
       do 5 (try (destruct i as [|i]; simpl in H; [try discriminate H|]));
       discriminate H).

Ltac at_index i H :=
  do 5 (try (destruct i as [|i]; simpl in H; [try discriminate H|]));
  try discriminate H.

(** C2: a download writes the received bytes to the [.tmp] path only; the
    [.bin] path appears only as the target of a rename of the [.tmp] file,
    made after the whole body was written to it; the [.json] file is
    written after that rename.  A download that meets no fault does just
    that, in that order: while the body is written the [.bin] path is as
    it was, after the rename it holds the whole body, then the metadata is
    written and the promise fulfils with the [.bin] path.  A failure up to
    and including the rename leaves the [.bin] and [.json] paths as they
    were and rejects the promise, and every caller that awaits that
    promise gets the rejection. *)
Theorem download_is_atomic (j : job) (w : world) :
  let tempPath := job_base j +:+ ".tmp" in
  let cachePath := job_base j +:+ ".bin" in
  let metaPath := job_base j +:+ ".json" in
  let r := (download_body j w).1 in
  let w' := (download_body j w).2 in
  exists evs,
    trace w' = trace w ++ evs
    /\ (forall p chunk, EvWrite p chunk ∈ evs -> p = tempPath)
    /\ (forall p text, EvWriteFile p text ∈ evs -> p = metaPath)
    /\ (forall i src dst,
          evs !! i = Some (EvRename src dst) ->
          src = tempPath /\ dst = cachePath
          /\ exists k response,
               (k < i)%nat
               /\ network w (job_url j) = NetResponse response
               /\ resp_stream response = StreamDone
               /\ evs !! k = Some (EvWrite tempPath (resp_data response)))
    /\ (forall i p text,
          evs !! i = Some (EvWriteFile p text) ->
          exists k, (k < i)%nat /\ evs !! k = Some (EvRename tempPath cachePath))
    /\ (mkdir_fails w = true
        \/ network w (job_url j) = NetFail
        \/ (exists response k, network w (job_url j) = NetResponse response
                               /\ resp_stream response = StreamBroken k)
        \/ rename_fails w = true ->
        (exists e, r = Throw e)
        /\ files w' !! cachePath = files w !! cachePath
        /\ files w' !! metaPath = files w !! metaPath
        /\ (forall src dst, EvRename src dst ∉ evs)
        /\ (forall p text, EvWriteFile p text ∉ evs))
    /\ (forall h e,
          promises w !! h = Some (Pending j) ->
          r = Throw e ->
          promises (settle h w) !! h = Some (Rejected e)
          /\ await h w = (Throw e, settle h w)
          /\ await h (settle h w) = (Throw e, settle h w))
    /\ (forall response,
          mkdir_fails w = false ->
          network w (job_url j) = NetResponse response ->
          resp_stream response = StreamDone ->
          rename_fails w = false -> writeFile_fails w = false ->
          let text :=
            JSON_stringify
              (fetched_metadata response (clock w) (job_url j)
                 (job_metadata j)) in
          r = Ok cachePath
          /\ w' = (enforceCacheSizeLimit (after_meta j response w)).2
          /\ (AUDIO_CACHE_MAX_BYTES = 0 -> w' = after_meta j response w)
          /\ (exists ps,
                evs = [EvMkdir AUDIO_CACHE_DIR;
                       EvHttpGet (job_url j) (job_headers j);
                       EvWrite tempPath (resp_data response);
                       EvRename tempPath cachePath;
                       EvWriteFile metaPath text] ++ (EvUnlink <$> ps))
          /\ files (after_write j (resp_data response) w) !! tempPath
             = Some (File (resp_data response) (clock w))
          /\ files (after_write j (resp_data response) w) !! cachePath
             = files w !! cachePath
          /\ files (after_rename j (resp_data response) w) !! cachePath
             = Some (File (resp_data response) (clock w))
          /\ files (after_meta j response w) !! tempPath = None
          /\ files (after_meta j response w) !! cachePath
             = Some (File (resp_data response) (clock w))
          /\ files (after_meta j response w) !! metaPath
             = Some (File text (clock w))).
Proof.
  intros tempPath cachePath metaPath r w'.
  assert (Hcallers : forall h e,
            promises w !! h = Some (Pending j) -> r = Throw e ->
            promises (settle h w) !! h = Some (Rejected e)
            /\ await h w = (Throw e, settle h w)
            /\ await h (settle h w) = (Throw e, settle h w)).
  { intros h e Hp Hr. pose proof (settle_outcome h j w Hp) as Ho.
    fold r in Ho. rewrite Hr in Ho.
    split; [done|]. unfold await. rewrite settle_idempotent, Ho. done. }
  revert Hcallers. subst r w'. rewrite download_body_unfold.
  destruct (mkdir_fails w) eqn:Hmk.
  { intros Hc. exists []. simpl. rewrite app_nil_r.
    split_and!; ev_auto; try (intros; congruence).
    intros _. split_and!; ev_auto. by eexists. }
  destruct (network w (job_url j)) as [|response] eqn:Hnet.
  { intros Hc. eexists. simpl. split; [apply trace_after_get|].
    split_and!; ev_auto; try (intros; congruence).
    intros _. split_and!; ev_auto. by eexists. }
  destruct (resp_stream response) as [|k] eqn:Hs.
  2:{ intros Hc. eexists. simpl. split; [apply trace_after_write|].
      split_and!; ev_auto; try (intros; congruence).
      intros _. split_and!; ev_auto.
      - by eexists.
      - apply files_after_write. symmetry. apply tmp_ne_bin.
      - apply files_after_write. symmetry. apply tmp_ne_json. }
  destruct (rename_fails w) eqn:Hrn.
  { intros Hc. eexists. simpl. split; [apply trace_after_write|].
    split_and!; ev_auto; try (intros; congruence).
    intros _. split_and!; ev_auto.
    - by eexists.
    - apply files_after_write. symmetry. apply tmp_ne_bin.
    - apply files_after_write. symmetry. apply tmp_ne_json. }
  destruct (writeFile_fails w) eqn:Hwf.
  { intros Hc. eexists. simpl. split; [apply trace_after_rename|].
    split_and!; ev_auto; try (intros; congruence).
    - intros i s d H. at_index i H. injection H as <- <-.
      split; [done|]. split; [done|].
      exists 2%nat, response. by split_and!; [lia|..].
    - intros [?|[?|[(? & ? & ? & ?)|?]]]; congruence. }
  intros Hc.
  destruct (enforceCacheSizeLimit_spec (after_meta j response w))
    as (w1 & ps & Hrun & Hu & _).
  rewrite Hrun in *. simpl in *.
  destruct Hu as (_ & Ht & _). rewrite trace_after_meta, <- app_assoc in Ht.
  eexists. split; [exact Ht|].
  split_and!; try done.
  - intros p c H. apply elem_of_app in H as [H|H].
    + in_events H. by injection H as -> _.
    + by apply list_elem_of_fmap in H as (q & ? & _).
  - intros p c H. apply elem_of_app in H as [H|H].
    + in_events H. by injection H as -> _.
    + by apply list_elem_of_fmap in H as (q & ? & _).
  - intros i s d H. at_index i H.
    + injection H as <- <-. split; [done|]. split; [done|].
      exists 2%nat, response. by split_and!; [lia|..].
    + rewrite list_lookup_fmap in H. by destruct (ps !! i).
  - intros i p t H. at_index i H.
    + exists 3%nat. split; [lia | done].
    + rewrite list_lookup_fmap in H. by destruct (ps !! i).
  - intros [?|[?|[(? & ? & ? & ?)|?]]]; congruence.
  - intros response' _ [= <-] _ _ _.
    split_and!.
    + done.
    + exact (eq_sym (f_equal snd Hrun)).
    + intros Hmax.
      destruct (enforceCacheSizeLimit_result (after_meta j response w))
        as (w1' & Hrun' & Hz & _).
      assert (w1' = w1) as ->.
      { pose proof (eq_trans (eq_sym Hrun') Hrun) as E. by injection E. }
      by apply Hz.
    + by exists ps.
    + apply lookup_insert_eq.
    + by rewrite lookup_insert_ne by apply tmp_ne_bin.
    + apply lookup_insert_eq.
    + rewrite lookup_insert_ne by (symmetry; apply tmp_ne_json).
      rewrite lookup_insert_ne by (symmetry; apply tmp_ne_bin).
      apply lookup_delete_eq.
    + rewrite lookup_insert_ne by (symmetry; apply bin_ne_json).
      apply lookup_insert_eq.
    + apply lookup_insert_eq.
Qed.

(** ** A download larger than the budget *)

Lemma sum_sizes_nonneg (l : list audio_entry) :
  (forall x, x ∈ l -> 0 <= entry_size x) -> 0 <= sum_sizes l.
Proof.
  induction l as [|y l IH]; intros Hpos; simpl; [lia|].
  assert (0 <= entry_size y) by (apply Hpos; by left).
  assert (0 <= sum_sizes l); [|lia].
  apply IH. intros z Hz. apply Hpos. by right.
Qed.

(** A cache key without [/] is a name of one component. *)
Lemma cacheKey_entry_name (id : string) (br level : option string) :
  Str.includes_char "/" (cacheKey id br level) = false ->
  Path.entry_name (cacheKey id br level) = true.
Proof.
  intros H. apply entry_name_spec. unfold cacheKey in *.
  set (tok := default "default" _) in *.
  assert (Hu : Str.includes_char "_" (id +:+ "_" +:+ tok) = true).
  { rewrite includes_char_app. simpl. by rewrite orb_true_r. }
  split_and!; [|done| |]; intros E; by rewrite E in Hu.
Qed.

Lemma entry_name_bin (key : string) :
  Str.includes_char "/" key = false ->
  Path.entry_name (key +:+ ".bin") = true.
Proof. intros H. apply entry_name_suffix; [done | done | simpl; lia]. Qed.

Lemma blob_entry_of_base (m : gmap string file) (key : string) (f : file) :
  Path.entry_name key = true ->
  m !! (path_join AUDIO_CACHE_DIR key +:+ ".bin") = Some f ->
  blob_entry m (key +:+ ".bin")
  = Some {| base := path_join AUDIO_CACHE_DIR key;
            entry_size := size (stats_of f);
            entry_mtimeMs := mtimeMs (stats_of f) |}.
Proof.
  intros Hk H. pose proof Hk as (_ & Hsl & _)%entry_name_spec.
  unfold blob_entry.
  rewrite endsWith_app, <- path_join_base, H by (done || by apply entry_name_bin).
  pose proof (slice_end_app (path_join AUDIO_CACHE_DIR key) ".bin") as Hs.
  change (String.length ".bin") with 4%nat in Hs. by rewrite Hs.
Qed.

Lemma blob_entry_of_path (m : gmap string file) (p : string) (f : file) :
  m !! p = Some f -> is_blob p = true ->
  exists e,
    e ∈ omap (blob_entry m) (fs.children AUDIO_CACHE_DIR m)
    /\ base e +:+ ".bin" = p
    /\ entry_size e = size (stats_of f)
    /\ entry_mtimeMs e = mtime f.
Proof.
  intros Hf Hb. unfold is_blob in Hb.
  destruct (fs.entry_of _ p) as [name|] eqn:E; [|done].
  apply entry_of_Some in E as [Hn ->].
  assert (He : blob_entry m name
               = Some {| base := Str.slice_end (path_join AUDIO_CACHE_DIR name) 4;
                         entry_size := size (stats_of f);
                         entry_mtimeMs := mtimeMs (stats_of f) |}).
  { unfold blob_entry. rewrite Hb, Hf. reflexivity. }
  exists {| base := Str.slice_end (path_join AUDIO_CACHE_DIR name) 4;
            entry_size := size (stats_of f);
            entry_mtimeMs := mtimeMs (stats_of f) |}.
  split_and!; [| |done|done].
  - apply list_elem_of_omap. exists name. split; [|exact He].
    apply elem_of_children. split; [done | by eexists].
  - by apply (blob_entry_Some m name _ Hn He).
Qed.

Lemma oversized_blob_is_evicted (j : job) (key : string)
    (response : upstream_response) (w : world) :
  job_base j = path_join AUDIO_CACHE_DIR key ->
  Path.entry_name key = true ->
  AUDIO_CACHE_MAX_BYTES <> 0 ->
  mkdir_fails w = false -> rename_fails w = false ->
  writeFile_fails w = false -> unlink_fails w = false ->
  network w (job_url j) = NetResponse response ->
  resp_stream response = StreamDone ->
  AUDIO_CACHE_MAX_BYTES < Z.of_nat (length (resp_data response)) ->
  (download_body j w).1 = Ok (job_base j +:+ ".bin")
  /\ files (download_body j w).2 !! (job_base j +:+ ".bin") = None
  /\ files (download_body j w).2 !! (job_base j +:+ ".json") = None
  /\ (forall p f,
        files (after_meta j response w) !! p = Some f ->
        is_blob p = true -> mtime f < clock w ->
        files (download_body j w).2 !! p = None)
  /\ read_fault (download_body j w).2 = read_fault w.
Proof.
  intros Hbase Hkey Hmax Hmk Hrn Hwf Hul Hnet Hs Hbig.
  pose proof Hkey as (_ & Hsl & _)%entry_name_spec.
  rewrite download_body_unfold, Hmk, Hnet, Hs, Hrn, Hwf.
  destruct (enforceCacheSizeLimit_result (after_meta j response w))
    as (w1 & Hrun & _ & _ & H).
  destruct (enforceCacheSizeLimit_spec (after_meta j response w))
    as (w1' & ps & Hrun' & Hu & _).
  rewrite Hrun in Hrun'. injection Hrun' as <-.
  rewrite Hrun. cbn [fst snd].
  destruct H as (removed & kept & Hsplit & Hfiles & Hmatch & Hord & _
                 & Hgone & _ & Hstop & _); [done | simpl; set_solver | done |].
  destruct (files_after_meta j response w) as [Hbin _].
  set (m := files (after_meta j response w)) in *.
  set (e0 := {| base := path_join AUDIO_CACHE_DIR key;
                entry_size := size (stats_of (File (resp_data response) (clock w)));
                entry_mtimeMs := mtimeMs (stats_of (File (resp_data response) (clock w))) |}).
  assert (Hin : forall e, e ∈ omap (blob_entry m) (fs.children AUDIO_CACHE_DIR m) ->
                          e ∈ removed ++ kept).
  { intros e He. rewrite <- Hsplit. by rewrite sort_by_mtime_perm. }
  assert (Hpos : forall x, x ∈ kept -> 0 <= entry_size x).
  { intros x Hx. destruct (Hmatch x) as (_ & f & _ & -> & _).
    - apply elem_of_app. by right.
    - simpl. lia. }
  assert (He0 : e0 ∈ removed).
  { assert (e0 ∈ removed ++ kept) as [H|H]%elem_of_app; [|done|].
    - apply Hin, list_elem_of_omap. exists (key +:+ ".bin"). split.
      + apply elem_of_children. split; [by apply entry_name_bin|].
        rewrite <- path_join_base, <- Hbase by (done || by apply entry_name_bin).
        by eexists.
      + apply blob_entry_of_base; [done|]. by rewrite <- Hbase.
    - exfalso. pose proof (sum_sizes_elem kept e0 Hpos H) as Hle.
      destruct Hstop as [->|Hstop]; [by apply elem_of_nil in H|].
      subst e0. simpl in Hle. lia. }
  destruct (Hgone e0 He0) as [Hg1 Hg2]. subst e0. cbn [base] in Hg1, Hg2.
  rewrite <- Hbase in Hg1, Hg2.
  split; [done|]. split; [done|]. split; [done|]. split.
  - intros p f Hf Hb Hold.
    destruct (blob_entry_of_path m p f Hf Hb) as (e & He & Hp & _ & Hm).
    apply Hin, elem_of_app in He as [He|He].
    + rewrite <- Hp. by apply Hgone.
    + pose proof (Hord _ _ He0 He) as Hle. simpl in Hle. lia.
  - unfold unlinked in Hu. destruct_and!.
    unfold after_meta, after_rename, after_write, after_get, after_mkdir in *.
    simpl in *. congruence.
Qed.

(** ** The handler, branch by branch *)

Lemma getCacheStatus_missing (p : string) (w : world) :
  files w !! p = None ->
  getCacheStatus p w = (Ok {| valid := false; reason := Some "missing" |}, w).
Proof.
  intros H. unfold getCacheStatus, try_catch, bind, fs.stat. by rewrite H.
Qed.

Lemma getCacheStatus_present (p : string) (w : world) (f : file) :
  files w !! p = Some f ->
  getCacheStatus p w
  = (Ok (if (0 <? AUDIO_CACHE_TTL_MS)
            && (AUDIO_CACHE_TTL_MS <? clock w - mtime f)
         then {| valid := false; reason := Some "expired" |}
         else {| valid := true; reason := None |}), w).
Proof.
  intros H. unfold getCacheStatus, try_catch, bind, fs.stat, Date_now.
  rewrite H. simpl. by destruct (_ && _).
Qed.

Lemma audio_handler_total (req : request) (w : world) :
  exists r w', audio_handler req w = (Ok r, w').
Proof.
  unfold audio_handler.
  destruct (String.eqb (params_id req) EmptyString); [by eexists _, _|].
  unfold try_catch at 1.
  match goal with |- context [match ?c w with _ => _ end] =>
    destruct (c w) as [[r|e] w'] end; by eexists _, _.
Qed.

Lemma audio_handler_miss (req : request) (w : world) :
  params_id req <> EmptyString ->
  files w !! (path_join AUDIO_CACHE_DIR
                (cacheKey (params_id req) (query_br req) (query_level req))
              +:+ ".bin") = None ->
  audio_handler req w
  = try_catch (resolve_and_fetch req) (fun _ => ret proxy_failed) w.
Proof.
  intros Hid Hf. unfold audio_handler.
  destruct (String.eqb_spec (params_id req) EmptyString) as [|_]; [done|].
  unfold try_catch, bind at 1.
  rewrite (getCacheStatus_missing _ _ Hf). reflexivity.
Qed.

Lemma audio_handler_expired (req : request) (w : world) (f : file) :
  let cacheBasePath :=
    path_join AUDIO_CACHE_DIR
      (cacheKey (params_id req) (query_br req) (query_level req)) in
  params_id req <> EmptyString ->
  files w !! (cacheBasePath +:+ ".bin") = Some f ->
  0 < AUDIO_CACHE_TTL_MS ->
  AUDIO_CACHE_TTL_MS < clock w - mtime f ->
  audio_handler req w
  = try_catch (resolve_and_fetch req) (fun _ => ret proxy_failed)
      (removeCacheEntry cacheBasePath w).2.
Proof.
  intros base Hid Hf Httl Hage. unfold audio_handler. fold base.
  destruct (String.eqb_spec (params_id req) EmptyString) as [|_]; [done|].
  unfold try_catch, bind at 1.
  rewrite (getCacheStatus_present _ _ f Hf).
  destruct (Z.ltb_spec 0 AUDIO_CACHE_TTL_MS); [|lia].
  destruct (Z.ltb_spec AUDIO_CACHE_TTL_MS (clock w - mtime f)); [|lia].
  cbn [andb valid reason]. rewrite decide_True by done.
  unfold bind.
  destruct (removeCacheEntry_spec base w) as (w1 & ps & -> & _). done.
Qed.

Lemma resolve_and_fetch_unfold (req : request) (w : world) :
  let id := params_id req in
  let bitrate := if truthy (query_br req) then query_br req else None in
  let cacheBasePath :=
    path_join AUDIO_CACHE_DIR (cacheKey id (query_br req) (query_level req)) in
  let w1 := log (EvResolve id bitrate (query_level req)) w in
  resolve_and_fetch req w
  = match songUrlModule {| q_id := id; q_br := bitrate;
                           q_level := query_level req;
                           q_cookie := cookies req |} with
    | ResolverRejects e => (Throw e, w1)
    | ResolverReturns moduleResponse =>
        if negb (status moduleResponse =? 200) then
          (res.status_send (status moduleResponse)
             (match body moduleResponse with
              | Some b => ResolverBody b
              | None => CodeOnly (status moduleResponse)
              end) res.fresh, w1)
        else
          match body moduleResponse ≫= data with
          | None | Some [] =>
              (Ok (res.status_json 404 (CodeMsg 404 "Song url not found")
                     res.fresh), w1)
          | Some ((first :: _) as data) =>
              let target :=
                default first
                  (List.find (fun item => String.eqb (item_id item) id) data) in
              if negb (truthy (item_url target)) then
                (Ok (res.status_json 403
                       (CodeMsg 403
                          "No playable URL returned (maybe VIP / region restricted)")
                       res.fresh), w1)
              else fetch_and_stream id cacheBasePath target w1
          end
    end.
Proof.
  intros id bitrate base w1. unfold resolve_and_fetch, bind at 1, call_resolver.
  cbn [q_id q_br q_level]. fold id bitrate base w1.
  destruct (songUrlModule _) as [e|mr]; [done|].
  destruct (negb (status mr =? 200)); [done|].
  destruct (body mr ≫= data) as [[|first rest]|]; try done.
  by destruct (negb (truthy _)).
Qed.

Lemma fetch_and_stream_fresh (id cacheBasePath : string) (target : song_item)
    (w : world) :
  inflightDownloads w !! cacheBasePath = None ->
  let j := fetch_job id cacheBasePath target in
  let w1 := register j w in
  let w2 := settle (length (promises w)) w1 in
  promises w1 !! length (promises w) = Some (Pending j)
  /\ fetch_and_stream id cacheBasePath target w
     = match (download_body j w1).1 with
       | Ok _ =>
           (let* metadata := readCacheMetadata (cacheBasePath +:+ ".json") in
            streamCachedAudio res.fresh (cacheBasePath +:+ ".bin") metadata
              false) w2
       | Throw e => (Throw e, w2)
       end.
Proof.
  intros H j w1 w2.
  assert (Hp : promises w1 !! length (promises w) = Some (Pending j)).
  { subst w1. unfold register. simpl.
    rewrite lookup_app_r by lia. by rewrite Nat.sub_diag. }
  split; [done|].
  unfold fetch_and_stream, bind at 1, downloadAndCacheAudio. rewrite H.
  fold (fetch_job id cacheBasePath target). fold j. fold w1.
  unfold bind at 1, await. fold w2.
  subst w2. rewrite (settle_outcome _ j w1 Hp).
  by destruct (download_body j w1).1.
Qed.

(** ** The hit marker *)









(** ** The resolver's answer *)

Lemma try_catch_ok {A} (c : M A) (h : exn -> M A) (w w' : world) (a : A) :
  c w = (Ok a, w') -> try_catch c h w = (Ok a, w').
Proof. intros H. unfold try_catch. by rewrite H. Qed.

Lemma try_catch_throw {A} (c : M A) (h : exn -> M A) (w w' : world) (e : exn) :
  c w = (Throw e, w') -> try_catch c h w = h e w'.
Proof. intros H. unfold try_catch. by rewrite H. Qed.

Lemma status_send_spec (code : Z) (j : json_body) (r : response) :
  res.status_send code j r
  = if (100 <=? code) && (code <=? 999) then
      Ok {| statusCode := code; headers := headers r; headersSent := true;
            res_payload :=
              if (code <? 200) || (code =? 204) || (code =? 205)
                 || (code =? 304)
              then NoBody else JsonBody j;
            finished := true; destroyed := destroyed r |}
    else Throw (InvalidStatusCode code).
Proof.
  unfold res.status_send, res.valid_status, res.bodiless, res.status_json.
  destruct ((100 <=? code) && (code <=? 999)); [|done].
  by destruct ((code <? 200) || (code =? 204) || (code =? 205) || (code =? 304)).
Qed.

(** C6 (amended): on a miss, a resolver response with a status other
    than 200 is answered with that status when it is one an HTTP answer can
    carry (100 to 999): with the response's body when it has one, with
    [{ code: status }] when it has none, and with no body at all for the
    statuses 1xx, 204 and 304 (for 205 the body depends on the version of
    Express and is left open); any other status makes [send] throw, and
    the answer is the 500 of the [catch] block.  Status 200 with a [data]
    that is no non-empty array gives 404; a target without a url gives 403;
    a rejection of the resolver, and any exception of the miss path, gives
    the 500 JSON answer; the handler itself never throws. *)
Theorem resolver_outcome_mapping (req : request) (w : world) :
  let id := params_id req in
  let bitrate := if truthy (query_br req) then query_br req else None in
  let cacheBasePath :=
    path_join AUDIO_CACHE_DIR (cacheKey id (query_br req) (query_level req)) in
  let q := {| q_id := id; q_br := bitrate; q_level := query_level req;
              q_cookie := cookies req |} in
  let w1 := log (EvResolve id bitrate (query_level req)) w in
  params_id req <> EmptyString ->
  files w !! (cacheBasePath +:+ ".bin") = None ->
  (forall mr,
      songUrlModule q = ResolverReturns mr -> status mr <> 200 ->
      let payload :=
        match body mr with
        | Some b => ResolverBody b
        | None => CodeOnly (status mr)
        end in
      (100 <= status mr <= 999 ->
       exists r,
         audio_handler req w = (Ok r, w1)
         /\ statusCode r = status mr
         /\ headers r = [] /\ finished r = true /\ destroyed r = false
         /\ (200 <= status mr -> status mr <> 204 -> status mr <> 205 ->
             status mr <> 304 ->
             r = res.status_json (status mr) payload res.fresh)
         /\ (status mr < 200 \/ status mr = 204 \/ status mr = 304 ->
             res_payload r = NoBody))
      /\ (status mr < 100 \/ 999 < status mr ->
          audio_handler req w = (Ok proxy_failed, w1))) /\
  (forall mr,
      songUrlModule q = ResolverReturns mr -> status mr = 200 ->
      body mr ≫= data = None \/ body mr ≫= data = Some [] ->
      audio_handler req w
      = (Ok (res.status_json 404 (CodeMsg 404 "Song url not found") res.fresh),
         w1)) /\
  (forall mr first rest,
      songUrlModule q = ResolverReturns mr -> status mr = 200 ->
      body mr ≫= data = Some (first :: rest) ->
      truthy (item_url
                (default first
                   (List.find (fun item => String.eqb (item_id item) id)
                      (first :: rest)))) = false ->
      audio_handler req w
      = (Ok (res.status_json 403
               (CodeMsg 403
                  "No playable URL returned (maybe VIP / region restricted)")
               res.fresh), w1)) /\
  (forall e,
      songUrlModule q = ResolverRejects e ->
      audio_handler req w = (Ok proxy_failed, w1)) /\
  (forall e w2,
      resolve_and_fetch req w = (Throw e, w2) ->
      audio_handler req w = (Ok proxy_failed, w2)) /\
  proxy_failed
  = Response 500 [] true (JsonBody (CodeMsg 500 "Audio proxy failed"))
      true false /\
  (forall req' w', exists r w'', audio_handler req' w' = (Ok r, w'')).
Proof.
  intros id bitrate base q w1 Hid Hmiss.
  rewrite (audio_handler_miss req w Hid Hmiss).
  pose proof (resolve_and_fetch_unfold req w) as Hu. cbv zeta in Hu.
  fold id bitrate base q w1 in Hu.
  split_and!.
  - intros mr Hr Hs payload.
    assert (Hrun : resolve_and_fetch req w
                   = (res.status_send (status mr) payload res.fresh, w1)).
    { rewrite Hu, Hr. by destruct (Z.eqb_spec (status mr) 200). }
    rewrite status_send_spec in Hrun. split.
    + intros [Hlo Hhi].
      destruct (Z.leb_spec 100 (status mr)); [|lia].
      destruct (Z.leb_spec (status mr) 999); [|lia].
      cbn [andb] in Hrun. eexists. split; [by apply try_catch_ok|].
      cbn [statusCode headers finished destroyed res_payload res.fresh].
      split_and!; try done.
      * intros H2 H204 H205 H304.
        destruct (Z.ltb_spec (status mr) 200); [lia|].
        destruct (Z.eqb_spec (status mr) 204); [lia|].
        destruct (Z.eqb_spec (status mr) 205); [lia|].
        by destruct (Z.eqb_spec (status mr) 304); [lia|].
      * intros [H1|[H1|H1]].
        -- by destruct (Z.ltb_spec (status mr) 200); [|lia].
        -- rewrite H1. done.
        -- rewrite H1. done.
    + intros Hout.
      assert ((100 <=? status mr) && (status mr <=? 999) = false) as Hv.
      { destruct (Z.leb_spec 100 (status mr)); [|done].
        by destruct (Z.leb_spec (status mr) 999); [lia|]. }
      rewrite Hv in Hrun. by erewrite try_catch_throw.
  - intros mr Hr Hs Hd. apply try_catch_ok. rewrite Hu, Hr, Hs. simpl.
    by destruct Hd as [-> | ->].
  - intros mr first rest Hr Hs Hd Hurl. apply try_catch_ok.
    rewrite Hu, Hr, Hs, Hd. change (negb (200 =? 200)) with false.
    cbv beta iota zeta. by rewrite Hurl.
  - intros e Hr. erewrite try_catch_throw; [done|]. by rewrite Hu, Hr.
  - intros e w2 Hr. by erewrite try_catch_throw.
  - done.
  - apply audio_handler_total.
Qed.

(** ** The target of the fetch *)






(** C10 (amended): with a positive budget, a download larger than the
    budget, a cache key that holds no [/] (so that the blob is a direct
    entry of the cache directory) and a file system that refuses no
    removal, the eviction run that ends the download removes every older
    blob and then the blob and metadata just written; the promise still
    fulfils with the blob's path, that path is no file any more, and the
    handler's stream of it fails with the status-500 JSON of the read
    error. *)
Theorem oversized_download_evicts_itself
    (req : request) (w : world) (mr : module_response)
    (first : song_item) (rest : list song_item)
    (response : upstream_response) :
  let id := params_id req in
  let bitrate := if truthy (query_br req) then query_br req else None in
  let cacheBasePath :=
    path_join AUDIO_CACHE_DIR (cacheKey id (query_br req) (query_level req)) in
  let q := {| q_id := id; q_br := bitrate; q_level := query_level req;
              q_cookie := cookies req |} in
  let target :=
    default first
      (List.find (fun item => String.eqb (item_id item) id) (first :: rest)) in
  let j := fetch_job id cacheBasePath target in
  let w1 := register j (log (EvResolve id bitrate (query_level req)) w) in
  let h := length (promises w) in
  params_id req <> EmptyString ->
  files w !! (cacheBasePath +:+ ".bin") = None ->
  inflightDownloads w !! cacheBasePath = None ->
  songUrlModule q = ResolverReturns mr ->
  status mr = 200 ->
  body mr ≫= data = Some (first :: rest) ->
  truthy (item_url target) = true ->
  Str.includes_char "/" (cacheKey id (query_br req) (query_level req)) = false ->
  AUDIO_CACHE_MAX_BYTES <> 0 ->
  mkdir_fails w = false -> rename_fails w = false ->
  writeFile_fails w = false -> unlink_fails w = false ->
  network w (default EmptyString (item_url target)) = NetResponse response ->
  resp_stream response = StreamDone ->
  AUDIO_CACHE_MAX_BYTES < Z.of_nat (length (resp_data response)) ->
  files (after_meta j response w1) !! (cacheBasePath +:+ ".bin")
    = Some (File (resp_data response) (clock w))
  /\ (download_body j w1).1 = Ok (cacheBasePath +:+ ".bin")
  /\ files (download_body j w1).2 !! (cacheBasePath +:+ ".bin") = None
  /\ files (download_body j w1).2 !! (cacheBasePath +:+ ".json") = None
  /\ (forall p f,
        files (after_meta j response w1) !! p = Some f ->
        is_blob p = true -> mtime f < clock w ->
        files (download_body j w1).2 !! p = None)
  /\ await h w1 = (Ok (cacheBasePath +:+ ".bin"), settle h w1)
  /\ files (settle h w1) !! (cacheBasePath +:+ ".bin") = None
  /\ audio_handler req w
     = (Ok (res.status_json 500 (CodeMsg 500 "Cache read error")
              (stream_headers res.fresh None false)), settle h w1).
Proof.
  intros id bitrate base q target j w1 h
    Hid Hmiss Hin Hr Hs Hd Hurl Hkey Hmax Hmk Hrn Hwf Hul Hnet Hst Hbig.
  set (w0 := log (EvResolve id bitrate (query_level req)) w) in *.
  destruct (oversized_blob_is_evicted j
              (cacheKey id (query_br req) (query_level req)) response w1)
    as (Hok & Hbin & Hjson & Hold & Hrf);
    try done; [by apply cacheKey_entry_name|].
  change (job_base j) with base in *.
  destruct (fetch_and_stream_fresh id base target w0 Hin) as [Hp Hfs].
  fold j in Hp, Hfs. fold w1 in Hp, Hfs.
  change (length (promises w0)) with h in *.
  destruct (settle_pending h j w1 Hp) as (_ & _ & Hf & _ & _).
  pose proof (settle_outcome h j w1 Hp) as Ho. rewrite Hok in Ho.
  assert (Hawait : await h w1 = (Ok (base +:+ ".bin"), settle h w1)).
  { unfold await. by rewrite Ho. }
  assert (Hgone : files (settle h w1) !! (base +:+ ".bin") = None)
    by by rewrite Hf.
  split; [exact (proj1 (files_after_meta j response w1))|].
  split_and!; try done.
  rewrite (audio_handler_miss req w Hid Hmiss).
  apply try_catch_ok.
  pose proof (resolve_and_fetch_unfold req w) as Hu. cbv zeta in Hu.
  fold id bitrate base q w0 in Hu.
  rewrite Hu, Hr, Hs, Hd. change (negb (200 =? 200)) with false.
  cbv beta iota zeta. fold target. rewrite Hurl. cbn [negb].
  rewrite Hfs, Hok.
  unfold bind, readCacheMetadata, try_catch, bind, fs.readFile.
  rewrite Hf, Hjson. cbn [ret].
  rewrite streamCachedAudio_unfold, Hgone.
  unfold on_read_error.
  by destruct (stream_headers_flags res.fresh None false) as (-> & _).
Qed.

(** ** Further properties of the cache *)

Lemma evict_loop_within (totalSize : Z) (l : list audio_entry) (w : world) :
  totalSize <= AUDIO_CACHE_MAX_BYTES -> evict_loop totalSize l w = (Ok tt, w).
Proof.
  intros H. destruct l as [|e l]; simpl; [done|].
  by destruct (Z.ltb_spec AUDIO_CACHE_MAX_BYTES totalSize); [lia|].
Qed.

Lemma enforce_within_budget (w : world) :
  blob_total (files w) <= AUDIO_CACHE_MAX_BYTES ->
  enforceCacheSizeLimit w = (Ok tt, w).
Proof.
  intros H. unfold enforceCacheSizeLimit.
  destruct (AUDIO_CACHE_MAX_BYTES =? 0); [done|].
  unfold bind at 1. unfold attempt, try_catch, bind, fs.readdir, ret.
  destruct (decide (AUDIO_CACHE_DIR ∈ dirs w)); simpl; [|done].
  rewrite collect_audio_entries_spec. simpl.
  apply evict_loop_within.
  rewrite total_size_sum, (sum_sizes_perm _ _ (sort_by_mtime_perm _)).
  by rewrite sum_sizes_blob_entries.
Qed.


(** X1: while the blob files of the directory weigh no more than the
    budget, [enforceCacheSizeLimit] changes nothing; as soon as they weigh
    more (budget set, directory listed) and the file system refuses no
    removal, it removes at least the blob with the smallest last-modified
    time. *)
Theorem eviction_only_over_budget (w : world) :
  (blob_total (files w) <= AUDIO_CACHE_MAX_BYTES ->
   enforceCacheSizeLimit w = (Ok tt, w)) /\
  (AUDIO_CACHE_MAX_BYTES <> 0 -> AUDIO_CACHE_DIR ∈ dirs w ->
   unlink_fails w = false ->
   AUDIO_CACHE_MAX_BYTES < blob_total (files w) ->
   exists e,
     e ∈ omap (blob_entry (files w)) (fs.children AUDIO_CACHE_DIR (files w))
     /\ (forall e',
           e' ∈ omap (blob_entry (files w))
                  (fs.children AUDIO_CACHE_DIR (files w)) ->
           entry_mtimeMs e <= entry_mtimeMs e')
     /\ is_Some (files w !! (base e +:+ ".bin"))
     /\ files (enforceCacheSizeLimit w).2 !! (base e +:+ ".bin") = None).
Proof.
  split; [apply enforce_within_budget|].
  intros Hmax Hdir Hul Hover.
  destruct (enforceCacheSizeLimit_result w) as (w' & Hrun & _ & _ & H).
  destruct (H Hmax Hdir Hul)
    as (removed & kept & Hsplit & Hfiles & Hmatch & _ & _ & Hgone & _ & _
        & Htot & Hle).
  rewrite Hrun. cbn [snd].
  destruct removed as [|e removed].
  { simpl in Hfiles. rewrite Hfiles in Hle. lia. }
  pose proof (sort_by_mtime_sorted
                (omap (blob_entry (files w))
                      (fs.children AUDIO_CACHE_DIR (files w)))) as Hs.
  rewrite Hsplit in Hs. simpl in Hs. apply StronglySorted_inv in Hs as [_ Hall].
  assert (Hin : forall x,
            x ∈ omap (blob_entry (files w))
                  (fs.children AUDIO_CACHE_DIR (files w))
            <-> x ∈ (e :: removed) ++ kept).
  { intros x. by rewrite <- Hsplit, sort_by_mtime_perm. }
  exists e. split_and!.
  - apply Hin. by left.
  - intros e' [->|He']%Hin%elem_of_cons; [lia|].
    rewrite Forall_forall in Hall. by apply Hall.
  - destruct (Hmatch e) as (_ & f & Hf & _); [by left | by eexists].
  - apply Hgone. by left.
Qed.

(** The paths [enforceCacheSizeLimit] leaves alone. *)
Lemma enforce_spares (w : world) :
  let w' := (enforceCacheSizeLimit w).2 in
  (forall b, files w' !! (b +:+ ".tmp") = files w !! (b +:+ ".tmp")) /\
  (forall b, files w !! (b +:+ ".bin") = None ->
             files w' !! (b +:+ ".json") = files w !! (b +:+ ".json")) /\
  (forall p, fs.entry_of AUDIO_CACHE_DIR p = None ->
             files w' !! p = files w !! p).
Proof.
  intros w'. subst w'.
  destruct (unlink_fails w) eqn:Hul; [by rewrite enforce_refused|].
  destruct (enforceCacheSizeLimit_result w) as (w' & Hrun & Hz & Hd & H).
  rewrite Hrun. cbn [snd].
  destruct (Z.eq_dec AUDIO_CACHE_MAX_BYTES 0) as [Hmax|Hmax];
    [by rewrite (Hz Hmax)|].
  destruct (decide (AUDIO_CACHE_DIR ∈ dirs w)) as [Hdir|Hdir];
    [|by rewrite (Hd Hdir)].
  destruct (H Hmax Hdir Hul)
    as (removed & kept & _ & _ & Hmatch & _ & _ & _ & Hframe & _).
  assert (Hrem : forall e, e ∈ removed ->
            is_blob (base e +:+ ".bin") = true
            /\ is_Some (files w !! (base e +:+ ".bin"))).
  { intros e He. destruct (Hmatch e) as (Hb & f & Hf & _).
    - apply elem_of_app. by left.
    - split; [done | by eexists]. }
  split_and!.
  - intros b. apply Hframe. intros e _.
    split; [apply tmp_ne_bin | apply tmp_ne_json].
  - intros b Hb. apply Hframe. intros e He.
    split; [intros Heq; symmetry in Heq; by apply bin_ne_json in Heq|].
    intros Heq%append_inj_r. subst b.
    destruct (Hrem e He) as [_ [f Hf]]. congruence.
  - intros p Hp. apply Hframe. intros e He.
    destruct (Hrem e He) as [Hb _].
    pose proof Hb as Hb'. unfold is_blob in Hb'.
    destruct (fs.entry_of _ (base e +:+ ".bin")) as [name|] eqn:E; [|done].
    split; [congruence|]. intros ->.
    apply entry_of_Some in E as [Hn E].
    pose proof Hn as (_ & Hsl & _)%entry_name_spec.
    apply (endsWith_slice name ".bin") in Hb'.
    set (n0 := Str.slice_end name (String.length ".bin")) in *.
    rewrite <- Hb', includes_char_app in Hsl.
    apply orb_false_iff in Hsl as [Hsl _].
    assert (Hj : Path.entry_name (n0 +:+ ".json") = true)
      by (apply entry_name_suffix; [done | done | simpl; lia]).
    rewrite join_entry_name, <- Hb', <- append_assoc in E by done.
    apply append_inj_r in E.
    assert (fs.entry_of AUDIO_CACHE_DIR (base e +:+ ".json")
            = Some (n0 +:+ ".json")); [|congruence].
    apply entry_of_Some. split; [done|].
    by rewrite join_entry_name, E, append_assoc.
Qed.

(** X2: [enforceCacheSizeLimit] never touches a [.tmp] file, a [.json]
    file whose [.bin] is absent, or a path that is no direct entry of the
    cache directory (a file elsewhere, or in a directory below it). *)
Theorem eviction_spares_temp_orphans_and_outsiders (w : world) :
  let w' := (enforceCacheSizeLimit w).2 in
  (forall b, files w' !! (b +:+ ".tmp") = files w !! (b +:+ ".tmp")) /\
  (forall b, files w !! (b +:+ ".bin") = None ->
             files w' !! (b +:+ ".json") = files w !! (b +:+ ".json")) /\
  (forall p, fs.entry_of AUDIO_CACHE_DIR p = None ->
             files w' !! p = files w !! p).
Proof. exact (enforce_spares w). Qed.



Lemma files_after_meta_tmp (j : job) (response : upstream_response) (w : world) :
  files (after_meta j response w) !! (job_base j +:+ ".tmp") = None.
Proof.
  unfold after_meta, after_rename; simpl.
  rewrite lookup_insert_ne by (symmetry; apply tmp_ne_json).
  rewrite lookup_insert_ne by (symmetry; apply tmp_ne_bin).
  apply lookup_delete_eq.
Qed.


(** X3: the [.tmp] file of a download holds the bytes received so far when
    the stream breaks, holds the whole body when the rename fails, and is
    gone after a successful download, whatever a previous attempt left. *)
Theorem temp_file_lifecycle (j : job) (w : world) (response : upstream_response) :
  mkdir_fails w = false ->
  network w (job_url j) = NetResponse response ->
  (forall k, resp_stream response = StreamBroken k ->
     (download_body j w).1 = Throw (PipelineError (job_base j +:+ ".tmp"))
     /\ files (download_body j w).2 !! (job_base j +:+ ".tmp")
        = Some (File (take k (resp_data response)) (clock w))) /\
  (resp_stream response = StreamDone -> rename_fails w = true ->
     (download_body j w).1 = Throw (FsError "rename" (job_base j +:+ ".tmp"))
     /\ files (download_body j w).2 !! (job_base j +:+ ".tmp")
        = Some (File (resp_data response) (clock w))) /\
  (resp_stream response = StreamDone -> rename_fails w = false ->
     writeFile_fails w = false ->
     (download_body j w).1 = Ok (job_base j +:+ ".bin")
     /\ files (download_body j w).2 !! (job_base j +:+ ".tmp") = None).
Proof.
  intros Hmk Hnet. rewrite download_body_unfold, Hmk, Hnet. split_and!.
  - intros k ->. split; [done|]. unfold after_write; simpl.
    apply lookup_insert_eq.
  - intros -> ->. split; [done|]. unfold after_write; simpl.
    apply lookup_insert_eq.
  - intros -> -> ->. split; [done|]. cbn [snd].
    destruct (enforce_spares (after_meta j response w)) as (Ht & _).
    rewrite Ht. apply files_after_meta_tmp.
Qed.

(** ** The handler on a miss that reaches the download *)





(** X5: on an expired entry the two files are unlinked before the resolver
    is asked: when the file system refuses no removal and the resolver then
    rejects or answers with a status other than 200, the client gets the
    error answer (the resolver's status when an HTTP answer can carry it,
    500 otherwise) and the entry is gone. *)
Theorem expired_entry_is_lost_when_resolution_fails
    (req : request) (w : world) (f : file) :
  let id := params_id req in
  let bitrate := if truthy (query_br req) then query_br req else None in
  let cacheBasePath :=
    path_join AUDIO_CACHE_DIR (cacheKey id (query_br req) (query_level req)) in
  let q := {| q_id := id; q_br := bitrate; q_level := query_level req;
              q_cookie := cookies req |} in
  params_id req <> EmptyString ->
  files w !! (cacheBasePath +:+ ".bin") = Some f ->
  0 < AUDIO_CACHE_TTL_MS -> AUDIO_CACHE_TTL_MS < clock w - mtime f ->
  unlink_fails w = false ->
  (exists e, songUrlModule q = ResolverRejects e)
  \/ (exists mr, songUrlModule q = ResolverReturns mr /\ status mr <> 200) ->
  exists r w',
    audio_handler req w = (Ok r, w')
    /\ statusCode r
       = match songUrlModule q with
         | ResolverRejects _ => 500
         | ResolverReturns mr =>
             if (100 <=? status mr) && (status mr <=? 999) then status mr
             else 500
         end
    /\ files w' !! (cacheBasePath +:+ ".bin") = None
    /\ files w' !! (cacheBasePath +:+ ".json") = None.
Proof.
  intros id bitrate base q Hid Hf Httl Hage Hul Hres.
  set (w1 := (removeCacheEntry base w).2).
  assert (He : audio_handler req w
               = try_catch (resolve_and_fetch req)
                   (fun _ => ret proxy_failed) w1)
    by by apply (audio_handler_expired req w f).
  rewrite He.
  assert (Hb : files w1 !! (base +:+ ".bin") = None).
  { subst w1. rewrite removeCacheEntry_files by done.
    rewrite lookup_delete_ne by (symmetry; apply bin_ne_json).
    apply lookup_delete_eq. }
  assert (Hj : files w1 !! (base +:+ ".json") = None).
  { subst w1. rewrite removeCacheEntry_files by done. apply lookup_delete_eq. }
  pose proof (resolve_and_fetch_unfold req w1) as Hu. cbv zeta in Hu.
  fold id bitrate base q in Hu. unfold try_catch. rewrite Hu.
  destruct Hres as [[e ->]|(mr & -> & Hs)].
  - eexists _, _. by split_and!.
  - destruct (Z.eqb_spec (status mr) 200) as [|_]; [done|].
    cbn [negb]. rewrite status_send_spec.
    destruct ((100 <=? status mr) && (status mr <=? 999));
      eexists _, _; by split_and!.
Qed.

(** ** Headers taken from the metadata *)










(** ** An expired entry *)








End AudioCache.

(** ** The functions at sample inputs *)

Example cacheKey_default : cacheKey "123" None None = "123_default".
Proof. reflexivity. Qed.

Example cacheKey_br_over_level :
  cacheKey "123" (Some "320000") (Some "hires") = "123_320000".
Proof. reflexivity. Qed.

Example cacheKey_level : cacheKey "123" None (Some "hires") = "123_hires".
Proof. reflexivity. Qed.

Example cacheKey_empty_br :
  cacheKey "123" (Some EmptyString) (Some "hires") = "123_hires".
Proof. reflexivity. Qed.

Example endsWith_bin : Str.endsWith "7_default.bin" ".bin" = true.
Proof. reflexivity. Qed.

Example endsWith_json : Str.endsWith "7_default.json" ".bin" = false.
Proof. reflexivity. Qed.

Example slice_end_bin : Str.slice_end "cache/7_default.bin" 4 = "cache/7_default".
Proof. reflexivity. Qed.

Example sort_by_mtime_stable :
  sort_by_mtime
    [ {| base := "c"; entry_size := 1; entry_mtimeMs := 30 |};
      {| base := "a"; entry_size := 2; entry_mtimeMs := 10 |};
      {| base := "b"; entry_size := 3; entry_mtimeMs := 10 |} ]
  = [ {| base := "a"; entry_size := 2; entry_mtimeMs := 10 |};
      {| base := "b"; entry_size := 3; entry_mtimeMs := 10 |};
      {| base := "c"; entry_size := 1; entry_mtimeMs := 30 |} ].
Proof. reflexivity. Qed.

(** Budget of 1 MiB, three entries of 600000 bytes: the two oldest go. *)
Example evicted_two_of_three :
  evicted 1 1800000
    [ {| base := "a"; entry_size := 600000; entry_mtimeMs := 10 |};
      {| base := "b"; entry_size := 600000; entry_mtimeMs := 20 |};
      {| base := "c"; entry_size := 600000; entry_mtimeMs := 30 |} ]
  = [ {| base := "a"; entry_size := 600000; entry_mtimeMs := 10 |};
      {| base := "b"; entry_size := 600000; entry_mtimeMs := 20 |} ].
Proof. reflexivity. Qed.

Example children_of_blob_world :
  fs.children "cache" (files Sample.blob_world) = ["7_default.bin"].
Proof. vm_compute. reflexivity. Qed.

Example status_missing :
  (getCacheStatus 3600 "cache/7_default.bin" Sample.empty_world).1
  = Ok {| valid := false; reason := Some "missing" |}.
Proof. reflexivity. Qed.

Example status_valid :
  (getCacheStatus 3600 "cache/7_default.bin" Sample.blob_world).1
  = Ok {| valid := true; reason := None |}.
Proof. vm_compute. reflexivity. Qed.

Example status_never_expires_without_ttl :
  (getCacheStatus 0 "cache/7_default.bin" Sample.old_blob_world).1
  = Ok {| valid := true; reason := None |}.
Proof. vm_compute. reflexivity. Qed.

(** A failing resolver on a miss: the handler answers 500. *)
Example handler_resolver_rejects :
  (audio_handler "cache" 3600 0 Sample.parse_fails Sample.stringify
     Sample.resolver_rejects Sample.req7 Sample.empty_world).1
  = Ok proxy_failed.
Proof. vm_compute. reflexivity. Qed.

(** A miss that downloads three bytes, then the same request again: the
    first answer is marked 0, the second 1, and both carry the bytes. *)
Example handler_miss_then_hit :
  let handler :=
    audio_handler "cache" 3600 0 Sample.parse_fails Sample.stringify
      Sample.resolver_item99 in
  let '(r1, w1) := handler Sample.req7 Sample.net_world in
  let '(r2, w2) := handler Sample.req7 w1 in
  match r1, r2 with
  | Ok a1, Ok a2 =>
      headers a1 = [("X-Cache-Hit", "0")]
      /\ res_payload a1 = BytesBody Sample.audio
      /\ headers a2 = [("X-Cache-Hit", "1")]
      /\ res_payload a2 = BytesBody Sample.audio
  | _, _ => False
  end
  /\ trace w2
     = [ EvResolve "7" None None; EvMkdir "cache";
         EvHttpGet "http://cdn/99.mp3" downloadHeaders;
         EvWrite "cache/7_default.tmp" Sample.audio;
         EvRename "cache/7_default.tmp" "cache/7_default.bin";
         EvWriteFile "cache/7_default.json" [] ]
  /\ inflightDownloads w2 = ∅.
Proof. vm_compute. split_and!; reflexivity. Qed.

(** ** The theorems at sample inputs *)

Lemma cache_io_errors_are_swallowed_witness :
  files Sample.blob_world !! "cache/7_default.bin"
    = Some (File Sample.audio 0)
  /\ files Sample.blob_world !! "cache/7_default.json" = None
  /\ exists r,
       audio_handler "cache" 3600 0 Sample.parse_fails Sample.stringify
         Sample.resolver_rejects Sample.req7 Sample.blob_world
       = (Ok r, Sample.blob_world)
       /\ headers r = [("X-Cache-Hit", "1")]
       /\ res_payload r = BytesBody Sample.audio.
Proof.
  split; [vm_compute; reflexivity|]. split; [vm_compute; reflexivity|].
  destruct (cache_io_errors_are_swallowed "cache" 3600 0 Sample.parse_fails
              Sample.stringify Sample.resolver_rejects) as (_ & _ & _ & H & _).
  destruct (H Sample.req7 Sample.blob_world (File Sample.audio 0))
    as (r & Hr & _ & Hh & Hp & _).
  - discriminate.
  - vm_compute; reflexivity.
  - vm_compute; reflexivity.
  - vm_compute; reflexivity.
  - reflexivity.
  - exists r. split; [exact Hr|]. split; [exact Hh | exact Hp].
Defined.


Lemma cacheKey_injective_on_ids_without_underscore_witness :
  Str.includes_char "_" "12" = false
  /\ cacheKey "12" (Some "320000") None = cacheKey "12" (Some "320000") (Some "hires")
  /\ quality_token (Some "320000") None = quality_token (Some "320000") (Some "hires").
Proof.
  split; [reflexivity|]. split; [reflexivity|].
  destruct cacheKey_injective_on_ids_without_underscore as (_ & _ & _ & _ & H).
  apply (H "12" (Some "320000") None "12" (Some "320000") (Some "hires"));
    reflexivity.
Defined.

(** C5 as stated fails: two distinct (id, quality) pairs with one key. *)
Lemma cacheKey_collision :
  ("1_2", quality_token (Some "3") None)
    <> ("1", quality_token (Some "2_3") None)
  /\ cacheKey "1_2" (Some "3") None = cacheKey "1" (Some "2_3") None.
Proof. split; [discriminate | reflexivity]. Qed.

Lemma single_flight_witness :
  inflightDownloads Sample.pending_world !! "cache/7_default" = Some 0%nat
  /\ downloadAndCacheAudio "cache/7_default" "http://cdn/other.mp3" ∅ ∅
       Sample.pending_world
     = (Ok 0%nat, Sample.pending_world)
  /\ inflightDownloads (settle "cache" 0 Sample.stringify 0 Sample.pending_world)
       !! "cache/7_default" = None.
Proof.
  destruct (single_flight "cache" 0 Sample.stringify) as (H1 & _ & _ & H4 & _).
  split; [vm_compute; reflexivity|]. split.
  - apply H1. vm_compute; reflexivity.
  - apply (H4 0%nat Sample.job7). reflexivity.
Defined.

Lemma download_is_atomic_witness :
  (network Sample.empty_world "http://cdn/7.mp3" = NetFail
   /\ (exists e,
         (download_body "cache" 0 Sample.stringify Sample.job7
            Sample.empty_world).1 = Throw e)
   /\ files (download_body "cache" 0 Sample.stringify Sample.job7
               Sample.empty_world).2 !! "cache/7_default.bin" = None)
  /\ (network Sample.net_world "http://cdn/7.mp3"
      = NetResponse Sample.audio_response
      /\ download_body "cache" 0 Sample.stringify Sample.job7 Sample.net_world
         = (Ok "cache/7_default.bin",
            after_meta "cache" Sample.stringify Sample.job7
              Sample.audio_response Sample.net_world)
      /\ files (after_meta "cache" Sample.stringify Sample.job7
                  Sample.audio_response Sample.net_world)
           !! "cache/7_default.bin" = Some (File Sample.audio 1000)
      /\ files (after_meta "cache" Sample.stringify Sample.job7
                  Sample.audio_response Sample.net_world)
           !! "cache/7_default.tmp" = None).
Proof.
  split.
  - destruct (download_is_atomic "cache" 0 Sample.stringify Sample.job7
                Sample.empty_world) as (evs & _ & _ & _ & _ & _ & Hfail & _).
    destruct Hfail as (He & Hb & _); [right; left; reflexivity|].
    split; [reflexivity|]. split; [exact He|].
    etransitivity; [exact Hb|]. vm_compute; reflexivity.
  - destruct (download_is_atomic "cache" 0 Sample.stringify Sample.job7
                Sample.net_world) as (evs & _ & _ & _ & _ & _ & _ & _ & Hok).
    destruct (Hok Sample.audio_response)
      as (Hr & _ & Hw & _ & _ & _ & _ & Htmp & Hbin & _); try reflexivity.
    split; [reflexivity|]. split; [|split; [exact Hbin | exact Htmp]].
    specialize (Hw eq_refl).
    destruct (download_body "cache" 0 Sample.stringify Sample.job7
                Sample.net_world) as [r w'].
    simpl in Hr, Hw. by rewrite Hr, Hw.
Defined.





Lemma resolver_outcome_mapping_witness :
  files Sample.empty_world !! "cache/7_default.bin" = None
  /\ audio_handler "cache" 3600 0 Sample.parse_fails Sample.stringify
       Sample.resolver_500_no_body Sample.req7 Sample.empty_world
     = (Ok (res.status_json 500 (CodeOnly 500) res.fresh),
        log (EvResolve "7" None None) Sample.empty_world)
  /\ audio_handler "cache" 3600 0 Sample.parse_fails Sample.stringify
       Sample.resolver_1000 Sample.req7 Sample.empty_world
     = (Ok proxy_failed, log (EvResolve "7" None None) Sample.empty_world).
Proof.
  split; [reflexivity|]. split.
  - destruct (resolver_outcome_mapping "cache" 3600 0 Sample.parse_fails
                Sample.stringify Sample.resolver_500_no_body Sample.req7
                Sample.empty_world) as (H & _); [discriminate | reflexivity |].
    destruct (H {| status := 500; body := None |}) as [Hv _];
      [reflexivity | discriminate |].
    destruct Hv as (r & Hrun & _ & _ & _ & _ & Hr & _); [simpl; lia|].
    rewrite Hrun, Hr; [reflexivity | simpl; lia | discriminate..].
  - destruct (resolver_outcome_mapping "cache" 3600 0 Sample.parse_fails
                Sample.stringify Sample.resolver_1000 Sample.req7
                Sample.empty_world) as (H & _); [discriminate | reflexivity |].
    destruct (H {| status := 1000; body := None |}) as [_ Hi];
      [reflexivity | discriminate |].
    apply Hi. simpl. lia.
Defined.

(** C6 as stated fails: a non-200 response without a body is not forwarded
    as it is, the client gets [{ code: 500 }]; a status that no HTTP
    answer can carry is answered with 500; and with status 204 the body of
    the response is not sent. *)
Lemma non200_response_without_body_is_not_forwarded :
  (exists r w',
     audio_handler "cache" 3600 0 Sample.parse_fails Sample.stringify
       Sample.resolver_500_no_body Sample.req7 Sample.empty_world = (Ok r, w')
     /\ statusCode r = 500
     /\ res_payload r = JsonBody (CodeOnly 500)
     /\ res_payload r <> forwarded_payload None)
  /\ (exists r w',
        audio_handler "cache" 3600 0 Sample.parse_fails Sample.stringify
          Sample.resolver_1000 Sample.req7 Sample.empty_world = (Ok r, w')
        /\ statusCode r = 500
        /\ statusCode r <> 1000)
  /\ (exists r w',
        audio_handler "cache" 3600 0 Sample.parse_fails Sample.stringify
          Sample.resolver_204 Sample.req7 Sample.empty_world = (Ok r, w')
        /\ statusCode r = 204
        /\ res_payload r = NoBody
        /\ res_payload r
           <> forwarded_payload (Some {| data := Some [Sample.item99] |})).
Proof.
  split_and!.
  - eexists _, _. split; [vm_compute; reflexivity|].
    split; [reflexivity|]. split; [reflexivity | discriminate].
  - eexists _, _. split; [vm_compute; reflexivity|].
    split; [reflexivity | discriminate].
  - eexists _, _. split; [vm_compute; reflexivity|].
    split; [reflexivity|]. split; [reflexivity | discriminate].
Qed.


Lemma oversized_download_evicts_itself_witness :
  AUDIO_CACHE_MAX_BYTES 1 < Z.of_nat (length Sample.big_audio)
  /\ Str.includes_char "/" (cacheKey "7" None None) = false
  /\ unlink_fails Sample.big_net_world = false
  /\ audio_handler "cache" 3600 1 Sample.parse_fails Sample.stringify
       Sample.resolver_item99 Sample.req7 Sample.big_net_world
     = (Ok (res.status_json 500 (CodeMsg 500 "Cache read error")
              (stream_headers res.fresh None false)),
        settle "cache" 1 Sample.stringify 0
          (register (fetch_job "7" "cache/7_default" Sample.item99)
             (log (EvResolve "7" None None) Sample.big_net_world))).
Proof.
  assert (Hbig : AUDIO_CACHE_MAX_BYTES 1 < Z.of_nat (length Sample.big_audio)).
  { unfold Sample.big_audio. rewrite length_replicate, Z2Nat.id by lia.
    reflexivity. }
  split; [exact Hbig|]. split; [reflexivity|]. split; [reflexivity|].
  destruct (oversized_download_evicts_itself "cache" 3600 1 Sample.parse_fails
              Sample.stringify Sample.resolver_item99 Sample.req7
              Sample.big_net_world
              {| status := 200; body := Some {| data := Some [Sample.item99] |} |}
              Sample.item99 [] Sample.big_response)
    as (_ & _ & _ & _ & _ & _ & _ & H);
    [ discriminate | reflexivity | reflexivity | reflexivity | reflexivity
    | reflexivity | reflexivity | reflexivity | discriminate | reflexivity
    | reflexivity | reflexivity | reflexivity | reflexivity | reflexivity
    | exact Hbig | exact H ].
Defined.

(** C10 as stated fails.  With the id [../7] the blob is written next to
    the cache directory, where the eviction does not look: the download
    larger than the budget stays on disk and is streamed.  And when the
    file system refuses the removals, the oversized blob of an ordinary id
    stays in the cache directory and is streamed as well. *)
Lemma oversized_download_is_kept_and_streamed :
  AUDIO_CACHE_MAX_BYTES 1 < Z.of_nat (length Sample.big_audio)
  /\ path_join "cache" (cacheKey "../7" None None) = "7_default"
  /\ match (audio_handler "cache" 3600 1 Sample.parse_fails Sample.stringify
              Sample.resolver_item99 Sample.req_up Sample.big_net_world).1 with
     | Ok r =>
         statusCode r = 200
         /\ headers r = [("X-Cache-Hit", "0")]
         /\ match res_payload r with
            | BytesBody b => Z.of_nat (length b) = 1048577
            | _ => False
            end
     | Throw _ => False
     end
  /\ (size ∘ stats_of)
       <$> files (audio_handler "cache" 3600 1 Sample.parse_fails
                    Sample.stringify Sample.resolver_item99 Sample.req_up
                    Sample.big_net_world).2 !! "7_default.bin"
     = Some 1048577
  /\ match (audio_handler "cache" 3600 1 Sample.parse_fails Sample.stringify
              Sample.resolver_item99 Sample.req7
              Sample.locked_big_net_world).1 with
     | Ok r =>
         statusCode r = 200
         /\ headers r = [("X-Cache-Hit", "0")]
         /\ match res_payload r with
            | BytesBody b => Z.of_nat (length b) = 1048577
            | _ => False
            end
     | Throw _ => False
     end
  /\ (size ∘ stats_of)
       <$> files (audio_handler "cache" 3600 1 Sample.parse_fails
                    Sample.stringify Sample.resolver_item99 Sample.req7
                    Sample.locked_big_net_world).2 !! "cache/7_default.bin"
     = Some 1048577.
Proof.
  split.
  { unfold Sample.big_audio. rewrite length_replicate, Z2Nat.id by lia.
    reflexivity. }
  split; [reflexivity|].
  split; [vm_compute; by split_and!|].
  split; [vm_compute; reflexivity|].
  split; [vm_compute; by split_and!|].
  vm_compute; reflexivity.
Qed.

(** ** The client address *)

Lemma includes_before_char (c : ascii) (s : string) :
  Str.includes_char c (JsString.before_char c s) = false.
Proof.
  induction s as [|a s IH]; simpl; [done|].
  destruct (Ascii.eqb_spec a c) as [->|Hne]; simpl; [done|].
  rewrite IH. by destruct (Ascii.eqb_spec a c).
Qed.

Lemma includes_trimStart (c : ascii) (s : string) :
  Str.includes_char c s = false ->
  Str.includes_char c (JsString.trimStart s) = false.
Proof.
  induction s as [|a s IH]; simpl; [done|].
  intros [H1 H2]%orb_false_iff.
  destruct (JsString.is_ws a); [by apply IH|]. simpl. by rewrite H1, H2.
Qed.

Lemma includes_trimEnd (c : ascii) (s : string) :
  Str.includes_char c s = false ->
  Str.includes_char c (JsString.trimEnd s) = false.
Proof.
  induction s as [|a s IH]; simpl; [done|].
  intros [H1 H2]%orb_false_iff. specialize (IH H2).
  destruct (JsString.trimEnd s) as [|b t].
  - destruct (JsString.is_ws a); simpl; [done|]. by rewrite H1.
  - simpl in *. by rewrite H1, IH.
Qed.

Lemma includes_trim (c : ascii) (s : string) :
  Str.includes_char c s = false ->
  Str.includes_char c (JsString.trim s) = false.
Proof. intros H. by apply includes_trimEnd, includes_trimStart. Qed.

Lemma includes_strip_prefix (c : ascii) (p s r : string) :
  Str.strip_prefix p s = Some r ->
  Str.includes_char c s = false -> Str.includes_char c r = false.
Proof.
  revert s. induction p as [|a p IH]; intros [|b s] H Hs; simpl in *;
    try done; try by injection H as <-.
  destruct (Ascii.eqb a b); [|done].
  apply orb_false_iff in Hs as [_ Hs]. by apply (IH s).
Qed.

Lemma strip_prefix_substring (p s r : string) :
  Str.strip_prefix p s = Some r ->
  substring 0 (String.length p) s = p
  /\ substring (String.length p) (String.length s - String.length p) s = r.
Proof.
  intros ->%strip_prefix_Some. split; [apply substring_app_take|].
  rewrite string_length_app.
  replace (String.length p + String.length r - String.length p)%nat
    with (String.length r) by lia.
  rewrite <- (Nat.add_0_r (String.length p)) at 1.
  by rewrite substring_app_skip, substring_all.
Qed.

Lemma strip_prefix_None_substring (p s : string) :
  Str.strip_prefix p s = None -> substring 0 (String.length p) s <> p.
Proof.
  revert s. induction p as [|a p IH]; intros [|b s] H; simpl in *; try done.
  destruct (Ascii.eqb_spec a b) as [->|Hne].
  - intros [= Heq]. by apply (IH s).
  - by intros [= -> _].
Qed.

(** X7: the address [resolveClientIp] returns is [req.ip], [global.cnIp],
    or a string without a comma, so a forwarded list never goes upstream
    as a whole; and a non-empty X-Forwarded-For string decides alone,
    whatever X-Real-IP and [req.ip] are. *)
Theorem resolveClientIp_single_address :
  (forall cnIp req r,
      ClientIp.resolveClientIp cnIp req = Some r ->
      Some r = ClientIp.ip req \/ Some r = cnIp
      \/ Str.includes_char "," r = false) /\
  (forall cnIp s real ip,
      s <> EmptyString ->
      ClientIp.resolveClientIp cnIp
        {| ClientIp.x_forwarded_for := Some (ClientIp.HStr s);
           ClientIp.x_real_ip := real; ClientIp.ip := ip |}
      = ClientIp.resolveClientIp cnIp
          {| ClientIp.x_forwarded_for := Some (ClientIp.HStr s);
             ClientIp.x_real_ip := None; ClientIp.ip := None |}).
Proof.
  split.
  - intros cnIp req r. unfold ClientIp.resolveClientIp.
    set (first := match ClientIp.forwarded req with
                  | ClientIp.HArr l => head l
                  | ClientIp.HStr s => Some s
                  end).
    destruct (truthy first); cbn [negb]; [|by left].
    set (ip0 := default EmptyString first).
    set (ip1 := if Str.includes_char "," ip0
                then JsString.trim (JsString.before_char "," ip0) else ip0).
    assert (Hno : Str.includes_char "," ip1 = false).
    { subst ip1. destruct (Str.includes_char "," ip0) eqn:E; [|done].
      apply includes_trim, includes_before_char. }
    destruct (Str.strip_prefix "::ffff:" ip1) as [rest|] eqn:E.
    + intros [= Hr]. right; right. rewrite <- Hr.
      exact (includes_strip_prefix _ _ _ _ E Hno).
    + destruct (String.eqb ip1 "::1").
      * intros Hr. right; left. by rewrite Hr.
      * intros [= Hr]. right; right. by rewrite <- Hr.
  - intros cnIp s real ip Hs.
    assert (Hf : forall real ip,
               ClientIp.forwarded
                 {| ClientIp.x_forwarded_for := Some (ClientIp.HStr s);
                    ClientIp.x_real_ip := real; ClientIp.ip := ip |}
               = ClientIp.HStr s).
    { intros real' ip'. unfold ClientIp.forwarded, ClientIp.header_truthy.
      cbn. by destruct (String.eqb_spec s EmptyString). }
    unfold ClientIp.resolveClientIp. rewrite !Hf. cbn [truthy].
    by destruct (String.eqb_spec s EmptyString).
Qed.

(** X8: for a request without forwarding headers whose [req.ip] is
    non-empty and has no comma, [resolveClientIp] and the module routes
    pass the same address upstream, except for [::ffff:::1]: the module
    routes map it to [global.cnIp], [resolveClientIp] returns [::1]. *)
Theorem client_ip_normalisers_agree (cnIp : option string) (req_ip : string) :
  req_ip <> EmptyString ->
  Str.includes_char "," req_ip = false ->
  let req := {| ClientIp.x_forwarded_for := None; ClientIp.x_real_ip := None;
                ClientIp.ip := Some req_ip |} in
  (req_ip <> "::ffff:::1" ->
   ClientIp.resolveClientIp cnIp req = ClientIp.module_route_ip cnIp req_ip) /\
  (req_ip = "::ffff:::1" ->
   ClientIp.resolveClientIp cnIp req = Some "::1"
   /\ ClientIp.module_route_ip cnIp req_ip = cnIp).
Proof.
  intros Hne Hcomma req. split; [|by intros ->].
  intros Hnot. unfold ClientIp.resolveClientIp, ClientIp.forwarded,
    ClientIp.module_route_ip, ClientIp.header_truthy, req.
  cbn [ClientIp.x_forwarded_for ClientIp.x_real_ip ClientIp.ip truthy default].
  destruct (String.eqb_spec req_ip EmptyString) as [|_]; [done|].
  cbn [negb default truthy id].
  destruct (String.eqb_spec req_ip EmptyString) as [|_]; [done|].
  cbn [negb]. rewrite Hcomma.
  destruct (Str.strip_prefix "::ffff:" req_ip) as [rest|] eqn:E.
  - destruct (strip_prefix_substring _ _ _ E) as [H1 H2].
    change (String.length "::ffff:") with 7%nat in H1, H2.
    rewrite H1, H2. rewrite String.eqb_refl.
    destruct (String.eqb_spec rest "::1") as [->|_]; [|done].
    apply strip_prefix_Some in E. by destruct Hnot.
  - apply strip_prefix_None_substring in E.
    change (String.length "::ffff:") with 7%nat in E.
    by destruct (String.eqb_spec (substring 0 7 req_ip) "::ffff:").
Qed.

(** ** The module routes *)

Lemma includes_app (c : ascii) (s t : string) :
  Str.includes_char c (s +:+ t)
  = Str.includes_char c s || Str.includes_char c t.
Proof.
  induction s as [|a s IH]; [done|].
  change (Str.includes_char c (String a (s +:+ t))
          = Str.includes_char c (String a s) || Str.includes_char c t).
  simpl. rewrite IH. by rewrite orb_assoc.
Qed.

Lemma strip_js_app (b : string) : ModuleDefs.strip_js (b +:+ ".js") = b.
Proof.
  unfold ModuleDefs.strip_js. rewrite string_length_app.
  change (String.length ".js") with 3%nat.
  replace (String.length b + 3 - 3)%nat with (String.length b) by lia.
  destruct (Nat.leb_spec 3 (String.length b + 3)) as [_|]; [|lia].
  rewrite <- (Nat.add_0_r (String.length b)) at 1.
  rewrite substring_app_skip. change (substring 0 3 ".js") with ".js".
  change (Str.toLowerCase ".js") with ".js". rewrite String.eqb_refl.
  apply substring_app_take.
Qed.

Lemma replace_char_inj (c d : ascii) (s1 s2 : string) :
  Str.includes_char d s1 = false -> Str.includes_char d s2 = false ->
  JsString.replace_char c d s1 = JsString.replace_char c d s2 -> s1 = s2.
Proof.
  revert s2. induction s1 as [|a s1 IH]; intros [|b s2]; simpl; try done.
  intros [Ha H1]%orb_false_iff [Hb H2]%orb_false_iff [= Hh Ht].
  rewrite (IH s2 H1 H2 Ht). f_equal.
  apply Ascii.eqb_neq in Ha, Hb.
  destruct (Ascii.eqb_spec a c) as [->|], (Ascii.eqb_spec b c) as [->|];
    congruence.
Qed.

Lemma replace_char_removes (c d : ascii) (s : string) :
  c <> d -> Str.includes_char c (JsString.replace_char c d s) = false.
Proof.
  intros Hne. induction s as [|a s IH]; simpl; [done|]. rewrite IH.
  destruct (Ascii.eqb_spec a c) as [->|Hac].
  - destruct (Ascii.eqb_spec d c); [congruence | done].
  - by destruct (Ascii.eqb_spec a c).
Qed.

Lemma parseRoute_default (specificRoute : option (gmap string string))
    (b : string) :
  specificRoute ≫= (fun routes => routes !! (b +:+ ".js")) = None ->
  ModuleDefs.parseRoute specificRoute (b +:+ ".js")
  = "/" +:+ JsString.replace_char "_" "/" b.
Proof. intros H. unfold ModuleDefs.parseRoute. by rewrite H, strip_js_app. Qed.

Lemma elem_of_getModulesDefinitions {Mod : Type} (require : string -> Mod)
    (pathJoin : string -> string -> string) (files : list string)
    (modulesPath : string) (specificRoute : option (gmap string string))
    (doRequire : bool) (d : ModuleDefs.module_definition Mod) :
  d ∈ ModuleDefs.getModulesDefinitions require pathJoin files modulesPath
        specificRoute doRequire ->
  exists b, b +:+ ".js" ∈ files
    /\ ModuleDefs.identifier d = JsString.before_char "." (b +:+ ".js")
    /\ ModuleDefs.route d = ModuleDefs.parseRoute specificRoute (b +:+ ".js").
Proof.
  unfold ModuleDefs.getModulesDefinitions.
  intros (file & -> & [Hjs Hin]%list_elem_of_filter)%list_elem_of_fmap.
  rewrite elem_of_reverse in Hin. exists (Str.slice_end file 3).
  change 3%nat with (String.length ".js"). by rewrite (endsWith_slice _ _ Hjs).
Qed.

Lemma default_route_no_underscore (b : string) :
  Str.includes_char "_" ("/" +:+ JsString.replace_char "_" "/" b) = false.
Proof. rewrite includes_app. by rewrite replace_char_removes. Qed.

(** X9: every module definition comes from a listed file [b.js]; unless
    [specificRoute] names the file, its route is [/] followed by [b] with
    each underscore turned into a slash, so a default route holds no
    underscore. *)
Theorem default_route_shape {Mod : Type} (require : string -> Mod)
    (pathJoin : string -> string -> string) (files : list string)
    (modulesPath : string) (specificRoute : option (gmap string string))
    (doRequire : bool) (d : ModuleDefs.module_definition Mod) :
  d ∈ ModuleDefs.getModulesDefinitions require pathJoin files modulesPath
        specificRoute doRequire ->
  exists b, b +:+ ".js" ∈ files
    /\ ModuleDefs.identifier d = JsString.before_char "." (b +:+ ".js")
    /\ (specificRoute ≫= (fun routes => routes !! (b +:+ ".js")) = None ->
        ModuleDefs.route d = "/" +:+ JsString.replace_char "_" "/" b
        /\ Str.includes_char "_" (ModuleDefs.route d) = false).
Proof.
  intros (b & Hin & Hid & Hr)%elem_of_getModulesDefinitions.
  exists b. split_and!; [done..|].
  intros Hno. rewrite Hr, (parseRoute_default _ _ Hno). split; [done|].
  apply default_route_no_underscore.
Qed.

(** X10: when the directory listing has no repeated name, no name holds a
    slash, and the routes that [specificRoute] gives to listed files each
    hold an underscore and differ from file to file, the module
    definitions have pairwise different routes.  The [special] routes of
    the server are of that kind. *)
Theorem routes_are_distinct {Mod : Type} (require : string -> Mod)
    (pathJoin : string -> string -> string) (files : list string)
    (modulesPath : string) (specificRoute : option (gmap string string))
    (doRequire : bool) :
  let given f := specificRoute ≫= (fun routes => routes !! f) in
  NoDup files ->
  (forall f, f ∈ files -> Str.includes_char "/" f = false) ->
  (forall f r, f ∈ files -> given f = Some r ->
     Str.includes_char "_" r = true) ->
  (forall f g r, f ∈ files -> g ∈ files ->
     given f = Some r -> given g = Some r -> f = g) ->
  NoDup (ModuleDefs.route <$>
           ModuleDefs.getModulesDefinitions require pathJoin files modulesPath
             specificRoute doRequire).
Proof.
  intros given Hnd Hslash Hunder Hinj. unfold ModuleDefs.getModulesDefinitions.
  rewrite <- list_fmap_compose.
  apply NoDup_fmap_2_strong;
    [|apply NoDup_filter; by rewrite reverse_Permutation].
  intros x y [Hx Hxin]%list_elem_of_filter [Hy Hyin]%list_elem_of_filter.
  rewrite elem_of_reverse in Hxin, Hyin. simpl.
  pose proof (endsWith_slice _ _ Hx) as Ex.
  pose proof (endsWith_slice _ _ Hy) as Ey.
  change (String.length ".js") with 3%nat in Ex, Ey.
  pose proof (Hslash _ Hxin) as Sx. pose proof (Hslash _ Hyin) as Sy.
  destruct (given x) as [rx|] eqn:Gx, (given y) as [ry|] eqn:Gy.
  - unfold ModuleDefs.parseRoute. fold (given x) (given y).
    rewrite Gx, Gy. intros <-. by apply (Hinj x y rx).
  - unfold ModuleDefs.parseRoute at 1. fold (given x). rewrite Gx.
    rewrite <- Ey in Gy |- *. rewrite (parseRoute_default _ _ Gy).
    intros ->. rewrite <- Ey in Hyin.
    pose proof (Hunder x _ Hxin Gx) as Hu.
    by rewrite default_route_no_underscore in Hu.
  - unfold ModuleDefs.parseRoute at 2. fold (given y). rewrite Gy.
    rewrite <- Ex in Gx |- *. rewrite (parseRoute_default _ _ Gx).
    intros <-. pose proof (Hunder y _ Hyin Gy) as Hu.
    by rewrite default_route_no_underscore in Hu.
  - rewrite <- Ex in Sx, Gx |- *. rewrite <- Ey in Sy, Gy |- *.
    rewrite (parseRoute_default _ _ Gx), (parseRoute_default _ _ Gy).
    rewrite includes_app in Sx, Sy.
    apply orb_false_iff in Sx as [Sx _]. apply orb_false_iff in Sy as [Sy _].
    intros [= H]. by rewrite (replace_char_inj _ _ _ _ Sx Sy H).
Qed.

(** ** The version check *)

Lemma ascii_compare_refl (a : ascii) : Ascii.compare a a = Eq.
Proof. unfold Ascii.compare. apply N.compare_refl. Qed.

Lemma string_compare_app (p a b : string) :
  String.compare (p +:+ a) (p +:+ b) = String.compare a b.
Proof.
  induction p as [|c p IH]; [done|].
  change (String.compare (String c (p +:+ a)) (String c (p +:+ b))
          = String.compare a b).
  simpl. by rewrite ascii_compare_refl.
Qed.

Lemma string_compare_refl (s : string) : String.compare s s = Eq.
Proof.
  induction s as [|c s IH]; simpl; [done|]. by rewrite ascii_compare_refl.
Qed.

(** X11: the version check compares the two version strings character by
    character.  Equal versions are LATEST, a registry version that extends
    ours is NOT_LATEST, and a component 9 against a component 10 after a
    common prefix is decided by the characters 9 and 1: ours at 9 and the
    registry at 10 gives LATEST, ours at 10 and the registry at 9 gives
    NOT_LATEST. *)
Theorem checkVersion_compares_characters (p r1 r2 stdout : string) (c : ascii) :
  (JsString.trim stdout = p ->
   Version.status (Version.checkVersion p false stdout) = Version.LATEST) /\
  (JsString.trim stdout = p +:+ String c r1 ->
   Version.status (Version.checkVersion p false stdout) = Version.NOT_LATEST) /\
  (JsString.trim stdout = p +:+ "10" +:+ r2 ->
   Version.status (Version.checkVersion (p +:+ "9" +:+ r1) false stdout)
   = Version.LATEST) /\
  (JsString.trim stdout = p +:+ "9" +:+ r2 ->
   Version.status (Version.checkVersion (p +:+ "10" +:+ r1) false stdout)
   = Version.NOT_LATEST).
Proof.
  unfold Version.checkVersion, String.ltb. cbn [negb Version.status].
  split_and!; intros ->.
  - by rewrite string_compare_refl.
  - assert (Hp : p +:+ EmptyString = p).
    { clear. induction p as [|a p IH]; [done|].
      change (String a (p +:+ EmptyString) = String a p). by rewrite IH. }
    replace (String.compare p (p +:+ String c r1))
      with (String.compare (p +:+ EmptyString) (p +:+ String c r1))
      by (by rewrite Hp).
    by rewrite string_compare_app.
  - by rewrite string_compare_app.
  - by rewrite string_compare_app.
Qed.

(** ** The WBI signature *)

Lemma string_app_empty_r (s : string) : s +:+ EmptyString = s.
Proof.
  induction s as [|c s IH]; [done|].
  change (String c (s +:+ EmptyString) = String c s). by rewrite IH.
Qed.

Lemma join_empty_app (l1 l2 : list string) :
  JsString.join EmptyString (l1 ++ l2)
  = JsString.join EmptyString l1 +:+ JsString.join EmptyString l2.
Proof.
  induction l1 as [|a l1 IH]; [done|].
  assert (Hc : forall l, JsString.join EmptyString (a :: l)
                         = a +:+ JsString.join EmptyString l).
  { intros [|b l]; simpl; [by rewrite string_app_empty_r | done]. }
  change ((a :: l1) ++ l2) with (a :: (l1 ++ l2)).
  rewrite !Hc, IH. symmetry. apply append_assoc.
Qed.

Lemma char_at_length (orig : string) (n : nat) :
  (n < String.length orig)%nat -> String.length (Bili.char_at orig n) = 1%nat.
Proof.
  unfold Bili.char_at. revert n.
  induction orig as [|c orig IH]; intros [|n] Hn; simpl in *; try lia.
  apply IH. lia.
Qed.

Lemma join_chars_length (orig : string) (l : list nat) :
  Forall (fun n => (n < String.length orig)%nat) l ->
  String.length (JsString.join EmptyString (Bili.char_at orig <$> l))
  = length l.
Proof.
  induction 1 as [|n l Hn Hl IH]; [done|].
  change (Bili.char_at orig <$> n :: l)
    with ([Bili.char_at orig n] ++ (Bili.char_at orig <$> l)).
  rewrite join_empty_app, string_length_app, IH. simpl.
  by rewrite (char_at_length _ _ Hn).
Qed.

Lemma substring_length_le (n m : nat) (s : string) :
  (String.length (substring n m s) <= m)%nat.
Proof.
  revert n m. induction s as [|c s IH]; intros [|n] [|m]; simpl; try lia.
  - specialize (IH 0%nat m). lia.
  - apply (IH n 0%nat).
  - apply (IH n (S m)).
Qed.

Lemma includes_char_at (c : ascii) (orig : string) (n : nat) :
  Str.includes_char c (Bili.char_at orig n) = true ->
  Str.includes_char c orig = true.
Proof.
  unfold Bili.char_at. revert n.
  induction orig as [|a orig IH]; intros [|n]; simpl; try done.
  - rewrite orb_false_r. by intros ->.
  - intros H. rewrite (IH n H). apply orb_true_r.
Qed.

Lemma includes_join_chars (c : ascii) (orig : string) (l : list nat) :
  Str.includes_char c (JsString.join EmptyString (Bili.char_at orig <$> l)) = true ->
  Str.includes_char c orig = true.
Proof.
  induction l as [|n l IH]; [done|].
  change (Bili.char_at orig <$> n :: l)
    with ([Bili.char_at orig n] ++ (Bili.char_at orig <$> l)).
  rewrite join_empty_app, includes_app. intros [H|H]%orb_true_iff.
  - by apply (includes_char_at c orig n).
  - by apply IH.
Qed.

Lemma includes_substring (c : ascii) (n m : nat) (s : string) :
  Str.includes_char c (substring n m s) = true -> Str.includes_char c s = true.
Proof.
  revert n m. induction s as [|a s IH]; intros [|n] [|m]; simpl; try done.
  - intros [H|H]%orb_true_iff; [by rewrite H|].
    rewrite (IH _ _ H). apply orb_true_r.
  - intros H. rewrite (IH _ _ H). apply orb_true_r.
  - intros H. rewrite (IH _ _ H). apply orb_true_r.
Qed.

(** X12: the mixin key has at most 32 characters, each of them a character
    of the input; for an input of at least 64 characters it has exactly 32,
    those at the positions given by the first half of the table, in that
    order: the second half of the table has no effect. *)
Theorem getMixinKey_uses_half_of_the_table (orig : string) :
  (String.length (Bili.getMixinKey orig) <= 32)%nat /\
  (forall c, Str.includes_char c (Bili.getMixinKey orig) = true ->
             Str.includes_char c orig = true) /\
  ((64 <= String.length orig)%nat ->
   Bili.getMixinKey orig
   = JsString.join EmptyString
       (Bili.char_at orig <$> take 32 Bili.mixinKeyEncTab)
   /\ String.length (Bili.getMixinKey orig) = 32%nat).
Proof.
  unfold Bili.getMixinKey, JsString.slice.
  set (joined := JsString.join EmptyString (Bili.char_at orig <$> Bili.mixinKeyEncTab)).
  change (0 <? 0) with false. change (32 <? 0) with false. cbv iota.
  split_and!.
  - etrans; [apply substring_length_le|]. lia.
  - intros c H%includes_substring. by apply (includes_join_chars c orig Bili.mixinKeyEncTab).
  - intros Hlen.
    assert (Hall : Forall (fun n => (n < String.length orig)%nat) Bili.mixinKeyEncTab).
    { unfold Bili.mixinKeyEncTab. repeat (constructor; [lia|]). constructor. }
    assert (Hsplit : joined
              = JsString.join EmptyString (Bili.char_at orig <$> take 32 Bili.mixinKeyEncTab)
                +:+ JsString.join EmptyString (Bili.char_at orig <$> drop 32 Bili.mixinKeyEncTab)).
    { subst joined. rewrite <- join_empty_app, <- fmap_app. by rewrite take_drop. }
    assert (H32 : String.length
              (JsString.join EmptyString (Bili.char_at orig <$> take 32 Bili.mixinKeyEncTab))
              = 32%nat).
    { rewrite join_chars_length; [done|]. by apply Forall_take. }
    assert (Hj : String.length joined = 64%nat).
    { subst joined. by rewrite join_chars_length. }
    rewrite Hj. change (Z.to_nat (Z.min 0 (Z.of_nat 64))) with 0%nat.
    change (Z.to_nat (Z.min 32 (Z.of_nat 64) - Z.min 0 (Z.of_nat 64))) with 32%nat.
    pose proof (substring_app_take
                  (JsString.join EmptyString
                     (Bili.char_at orig <$> take 32 Bili.mixinKeyEncTab))
                  (JsString.join EmptyString
                     (Bili.char_at orig <$> drop 32 Bili.mixinKeyEncTab)))
      as Hs.
    rewrite H32, <- Hsplit in Hs. rewrite Hs. by split.
Qed.

(** ** The WBI keys *)

Lemma lastIndexOf_absent (c : ascii) (s : string) :
  Str.includes_char c s = false -> JsString.lastIndexOf c s = None.
Proof.
  induction s as [|a s IH]; simpl; [done|].
  intros [H1 H2]%orb_false_iff. by rewrite (IH H2), H1.
Qed.

Lemma lastIndexOf_app_Some (c : ascii) (a t : string) (i : nat) :
  JsString.lastIndexOf c t = Some i ->
  JsString.lastIndexOf c (a +:+ t) = Some (String.length a + i)%nat.
Proof.
  intros H. induction a as [|x a IH]; [done|].
  change (JsString.lastIndexOf c (String x (a +:+ t))
          = Some (S (String.length a + i))).
  simpl. by rewrite IH.
Qed.

Lemma lastIndexOf_last (c : ascii) (a b : string) :
  Str.includes_char c b = false ->
  JsString.lastIndexOf c (a +:+ String c b) = Some (String.length a).
Proof.
  intros H. rewrite (lastIndexOf_app_Some c a (String c b) 0).
  - by rewrite Nat.add_0_r.
  - simpl. by rewrite (lastIndexOf_absent _ _ H), Ascii.eqb_refl.
Qed.

Lemma slice_middle (a b c : string) :
  JsString.slice (a +:+ b +:+ c) (Z.of_nat (String.length a))
    (Z.of_nat (String.length a + String.length b)) = b.
Proof.
  unfold JsString.slice. rewrite !string_length_app.
  destruct (Z.ltb_spec (Z.of_nat (String.length a)) 0) as [|_]; [lia|].
  destruct (Z.ltb_spec (Z.of_nat (String.length a + String.length b)) 0)
    as [|_]; [lia|].
  rewrite !Z.min_l by lia.
  replace (Z.to_nat (Z.of_nat (String.length a + String.length b)
                     - Z.of_nat (String.length a)))
    with (String.length b) by lia.
  rewrite Nat2Z.id. rewrite <- (Nat.add_0_r (String.length a)).
  rewrite substring_app_skip. apply substring_app_take.
Qed.

Lemma substring_zero (n : nat) (s : string) : substring n 0 s = EmptyString.
Proof. revert n. induction s as [|c s IH]; intros [|n]; simpl; auto. Qed.

Lemma slice_backwards (s : string) (start stop : Z) :
  0 <= stop <= start -> JsString.slice s start stop = EmptyString.
Proof.
  intros H. unfold JsString.slice.
  destruct (Z.ltb_spec start 0) as [|_]; [lia|].
  destruct (Z.ltb_spec stop 0) as [|_]; [lia|].
  replace (Z.to_nat (Z.min stop (Z.of_nat (String.length s))
                     - Z.min start (Z.of_nat (String.length s))))
    with 0%nat by lia.
  apply substring_zero.
Qed.

(** X13: from a URL [<dir>/<name>.<ext>], where [name] and [ext] hold no
    slash and [ext] no dot, the key taken is [name]; when the last dot of
    the URL comes before its last slash, the key is empty. *)
Theorem key_of_url_is_the_file_name (dir name ext : string) :
  Str.includes_char "/" name = false ->
  (Str.includes_char "/" ext = false -> Str.includes_char "." ext = false ->
   Bili.key_of_url (dir +:+ "/" +:+ name +:+ "." +:+ ext) = name) /\
  (Str.includes_char "." name = false -> Str.includes_char "." ext = false ->
   Bili.key_of_url (dir +:+ "." +:+ ext +:+ "/" +:+ name) = EmptyString).
Proof.
  intros Hn. split.
  - intros He Hd. unfold Bili.key_of_url, Bili.lastIndexOf.
    change (dir +:+ "/" +:+ name +:+ "." +:+ ext)
      with (dir +:+ String "/" (name +:+ String "." ext)).
    rewrite lastIndexOf_last.
    2:{ rewrite includes_app, Hn. simpl. by rewrite He. }
    replace (dir +:+ String "/" (name +:+ String "." ext))
      with ((dir +:+ "/" +:+ name) +:+ String "." ext).
    2:{ by rewrite !append_assoc. }
    rewrite lastIndexOf_last by done.
    replace ((dir +:+ "/" +:+ name) +:+ String "." ext)
      with ((dir +:+ "/") +:+ name +:+ String "." ext).
    2:{ by rewrite !append_assoc. }
    replace (String.length (dir +:+ "/" +:+ name))
      with (String.length (dir +:+ "/") + String.length name)%nat.
    2:{ by rewrite <- !string_length_app, append_assoc. }
    replace (Z.of_nat (String.length dir) + 1)
      with (Z.of_nat (String.length (dir +:+ "/"))).
    2:{ rewrite string_length_app. simpl. lia. }
    apply slice_middle.
  - intros Hd He. unfold Bili.key_of_url, Bili.lastIndexOf.
    change (dir +:+ "." +:+ ext +:+ "/" +:+ name)
      with (dir +:+ String "." (ext +:+ String "/" name)).
    rewrite (lastIndexOf_last "." dir).
    2:{ rewrite includes_app, He. simpl. by rewrite Hd. }
    replace (dir +:+ String "." (ext +:+ String "/" name))
      with ((dir +:+ "." +:+ ext) +:+ String "/" name).
    2:{ by rewrite !append_assoc. }
    rewrite lastIndexOf_last by done.
    apply slice_backwards. rewrite !string_length_app. lia.
Qed.

(** X14: on an empty key cache [getWbiKeys] asks [/nav] once and keeps the
    keys with the time of the call.  With that cache, a call less than
    thirty minutes later returns the same keys without any request; a call
    thirty minutes later or more asks again and, when that request fails,
    throws instead of returning the old keys, and leaves the cache as it
    was. *)
Theorem wbi_keys_are_cached_for_thirty_minutes
    (s : Bili.state) (img_url sub_url : string) :
  Bili.wbiKeys (Bili.cache s) = None ->
  Bili.nav s = Bili.NavUrls img_url sub_url ->
  let keys := Bili.WbiKeys (Bili.key_of_url img_url) (Bili.key_of_url sub_url) in
  let s1 := (Bili.getWbiKeys s).2 in
  (Bili.getWbiKeys s).1 = Some keys
  /\ Bili.requests s1 = Bili.requests s ++ [Bili.SentNav]
  /\ forall s2,
       Bili.cache s2 = Bili.cache s1 ->
       (Bili.now s2 - Bili.now s < 1800000 ->
        Bili.getWbiKeys s2 = (Some keys, s2))
       /\ (1800000 <= Bili.now s2 - Bili.now s ->
           Bili.nav s2 = Bili.NavFails ->
           Bili.getWbiKeys s2 = (None, Bili.send Bili.SentNav s2)
           /\ Bili.cache (Bili.send Bili.SentNav s2) = Bili.cache s1).
Proof.
  intros Hempty Hnav keys s1.
  assert (H1 : Bili.getWbiKeys s
               = (Some keys,
                  Bili.set_cache
                    (Bili.Cache (Bili.buvid (Bili.cache s)) (Some keys)
                       (Bili.now s)) (Bili.send Bili.SentNav s))).
  { unfold Bili.getWbiKeys. by rewrite Hempty, Hnav. }
  subst s1. rewrite H1. cbn [fst snd]. split; [done|]. split; [done|].
  intros s2 Hc. unfold Bili.getWbiKeys. rewrite Hc. cbn.
  change (30 * 60 * 1000) with 1800000.
  destruct (Z.ltb_spec (Bili.now s2 - Bili.now s) 1800000) as [Hlt|Hge].
  - split; [done | lia].
  - split; [lia|]. by intros _ ->.
Qed.

(** ** The signed query and its reading *)

Lemma hex_digit_val (k : nat) :
  (k < 16)%nat -> Bili.hex_val (Bili.hex_digit k) = Some k.
Proof. intros H. do 16 (destruct k as [|k]; [done|]). lia. Qed.

Lemma hex_digit_plain (d : ascii) (k : nat) :
  Bili.hex_val d = None -> (k < 16)%nat -> Ascii.eqb (Bili.hex_digit k) d = false.
Proof.
  intros Hd Hk. destruct (Ascii.eqb_spec (Bili.hex_digit k) d) as [<-|]; [|done].
  by rewrite hex_digit_val in Hd.
Qed.

Lemma nat_of_ascii_split (c : ascii) :
  (nat_of_ascii c / 16 < 16)%nat /\ (nat_of_ascii c mod 16 < 16)%nat
  /\ (16 * (nat_of_ascii c / 16) + nat_of_ascii c mod 16)%nat = nat_of_ascii c.
Proof.
  pose proof (nat_ascii_bounded c) as Hb. split_and!.
  - apply Nat.Div0.div_lt_upper_bound. lia.
  - apply Nat.mod_upper_bound. lia.
  - symmetry. apply Nat.div_mod_eq.
Qed.

Lemma encodeURIComponent_plain (d : ascii) (s : string) :
  Bili.structural d -> Str.includes_char d (Bili.encodeURIComponent s) = false.
Proof.
  intros (Hu & Hh & Hp). induction s as [|c s IH]; [done|].
  destruct (nat_of_ascii_split c) as (H1 & H2 & _).
  cbn [Bili.encodeURIComponent].
  destruct (Bili.unreserved c) eqn:Ec; cbn [Str.includes_char]; rewrite IH.
  - destruct (Ascii.eqb_spec c d) as [->|]; [congruence | done].
  - rewrite (hex_digit_plain d _ Hh H1), (hex_digit_plain d _ Hh H2).
    by destruct (Ascii.eqb_spec "%"%char d) as [<-|].
Qed.

Lemma structural_amp : Bili.structural "&". Proof. by split_and!. Qed.
Lemma structural_eq : Bili.structural "=". Proof. by split_and!. Qed.
Lemma structural_plus : Bili.structural "+". Proof. by split_and!. Qed.
Lemma structural_question : Bili.structural "?". Proof. by split_and!. Qed.

Lemma percent_decode_encode (s : string) :
  Bili.percent_decode (Bili.encodeURIComponent s) = s.
Proof.
  induction s as [|c s IH]; [done|].
  destruct (nat_of_ascii_split c) as (H1 & H2 & H3).
  cbn [Bili.encodeURIComponent]. destruct (Bili.unreserved c) eqn:Ec.
  - cbn [Bili.percent_decode]. rewrite IH.
    by destruct (Ascii.eqb_spec c "%"%char) as [->|].
  - cbn [Bili.percent_decode]. rewrite Ascii.eqb_refl.
    rewrite (hex_digit_val _ H1), (hex_digit_val _ H2), H3, IH.
    by rewrite ascii_nat_embedding.
Qed.

Lemma replace_char_absent (c d : ascii) (s : string) :
  Str.includes_char c s = false -> JsString.replace_char c d s = s.
Proof.
  induction s as [|a s IH]; simpl; [done|].
  intros [-> H]%orb_false_iff. by rewrite (IH H).
Qed.

Lemma form_decode_encode (s : string) :
  Bili.form_decode (Bili.encodeURIComponent s) = s.
Proof.
  unfold Bili.form_decode.
  rewrite replace_char_absent
    by apply (encodeURIComponent_plain _ _ structural_plus).
  apply percent_decode_encode.
Qed.

Lemma split_char_absent (sep : ascii) (s : string) :
  Str.includes_char sep s = false -> Bili.split_char sep s = [s].
Proof.
  induction s as [|a s IH]; simpl; [done|].
  intros [-> H]%orb_false_iff. by rewrite (IH H).
Qed.

Lemma split_char_app (sep : ascii) (a t : string) :
  Str.includes_char sep a = false ->
  Bili.split_char sep (a +:+ String sep t) = a :: Bili.split_char sep t.
Proof.
  induction a as [|x a IH]; simpl.
  - intros _. by rewrite Ascii.eqb_refl.
  - intros [Hx H]%orb_false_iff.
    change (String x a +:+ String sep t) with (String x (a +:+ String sep t)).
    simpl. by rewrite Hx, (IH H).
Qed.

Lemma split_join (sep : ascii) (cs : list string) :
  cs <> [] -> Forall (fun c => Str.includes_char sep c = false) cs ->
  Bili.split_char sep (JsString.join (String sep EmptyString) cs) = cs.
Proof.
  intros Hne Hall. induction Hall as [|c cs Hc Hcs IH]; [done|].
  destruct cs as [|c' cs]; [by apply split_char_absent|].
  change (JsString.join (String sep EmptyString) (c :: c' :: cs))
    with (c +:+ String sep EmptyString
            +:+ JsString.join (String sep EmptyString) (c' :: cs)).
  change (String sep EmptyString
            +:+ JsString.join (String sep EmptyString) (c' :: cs))
    with (String sep (JsString.join (String sep EmptyString) (c' :: cs))).
  rewrite (split_char_app _ _ _ Hc). by rewrite IH.
Qed.

Lemma includes_join (d sep : ascii) (cs : list string) :
  Ascii.eqb sep d = false ->
  Forall (fun c => Str.includes_char d c = false) cs ->
  Str.includes_char d (JsString.join (String sep EmptyString) cs) = false.
Proof.
  intros Hd Hall. induction Hall as [|c cs Hc Hcs IH]; [done|].
  destruct cs as [|c' cs]; [done|].
  change (JsString.join (String sep EmptyString) (c :: c' :: cs))
    with (c +:+ String sep (JsString.join (String sep EmptyString) (c' :: cs))).
  rewrite includes_app, Hc. cbn [Str.includes_char orb]. by rewrite Hd, IH.
Qed.

Lemma before_char_app (sep : ascii) (a t : string) :
  Str.includes_char sep a = false ->
  JsString.before_char sep (a +:+ String sep t) = a.
Proof.
  induction a as [|x a IH]; simpl.
  - intros _. by rewrite Ascii.eqb_refl.
  - intros [Hx H]%orb_false_iff.
    change (String x a +:+ String sep t) with (String x (a +:+ String sep t)).
    simpl. by rewrite Hx, (IH H).
Qed.

Lemma after_char_app (sep : ascii) (a t : string) :
  Str.includes_char sep a = false ->
  Bili.after_char sep (a +:+ String sep t) = Some t.
Proof.
  induction a as [|x a IH]; simpl.
  - intros _. by rewrite Ascii.eqb_refl.
  - intros [Hx H]%orb_false_iff.
    change (String x a +:+ String sep t) with (String x (a +:+ String sep t)).
    simpl. by rewrite Hx, (IH H).
Qed.

Lemma strip_prefix_absent (c : ascii) (s : string) :
  Str.includes_char c s = false ->
  Str.strip_prefix (String c EmptyString) s = None.
Proof.
  destruct s as [|a s]; simpl; [done|].
  intros [H _]%orb_false_iff.
  destruct (Ascii.eqb_spec c a) as [->|]; [|done].
  by rewrite Ascii.eqb_refl in H.
Qed.

Lemma component_plain (d : ascii) (kv : string * string) :
  Bili.structural d -> d <> "="%char -> Str.includes_char d (Bili.component kv) = false.
Proof.
  intros Hd Hne. unfold Bili.component.
  change (Bili.encodeURIComponent kv.1 +:+ "=" +:+ Bili.encodeURIComponent kv.2)
    with (Bili.encodeURIComponent kv.1
          +:+ String "=" (Bili.encodeURIComponent kv.2)).
  rewrite includes_app, (encodeURIComponent_plain _ _ Hd).
  cbn [Str.includes_char orb]. rewrite (encodeURIComponent_plain _ _ Hd).
  by destruct (Ascii.eqb_spec "="%char d) as [<-|].
Qed.

Lemma URLSearchParams_components (kvs : list (string * string)) :
  kvs <> [] ->
  Bili.URLSearchParams (JsString.join "&" (Bili.component <$> kvs)) = kvs.
Proof.
  intros Hne. unfold Bili.URLSearchParams.
  assert (Hall : forall d, Bili.structural d -> d <> "="%char ->
            Forall (fun c => Str.includes_char d c = false) (Bili.component <$> kvs)).
  { intros d Hd Hde. apply Forall_fmap, Forall_forall. intros kv _.
    by apply component_plain. }
  rewrite strip_prefix_absent.
  2:{ apply includes_join; [done|]. by apply Hall; [apply structural_question|]. }
  cbn [default]. rewrite split_join.
  2:{ by destruct kvs. }
  2:{ by apply Hall; [apply structural_amp|]. }
  clear Hne Hall. induction kvs as [|[k v] kvs IH]; [done|].
  rewrite fmap_cons, filter_cons_True.
  2:{ unfold Bili.component. intros H%(f_equal String.length).
      rewrite !string_length_app in H. simpl in H. lia. }
  rewrite fmap_cons, IH. f_equal. unfold Bili.component. cbn [fst snd].
  change (Bili.encodeURIComponent k +:+ "=" +:+ Bili.encodeURIComponent v)
    with (Bili.encodeURIComponent k +:+ String "=" (Bili.encodeURIComponent v)).
  rewrite before_char_app, after_char_app
    by apply (encodeURIComponent_plain _ _ structural_eq).
  cbn [default id]. by rewrite !form_decode_encode.
Qed.

Lemma join_snoc (sep : string) (cs : list string) (c : string) :
  cs <> [] ->
  JsString.join sep (cs ++ [c]) = JsString.join sep cs +:+ sep +:+ c.
Proof.
  intros Hne. induction cs as [|a cs IH]; [done|].
  destruct cs as [|b cs]; [done|].
  change (JsString.join sep ((a :: b :: cs) ++ [c]))
    with (a +:+ sep +:+ JsString.join sep ((b :: cs) ++ [c])).
  rewrite IH by done.
  change (JsString.join sep (a :: b :: cs))
    with (a +:+ sep +:+ JsString.join sep (b :: cs)).
  by rewrite !append_assoc.
Qed.

Lemma insert_sorted_perm (k : string) (l : list string) :
  Bili.insert_sorted k l ≡ₚ k :: l.
Proof.
  induction l as [|x l IH]; simpl; [done|].
  destruct (String.leb k x); [done|]. rewrite IH. apply Permutation_swap.
Qed.

Lemma sort_strings_perm (l : list string) : Bili.sort_strings l ≡ₚ l.
Proof.
  induction l as [|x l IH]; simpl; [done|].
  by rewrite insert_sorted_perm, IH.
Qed.

Lemma assign_entries_lookup (g : string -> string) (ks : list string)
    (acc : gmap string jsval) (k : string) :
  foldl (fun queryParams '(key, value) =>
           if String.eqb key "__proto__" then queryParams
           else <[key := JStr value]> queryParams)
    acc ((fun key => (key, g key)) <$> ks) !! k
  = if decide (k ∈ ks /\ k <> "__proto__") then Some (JStr (g k))
    else acc !! k.
Proof.
  revert acc. induction ks as [|x ks IH]; intros acc.
  - cbn [fmap list_fmap foldl].
    by destruct (decide (k ∈ [] /\ _)) as [[H%elem_of_nil _]|].
  - rewrite fmap_cons. cbn [foldl]. rewrite IH.
    destruct (decide (k ∈ ks /\ k <> "__proto__")) as [[Hin Hk]|Hnin],
      (decide (k ∈ x :: ks /\ k <> "__proto__")) as [[Hin' Hk']|Hnin'];
      try done.
    + destruct Hnin'. split; [by right | done].
    + apply elem_of_cons in Hin' as [->|?]; [|by destruct Hnin].
      apply String.eqb_neq in Hk' as ->. apply lookup_insert_eq.
    + destruct (String.eqb_spec x "__proto__") as [->|Hx]; [done|].
      apply lookup_insert_ne. intros ->. destruct Hnin'.
      split; [by left|].
      intros ->. done.
Qed.

(** X15: the query string that [encWbi] builds, read back by
    [URLSearchParams] as [biliRequest] does, gives exactly the parameters
    with [wts] assigned, each value as text without the characters
    [!'()*], and [w_rid], the digest of the query followed by the mixin
    key, except that a parameter named [__proto__] is lost.  This needs
    that the digest is made of characters that [encodeURIComponent] leaves
    alone, and that the numbers among the parameters and the time are
    integers that JavaScript holds exactly. *)
Theorem signed_query_round_trip (md5 : string -> string)
    (params : gmap string jsval) (img_key sub_key : string) (now : Z) :
  (forall x, Bili.encodeURIComponent (md5 x) = md5 x) ->
  map_Forall (fun _ v => jsval_safe v = true) params ->
  safe_integer now = true ->
  let signed := <["wts" := JNum (Bili.curr_time now)]> params in
  Bili.assign_entries
    (Bili.URLSearchParams (Bili.encWbi md5 params img_key sub_key now))
  = delete "__proto__"
      (<["w_rid" :=
           JStr (md5 (Bili.wbi_query signed
                      +:+ Bili.getMixinKey (img_key +:+ sub_key)))]>
         ((fun v => JStr (Bili.chr_filter (jsval_to_string v))) <$> signed)).
Proof.
  intros Hmd5 _ _ signed. unfold Bili.encWbi. fold signed.
  set (digest := md5 (Bili.wbi_query signed
                      +:+ Bili.getMixinKey (img_key +:+ sub_key))).
  set (g := fun key =>
              Bili.chr_filter
                (default EmptyString (jsval_to_string <$> signed !! key))).
  set (ks := Bili.sort_strings (map_to_list signed).*1).
  assert (Hks : forall k, k ∈ ks <-> is_Some (signed !! k)).
  { intros k. subst ks. rewrite sort_strings_perm.
    rewrite list_elem_of_fmap. split.
    - intros ([k' v] & -> & Hin%elem_of_map_to_list). by exists v.
    - intros [v Hv]. exists (k, v). split; [done|].
      by apply elem_of_map_to_list. }
  assert (Hne : ks <> []).
  { intros He. assert (Hin : "wts" ∈ ks).
    { apply Hks. subst signed. rewrite lookup_insert_eq. by eexists. }
    rewrite He in Hin. by apply elem_of_nil in Hin. }
  assert (Hq : Bili.wbi_query signed
               = JsString.join "&" (Bili.component <$> ((fun key => (key, g key)) <$> ks))).
  { unfold Bili.wbi_query. fold ks. by rewrite <- list_fmap_compose. }
  assert (Hall : Bili.wbi_query signed +:+ "&w_rid=" +:+ digest
                 = JsString.join "&"
                     (Bili.component <$>
                        (((fun key => (key, g key)) <$> ks) ++ [("w_rid", digest)]))).
  { rewrite fmap_app.
    change (Bili.component <$> [("w_rid", digest)])
      with [Bili.component ("w_rid", digest)].
    rewrite join_snoc by (by destruct ks).
    rewrite <- Hq. unfold Bili.component. cbn [fst snd].
    subst digest. rewrite Hmd5. reflexivity. }
  rewrite Hall, URLSearchParams_components by (by destruct ks).
  unfold Bili.assign_entries. rewrite foldl_app. cbn [foldl].
  change (String.eqb "w_rid" "__proto__") with false. cbv iota.
  apply map_eq. intros k.
  destruct (decide (k = "__proto__")) as [->|Hk].
  - rewrite lookup_delete_eq, lookup_insert_ne by done.
    rewrite assign_entries_lookup.
    by destruct (decide (_ /\ _)) as [[_ ?]|].
  - rewrite lookup_delete_ne by done.
    destruct (decide (k = "w_rid")) as [->|Hw];
      [by rewrite !lookup_insert_eq|].
    rewrite !lookup_insert_ne by done.
    rewrite assign_entries_lookup, lookup_fmap.
    destruct (decide (k ∈ ks /\ k <> "__proto__")) as [[Hin _]|Hnin].
    + apply Hks in Hin as [v Hv]. subst g. cbn beta. by rewrite Hv.
    + destruct (signed !! k) as [v|] eqn:Hv; [|by rewrite lookup_empty].
      destruct Hnin. split; [|done]. apply Hks. by exists v.
Qed.

(** ** [biliRequest] *)

Lemma sent_between_app (s s' : Bili.state) (l : list Bili.sent) :
  Bili.requests s' = Bili.requests s ++ l -> Bili.sent_between s s' = l.
Proof. intros H. unfold Bili.sent_between. rewrite H. apply drop_app_length. Qed.


Lemma buvid_step_frame (o : Bili.options) (rh : gmap string string)
    (s : Bili.state) :
  let s1 := (Bili.buvid_step o rh s).2 in
  Bili.now s1 = Bili.now s /\ Bili.nav s1 = Bili.nav s
  /\ Bili.api s1 = Bili.api s /\ Bili.getbuvid s1 = Bili.getbuvid s
  /\ Bili.wbiKeys (Bili.cache s1) = Bili.wbiKeys (Bili.cache s)
  /\ Bili.lastWbiKeysFetchTime (Bili.cache s1)
     = Bili.lastWbiKeysFetchTime (Bili.cache s).
Proof.
  unfold Bili.buvid_step.
  destruct (Bili.needBuvid o); [|split_and!; reflexivity].
  destruct (Bili.useCachedBuvid o && truthy (Bili.buvid (Bili.cache s)));
    cbv beta iota zeta.
  - destruct (truthy (Bili.buvid (Bili.cache s))); split_and!; reflexivity.
  - destruct (Bili.getbuvid s) as [|v] eqn:E;
      [split_and!; first [reflexivity | exact E]|].
    destruct (truthy v); split_and!; first [reflexivity | exact E].
Qed.

Lemma buvid_step_requests (o : Bili.options) (rh : gmap string string)
    (s : Bili.state) :
  let s1 := (Bili.buvid_step o rh s).2 in
  let fetches :=
    Bili.needBuvid o
    && negb (Bili.useCachedBuvid o && truthy (Bili.buvid (Bili.cache s))) in
  Bili.requests s1
  = Bili.requests s ++ (if fetches then [Bili.SentBuvid] else [])
  /\ Bili.buvid (Bili.cache s1)
     = match Bili.getbuvid s with
       | Bili.BuvidIs v => if fetches then v else Bili.buvid (Bili.cache s)
       | Bili.BuvidFails => Bili.buvid (Bili.cache s)
       end.
Proof.
  unfold Bili.buvid_step.
  destruct (Bili.needBuvid o); cbn [andb].
  2:{ rewrite app_nil_r. destruct (Bili.getbuvid s); split; reflexivity. }
  destruct (Bili.useCachedBuvid o && truthy (Bili.buvid (Bili.cache s)));
    cbn [negb]; cbv beta iota zeta.
  - rewrite app_nil_r.
    destruct (truthy (Bili.buvid (Bili.cache s))), (Bili.getbuvid s);
      split; reflexivity.
  - destruct (Bili.getbuvid s) as [|v]; [split; reflexivity|].
    destruct (truthy v); split; reflexivity.
Qed.

Lemma buvid_step_cookie (o : Bili.options) (rh : gmap string string)
    (s : Bili.state) :
  let h := (Bili.buvid_step o rh s).1 in
  (Bili.cookie o <> EmptyString ->
   exists suffix,
     h !! "Cookie" = Some (Bili.cookie o +:+ suffix)
     /\ (suffix = EmptyString
         \/ exists b, b <> EmptyString /\ suffix = "; buvid3=" +:+ b)) /\
  (Bili.cookie o = EmptyString -> Bili.needBuvid o = false -> h = rh).
Proof.
  assert (Hplain : Bili.cookie o <> EmptyString ->
            exists suffix,
              (if Bili.nonempty (Bili.cookie o)
               then <["Cookie" := Bili.cookie o]> rh else rh) !! "Cookie"
              = Some (Bili.cookie o +:+ suffix)
              /\ (suffix = EmptyString
                  \/ exists b, b <> EmptyString /\ suffix = "; buvid3=" +:+ b)).
  { intros Hc. exists EmptyString. unfold Bili.nonempty.
    destruct (String.eqb_spec (Bili.cookie o) EmptyString) as [|_]; [done|].
    cbn [negb]. rewrite lookup_insert_eq, string_app_empty_r. by split; [|left]. }
  unfold Bili.buvid_step. split.
  - intros Hc. destruct (Bili.needBuvid o); [|by apply Hplain].
    assert (Hfound : forall (v : option string) (s' : Bili.state),
              exists suffix,
                (if truthy v
                 then (<["Cookie" :=
                          if Bili.nonempty (Bili.cookie o)
                          then Bili.cookie o +:+ "; buvid3=" +:+ default EmptyString v
                          else "buvid3=" +:+ default EmptyString v]> rh, s')
                 else (if Bili.nonempty (Bili.cookie o)
                       then <["Cookie" := Bili.cookie o]> rh else rh, s')).1
                !! "Cookie" = Some (Bili.cookie o +:+ suffix)
                /\ (suffix = EmptyString
                    \/ exists b, b <> EmptyString /\ suffix = "; buvid3=" +:+ b)).
    { intros v s'. destruct (truthy v) eqn:Hv; [|by apply Hplain].
      exists ("; buvid3=" +:+ default EmptyString v). cbn [fst].
      unfold Bili.nonempty.
      destruct (String.eqb_spec (Bili.cookie o) EmptyString) as [|_]; [done|].
      cbn [negb]. rewrite lookup_insert_eq. split; [done|]. right.
      exists (default EmptyString v). split; [|done].
      destruct v as [b|]; [|done]. simpl in *.
      by destruct (String.eqb_spec b EmptyString). }
    destruct (Bili.useCachedBuvid o && truthy (Bili.buvid (Bili.cache s)));
      cbv beta iota zeta; [apply Hfound|].
    destruct (Bili.getbuvid s) as [|v]; [by apply Hplain | apply Hfound].
  - intros Hc ->. by rewrite Hc.
Qed.

Lemma getWbiKeys_frame (s : Bili.state) :
  let s1 := (Bili.getWbiKeys s).2 in
  Bili.now s1 = Bili.now s /\ Bili.api s1 = Bili.api s
  /\ Bili.buvid (Bili.cache s1) = Bili.buvid (Bili.cache s)
  /\ (Bili.requests s1 = Bili.requests s
      \/ Bili.requests s1 = Bili.requests s ++ [Bili.SentNav]).
Proof.
  unfold Bili.getWbiKeys.
  destruct (Bili.wbiKeys (Bili.cache s)) as [k|]; [destruct (_ <? _)|];
    try destruct (Bili.nav s); split_and!; try reflexivity;
    try (left; reflexivity); right; reflexivity.
Qed.

(** The shape of a run of [biliRequest]: after the buvid step, either the
    signature fails, or one request goes to the API. *)
Lemma biliRequest_run (md5 : string -> string) (o : Bili.options)
    (s : Bili.state) :
  let h := (Bili.buvid_step o (Bili.headers o ∪ Bili.defaultHeaders) s).1 in
  let s1 := (Bili.buvid_step o (Bili.headers o ∪ Bili.defaultHeaders) s).2 in
  let s2 := if Bili.useWbi o then (Bili.getWbiKeys s1).2 else s1 in
  let q :=
    if Bili.useWbi o then
      match (Bili.getWbiKeys s1).1 with
      | Some k =>
          Bili.assign_entries
            (Bili.URLSearchParams
               (Bili.encWbi md5 (Bili.params o) (Bili.img_key k)
                  (Bili.sub_key k) (Bili.now s2)))
      | None => ∅
      end
    else Bili.params o in
  let r := Bili.ApiRequest (Bili.method o) (Bili.url o) q h in
  (Bili.useWbi o = true /\ (Bili.getWbiKeys s1).1 = None
   /\ Bili.biliRequest md5 o s
      = (Bili.Failed (-1) "WBI签名失败" Bili.WbiError, s2))
  \/ ((Bili.useWbi o = true -> is_Some (Bili.getWbiKeys s1).1)
      /\ Bili.biliRequest md5 o s
         = (match Bili.api s2 r with
            | Bili.ApiData data => Bili.Data data
            | Bili.ApiFails e =>
                Bili.Failed (-1) "请求失败" (Bili.RequestError e)
            end, Bili.send (Bili.SentApi r) s2)).
Proof.
  intros h s1 s2 q r. unfold Bili.biliRequest. subst r q h s2 s1.
  destruct (Bili.buvid_step o (Bili.headers o ∪ Bili.defaultHeaders) s)
    as [h s1]. cbn [fst snd].
  destruct (Bili.useWbi o).
  - destruct (Bili.getWbiKeys s1) as [[k|] s2]; cbn [fst snd].
    + right. split; [by eexists|].
      match goal with |- context [Bili.api s2 ?r] => by destruct (Bili.api s2 r) end.
    + by left.
  - right. split; [done|].
    match goal with |- context [Bili.api s1 ?r] => by destruct (Bili.api s1 r) end.
Qed.

Lemma biliRequest_before_api (md5 : string -> string) (o : Bili.options)
    (s : Bili.state) :
  let s1 := (Bili.buvid_step o (Bili.headers o ∪ Bili.defaultHeaders) s).2 in
  let s2 := if Bili.useWbi o then (Bili.getWbiKeys s1).2 else s1 in
  exists pre,
    Bili.requests s2 = Bili.requests s ++ pre
    /\ (forall x, x ∈ pre -> x = Bili.SentBuvid \/ x = Bili.SentNav)
    /\ Bili.buvid (Bili.cache s2) = Bili.buvid (Bili.cache s1).
Proof.
  intros s1 s2.
  destruct (buvid_step_requests o (Bili.headers o ∪ Bili.defaultHeaders) s)
    as [Hb _]. fold s1 in Hb.
  set (lb := if Bili.needBuvid o
                && negb (Bili.useCachedBuvid o
                         && truthy (Bili.buvid (Bili.cache s)))
             then [Bili.SentBuvid] else []) in Hb.
  assert (Hlb : forall x, x ∈ lb -> x = Bili.SentBuvid).
  { subst lb. intros x. destruct (_ && _).
    - by intros ->%list_elem_of_singleton.
    - by intros ?%elem_of_nil. }
  subst s2. destruct (Bili.useWbi o).
  - destruct (getWbiKeys_frame s1) as (_ & _ & Hbu & [Hr|Hr]).
    + exists lb. rewrite Hr. split_and!; [done| |done].
      intros x Hx. left. by apply Hlb.
    + exists (lb ++ [Bili.SentNav]). rewrite Hr, Hb, app_assoc.
      split_and!; [done| |done].
      intros x [Hx|Hx%list_elem_of_singleton]%elem_of_app;
        [left; by apply Hlb | by right].
  - exists lb. split_and!; [done| |done]. intros x Hx. left. by apply Hlb.
Qed.

(** X16: a request that [biliRequest] sends to the API goes to the URL and
    with the method of the options, and never loses the caller's cookie:
    its Cookie header is that cookie, alone or followed by
    [; buvid3=<buvid>].  Without a cookie and without buvid the headers are
    the given ones over the two default ones. *)
Theorem custom_cookie_is_always_sent (md5 : string -> string)
    (o : Bili.options) (s : Bili.state) (r : Bili.api_request) :
  Bili.SentApi r ∈ Bili.sent_between s (Bili.biliRequest md5 o s).2 ->
  Bili.req_method r = Bili.method o /\ Bili.req_url r = Bili.url o
  /\ (Bili.cookie o <> EmptyString ->
      exists suffix,
        Bili.req_headers r !! "Cookie" = Some (Bili.cookie o +:+ suffix)
        /\ (suffix = EmptyString
            \/ exists b, b <> EmptyString /\ suffix = "; buvid3=" +:+ b))
  /\ (Bili.cookie o = EmptyString -> Bili.needBuvid o = false ->
      Bili.req_headers r = Bili.headers o ∪ Bili.defaultHeaders).
Proof.
  destruct (biliRequest_before_api md5 o s) as (pre & Hreq & Hpre & _).
  destruct (buvid_step_cookie o (Bili.headers o ∪ Bili.defaultHeaders) s)
    as [Hc1 Hc2].
  destruct (biliRequest_run md5 o s) as [(_ & _ & ->)|(_ & ->)]; cbn [snd].
  - rewrite (sent_between_app _ _ _ Hreq). intros Hin.
    by destruct (Hpre _ Hin).
  - erewrite sent_between_app by (cbn; rewrite Hreq, <- app_assoc; done).
    intros [Hin|Hin%list_elem_of_singleton]%elem_of_app.
    { by destruct (Hpre _ Hin). }
    injection Hin as ->. by split_and!.
Qed.

(** X17: when the signature is asked for, no fresh keys are cached and
    [/nav] fails, [biliRequest] answers code -1 with the signature message
    and sends nothing to the API, though it has asked [/nav]. *)
Theorem failed_signature_sends_nothing (md5 : string -> string)
    (o : Bili.options) (s : Bili.state) :
  Bili.useWbi o = true ->
  Bili.nav s = Bili.NavFails ->
  Bili.wbiKeys (Bili.cache s) = None
  \/ 1800000 <= Bili.now s - Bili.lastWbiKeysFetchTime (Bili.cache s) ->
  (Bili.biliRequest md5 o s).1
  = Bili.Failed (-1) "WBI签名失败" Bili.WbiError
  /\ Bili.SentNav ∈ Bili.sent_between s (Bili.biliRequest md5 o s).2
  /\ (forall r, Bili.SentApi r ∉ Bili.sent_between s (Bili.biliRequest md5 o s).2)
  /\ Bili.wbiKeys (Bili.cache (Bili.biliRequest md5 o s).2)
     = Bili.wbiKeys (Bili.cache s).
Proof.
  intros Hwbi Hnav Hstale.
  destruct (buvid_step_frame o (Bili.headers o ∪ Bili.defaultHeaders) s)
    as (Hnow & Hnav1 & _ & _ & Hk & Hl).
  destruct (buvid_step_requests o (Bili.headers o ∪ Bili.defaultHeaders) s)
    as [Hb _].
  set (s1 := (Bili.buvid_step o (Bili.headers o ∪ Bili.defaultHeaders) s).2)
    in *.
  assert (Hget : Bili.getWbiKeys s1 = (None, Bili.send Bili.SentNav s1)).
  { unfold Bili.getWbiKeys. rewrite Hk, Hl, Hnow, Hnav1, Hnav.
    destruct (Bili.wbiKeys (Bili.cache s)) as [k|]; [|done].
    destruct Hstale as [|Hstale]; [done|].
    change (30 * 60 * 1000) with 1800000.
    by destruct (Z.ltb_spec (Bili.now s - Bili.lastWbiKeysFetchTime (Bili.cache s))
                   1800000); [lia|]. }
  destruct (biliRequest_run md5 o s) as [(_ & _ & ->)|(Hsome & _)].
  2:{ destruct (Hsome Hwbi) as [k Hsome']. fold s1 in Hsome'.
      by rewrite Hget in Hsome'. }
  fold s1. rewrite Hwbi, Hget. cbn [fst snd].
  erewrite sent_between_app by (cbn; rewrite Hb, <- app_assoc; done).
  split_and!; [done| | |done].
  - apply elem_of_app. right. by apply list_elem_of_singleton.
  - intros r [Hin|Hin%list_elem_of_singleton]%elem_of_app; [|done].
    destruct (_ && _); [by apply list_elem_of_singleton in Hin|].
    by apply elem_of_nil in Hin.
Qed.

(** X18: with [needBuvid], a cached buvid is used without asking
    [/getbuvid] when [useCachedBuvid] holds; otherwise [/getbuvid] is asked
    once, and the value it gives replaces the cached one, while a failure
    leaves the cache as it was. *)
Theorem buvid_is_fetched_once (md5 : string -> string)
    (o : Bili.options) (s : Bili.state) :
  Bili.needBuvid o = true ->
  let s' := (Bili.biliRequest md5 o s).2 in
  (Bili.useCachedBuvid o = true -> truthy (Bili.buvid (Bili.cache s)) = true ->
   (Bili.SentBuvid ∉ Bili.sent_between s s')
   /\ Bili.buvid (Bili.cache s') = Bili.buvid (Bili.cache s)) /\
  ((Bili.useCachedBuvid o && truthy (Bili.buvid (Bili.cache s))) = false ->
   head (Bili.sent_between s s') = Some Bili.SentBuvid
   /\ Bili.buvid (Bili.cache s')
      = match Bili.getbuvid s with
        | Bili.BuvidIs v => v
        | Bili.BuvidFails => Bili.buvid (Bili.cache s)
        end).
Proof.
  intros Hneed s'.
  destruct (buvid_step_requests o (Bili.headers o ∪ Bili.defaultHeaders) s)
    as [Hb Hv]. rewrite Hneed in Hb, Hv. cbn [andb] in Hb, Hv.
  set (s1 := (Bili.buvid_step o (Bili.headers o ∪ Bili.defaultHeaders) s).2)
    in *.
  assert (Hs' : exists post,
            Bili.requests s'
            = Bili.requests s1 ++ post
            /\ (Bili.SentBuvid ∉ post)
            /\ Bili.buvid (Bili.cache s') = Bili.buvid (Bili.cache s1)).
  { subst s'.
    destruct (getWbiKeys_frame s1) as (_ & _ & Hbu & Hr).
    destruct (biliRequest_run md5 o s) as [(Hw & _ & ->)|(_ & ->)];
      fold s1; cbn [snd].
    - rewrite Hw. destruct Hr as [Hr|Hr]; rewrite Hr.
      + exists []. rewrite app_nil_r. split_and!; [done| |done].
        apply not_elem_of_nil.
      + eexists. split_and!; [done| |done].
        by intros ?%list_elem_of_singleton.
    - destruct (Bili.useWbi o).
      + destruct Hr as [Hr|Hr]; cbn; rewrite Hr.
        * eexists. split_and!; [done| |done].
          by intros ?%list_elem_of_singleton.
        * rewrite <- app_assoc. eexists. split_and!; [done| |done].
          intros [?%list_elem_of_singleton|?%list_elem_of_singleton]%elem_of_app;
            done.
      + cbn. eexists. split_and!; [done| |done].
        by intros ?%list_elem_of_singleton. }
  destruct Hs' as (post & Hreq & Hpost & Hbuvid). split.
  - intros Hu Ht. rewrite Hu, Ht in Hb, Hv. cbn in Hb, Hv.
    rewrite app_nil_r in Hb.
    erewrite sent_between_app by (rewrite Hreq, Hb; done).
    split; [done|]. rewrite Hbuvid, Hv. by destruct (Bili.getbuvid s).
  - intros Hu. rewrite Hu in Hb, Hv. cbn in Hb, Hv.
    erewrite sent_between_app by (rewrite Hreq, Hb, <- app_assoc; done).
    split; [done|]. by rewrite Hbuvid, Hv.
Qed.

(** ** The routes of the Bilibili API *)




(** ** The further properties at sample inputs *)



Lemma eviction_only_over_budget_witness :
  exists e,
    is_Some (files Sample.big_blob_world !! (base e +:+ ".bin"))
    /\ files (enforceCacheSizeLimit "cache" 1 Sample.big_blob_world).2
         !! (base e +:+ ".bin") = None.
Proof.
  destruct (eviction_only_over_budget "cache" 1 Sample.big_blob_world)
    as [_ H].
  destruct H as (e & _ & _ & H1 & H2);
    [ discriminate | vm_compute; reflexivity | reflexivity
    | vm_compute; reflexivity | ].
  exists e. split; [exact H1 | exact H2].
Defined.

Lemma eviction_spares_temp_orphans_and_outsiders_witness :
  AUDIO_CACHE_MAX_BYTES 1 < blob_total "cache" (files Sample.mixed_world)
  /\ files (enforceCacheSizeLimit "cache" 1 Sample.mixed_world).2
       !! "cache/7_default.bin" = None
  /\ mtime <$> files (enforceCacheSizeLimit "cache" 1 Sample.mixed_world).2
                 !! "cache/8_default.tmp" = Some 0
  /\ mtime <$> files (enforceCacheSizeLimit "cache" 1 Sample.mixed_world).2
                 !! "cache/9_default.json" = Some 0
  /\ mtime <$> files (enforceCacheSizeLimit "cache" 1 Sample.mixed_world).2
                 !! "cache/sub/5_default.bin" = Some 0
  /\ mtime <$> files (enforceCacheSizeLimit "cache" 1 Sample.mixed_world).2
                 !! "elsewhere/6_default.bin" = Some 0.
Proof.
  destruct (eviction_spares_temp_orphans_and_outsiders "cache" 1
              Sample.mixed_world) as (H1 & H2 & H3).
  split; [vm_compute; reflexivity|]. split; [vm_compute; reflexivity|].
  split_and!.
  - change "cache/8_default.tmp" with ("cache/8_default" +:+ ".tmp").
    rewrite (H1 "cache/8_default"). vm_compute; reflexivity.
  - change "cache/9_default.json" with ("cache/9_default" +:+ ".json").
    rewrite (H2 "cache/9_default"); vm_compute; reflexivity.
  - rewrite (H3 "cache/sub/5_default.bin"); vm_compute; reflexivity.
  - rewrite (H3 "elsewhere/6_default.bin"); vm_compute; reflexivity.
Defined.

Lemma temp_file_lifecycle_witness :
  (download_body "cache" 1 Sample.stringify Sample.job7
     Sample.broken_net_world).1
  = Throw (PipelineError "cache/7_default.tmp")
  /\ files (download_body "cache" 1 Sample.stringify Sample.job7
              Sample.broken_net_world).2 !! "cache/7_default.tmp"
     = Some (File [x01; x02]%byte 1000).
Proof.
  destruct (temp_file_lifecycle "cache" 1 Sample.stringify Sample.job7
              Sample.broken_net_world Sample.broken_response)
    as (H & _ & _); [reflexivity | reflexivity |].
  exact (H 2%nat eq_refl).
Defined.


Lemma expired_entry_is_lost_when_resolution_fails_witness :
  exists r w',
    audio_handler "cache" 3600 1 Sample.parse_fails Sample.stringify
      Sample.resolver_rejects Sample.req7 Sample.old_blob_world = (Ok r, w')
    /\ statusCode r = 500
    /\ files w' !! "cache/7_default.bin" = None.
Proof.
  destruct (expired_entry_is_lost_when_resolution_fails "cache" 3600 1
              Sample.parse_fails Sample.stringify Sample.resolver_rejects
              Sample.req7 Sample.old_blob_world (File Sample.audio 0))
    as (r & w' & H1 & H2 & H3 & _);
    [ discriminate | reflexivity | reflexivity | reflexivity | reflexivity
    | left; eexists; reflexivity | ].
  exists r, w'. split; [exact H1|]. split; [exact H2 | exact H3].
Defined.


Lemma resolveClientIp_single_address_witness :
  ClientIp.resolveClientIp (Some "116.25.146.177")
    {| ClientIp.x_forwarded_for := Some (ClientIp.HStr "1.2.3.4, 10.0.0.1");
       ClientIp.x_real_ip := None; ClientIp.ip := Some "::1" |}
  = Some "1.2.3.4"
  /\ Str.includes_char "," "1.2.3.4" = false.
Proof.
  split; [reflexivity|].
  destruct (proj1 resolveClientIp_single_address (Some "116.25.146.177")
              {| ClientIp.x_forwarded_for :=
                   Some (ClientIp.HStr "1.2.3.4, 10.0.0.1");
                 ClientIp.x_real_ip := None; ClientIp.ip := Some "::1" |}
              "1.2.3.4" eq_refl) as [H|[H|H]];
    [discriminate H | discriminate H | exact H].
Defined.

Lemma client_ip_normalisers_agree_witness :
  ClientIp.resolveClientIp (Some "116.25.146.177")
    {| ClientIp.x_forwarded_for := None; ClientIp.x_real_ip := None;
       ClientIp.ip := Some "::ffff:1.2.3.4" |}
  = ClientIp.module_route_ip (Some "116.25.146.177") "::ffff:1.2.3.4".
Proof.
  destruct (client_ip_normalisers_agree (Some "116.25.146.177")
              "::ffff:1.2.3.4") as [H _];
    [discriminate | reflexivity |].
  apply H. discriminate.
Defined.

Lemma default_route_shape_witness :
  exists b,
    b +:+ ".js" ∈ ["README.md"; "song_url.js"]
    /\ "/song/url" = "/" +:+ JsString.replace_char "_" "/" b.
Proof.
  destruct (default_route_shape (fun _ : string => tt) path_join
              ["README.md"; "song_url.js"] "module" None true
              {| ModuleDefs.identifier := "song_url";
                 ModuleDefs.route := "/song/url";
                 ModuleDefs.module := ModuleDefs.Required tt |})
    as (b & Hin & _ & H); [vm_compute; apply list_elem_of_here|].
  exists b. split; [exact Hin|]. exact (proj1 (H eq_refl)).
Defined.

Lemma routes_are_distinct_witness :
  NoDup (ModuleDefs.route <$>
           ModuleDefs.getModulesDefinitions (fun _ : string => tt) path_join
             ["song_url.js"; "fm_trash.js"; "song.js"; "README.md"] "module"
             (Some ModuleDefs.special) true).
Proof.
  apply routes_are_distinct.
  - apply (bool_decide_unpack _). vm_compute. reflexivity.
  - intros f Hf. repeat (apply elem_of_cons in Hf as [->|Hf]);
      [reflexivity.. | by apply elem_of_nil in Hf].
  - intros f r Hf. repeat (apply elem_of_cons in Hf as [->|Hf]);
      [ | | | | by apply elem_of_nil in Hf]; vm_compute;
      intros H; by inversion H.
  - intros f g r Hf Hg.
    repeat (apply elem_of_cons in Hf as [->|Hf]);
      [ | | | | by apply elem_of_nil in Hf];
      repeat (apply elem_of_cons in Hg as [->|Hg]);
      try (by apply elem_of_nil in Hg); vm_compute; intros H1 H2;
      try reflexivity; try (by inversion H1); by inversion H2.
Defined.

Lemma checkVersion_compares_characters_witness :
  Version.status
    (Version.checkVersion "4.9.0" false
       ("4.10.0" +:+ String (ascii_of_nat 10) EmptyString))
  = Version.LATEST.
Proof.
  destruct (checkVersion_compares_characters "4." ".0" ".0"
              ("4.10.0" +:+ String (ascii_of_nat 10) EmptyString) "x")
    as (_ & _ & H & _).
  exact (H eq_refl).
Defined.

Lemma getMixinKey_uses_half_of_the_table_witness :
  String.length (Bili.getMixinKey Sample.long_key) = 32%nat.
Proof.
  destruct (getMixinKey_uses_half_of_the_table Sample.long_key)
    as (_ & _ & H).
  destruct H as [_ H]; [simpl; lia | exact H].
Defined.

Lemma key_of_url_is_the_file_name_witness :
  Bili.key_of_url
    "https://i0.hdslb.com/bfs/wbi/7cd084941338484aae1ad9425b84077c.png"
  = "7cd084941338484aae1ad9425b84077c".
Proof.
  destruct (key_of_url_is_the_file_name "https://i0.hdslb.com/bfs/wbi"
              "7cd084941338484aae1ad9425b84077c" "png") as [H _];
    [reflexivity|].
  apply H; reflexivity.
Defined.

Lemma wbi_keys_are_cached_for_thirty_minutes_witness :
  (Bili.getWbiKeys Sample.bili_state).1
  = Some (Bili.WbiKeys "7cd084941338484aae1ad9425b84077c"
            "4932caff0ff746eab6f01bf08b70ac45")
  /\ Bili.requests (Bili.getWbiKeys Sample.bili_state).2 = [Bili.SentNav].
Proof.
  destruct (wbi_keys_are_cached_for_thirty_minutes Sample.bili_state
              "https://i0.hdslb.com/bfs/wbi/7cd084941338484aae1ad9425b84077c.png"
              "https://i0.hdslb.com/bfs/wbi/4932caff0ff746eab6f01bf08b70ac45.png")
    as (H1 & H2 & _); [reflexivity | reflexivity |].
  split; [exact H1 | exact H2].
Defined.

Lemma signed_query_round_trip_witness :
  Bili.assign_entries
    (Bili.URLSearchParams
       (Bili.encWbi Sample.md5
          (<[ "__proto__" := JStr "x" ]>
             (<[ "pn" := JNum 2 ]> {[ "keyword" := JStr "a(b) c" ]}))
          "7cd084941338484aae1ad9425b84077c" "4932caff0ff746eab6f01bf08b70ac45"
          1700000000499))
  = <[ "w_rid" := JStr "d41d8cd98f00b204e9800998ecf8427e" ]>
      (<[ "wts" := JStr "1700000000" ]>
         (<[ "pn" := JStr "2" ]> {[ "keyword" := JStr "ab c" ]})).
Proof.
  rewrite (signed_query_round_trip Sample.md5
             (<[ "__proto__" := JStr "x" ]>
                (<[ "pn" := JNum 2 ]> {[ "keyword" := JStr "a(b) c" ]}))
             "7cd084941338484aae1ad9425b84077c"
             "4932caff0ff746eab6f01bf08b70ac45" 1700000000499).
  - vm_compute. reflexivity.
  - reflexivity.
  - do 2 (apply map_Forall_insert_2; [reflexivity|]).
    apply map_Forall_singleton. reflexivity.
  - reflexivity.
Defined.

Lemma custom_cookie_is_always_sent_witness :
  exists r suffix,
    Bili.SentApi r
      ∈ Bili.sent_between Sample.bili_state
          (Bili.biliRequest Sample.md5 Sample.cookie_options
             Sample.bili_state).2
    /\ Bili.req_headers r !! "Cookie" = Some ("SESSDATA=abc" +:+ suffix).
Proof.
  set (r := Bili.ApiRequest "GET"
              "https://api.bilibili.com/x/web-interface/popular" ∅
              (<["Cookie" := "SESSDATA=abc; buvid3=B1"]>
                 (∅ ∪ Bili.defaultHeaders))).
  assert (Hin : Bili.SentApi r
                  ∈ Bili.sent_between Sample.bili_state
                      (Bili.biliRequest Sample.md5 Sample.cookie_options
                         Sample.bili_state).2).
  { apply list_elem_of_further, list_elem_of_here. }
  destruct (custom_cookie_is_always_sent Sample.md5 Sample.cookie_options
              Sample.bili_state r Hin) as (_ & _ & H & _).
  destruct H as (suffix & H & _); [discriminate|].
  exists r, suffix. split; [exact Hin | exact H].
Defined.

Lemma failed_signature_sends_nothing_witness :
  (Bili.biliRequest Sample.md5 Sample.signed_options
     Sample.bili_state_offline).1
  = Bili.Failed (-1) "WBI签名失败" Bili.WbiError.
Proof.
  destruct (failed_signature_sends_nothing Sample.md5 Sample.signed_options
              Sample.bili_state_offline) as (H & _);
    [reflexivity | reflexivity | left; reflexivity | exact H].
Defined.

Lemma buvid_is_fetched_once_witness :
  Bili.buvid
    (Bili.cache
       (Bili.biliRequest Sample.md5 Sample.cookie_options
          Sample.bili_state).2)
  = Some "B1".
Proof.
  destruct (buvid_is_fetched_once Sample.md5 Sample.cookie_options
              Sample.bili_state) as [_ H]; [reflexivity|].
  destruct H as [_ H]; [reflexivity | exact H].
Defined.

